(** * channels_presence: rooms, presences and the change signal

    A shallow embedding of [channels_presence/models.py] and
    [channels_presence/decorators.py].  The two database tables are lists
    of rows kept in insertion order, the constraints declared on the models
    ([unique=True], [unique_together], the foreign keys) are checked by the
    insert primitives the way the database checks them, and every method of
    the managers and of [Room] is a computation in a state-and-exception
    monad that also carries the execution context (a blocking thread or a
    running event loop). *)

From Stdlib Require Import List ZArith String Bool Arith Lia.
Import ListNotations.

Set Implicit Arguments.

(** ** Rows *)

(** A user object as the code looks at it: its primary key and the
    [is_authenticated] attribute ([AnonymousUser] answers [False]). *)
Record User := mkUser {
  user_pk : nat;
  is_authenticated : bool
}.

(** [class Room(models.Model)]: [channel_name] is [unique=True]. *)
Record Room := mkRoom {
  room_pk : nat;
  room_channel_name : string
}.

(** [class Presence(models.Model)]: [room] and [user] are foreign keys
    (stored as the primary key they point to), [user] is nullable. *)
Record Presence := mkPresence {
  presence_pk : nat;
  presence_room : nat;
  presence_channel_name : string;
  presence_user : option nat;
  presence_last_seen : Z
}.

(** A [Presence] object in memory: the fields of its row, and the primary
    key for as long as the row exists ([delete()] sets it to [None] on the
    instance it is called on). *)
Record PresenceInstance := mkInstance {
  instance_pk : option nat;
  instance_room : nat;
  instance_channel_name : string;
  instance_user : option nat;
  instance_last_seen : Z
}.

(** The instance of a row that was read or created. *)
Definition loaded (p : Presence) : PresenceInstance :=
  mkInstance (Some (presence_pk p)) (presence_room p) (presence_channel_name p)
             (presence_user p) (presence_last_seen p).

(** The same instance after its [delete()]. *)
Definition deleted (p : Presence) : PresenceInstance :=
  mkInstance None (presence_room p) (presence_channel_name p)
             (presence_user p) (presence_last_seen p).

(** The keyword arguments of [presence_changed.send]. *)
Record Event := mkEvent {
  ev_room : Room;
  ev_added : option PresenceInstance;
  ev_removed : option PresenceInstance;
  ev_bulk_change : bool
}.

(** Exceptions the modelled code can see. *)
Inductive Exn :=
| DoesNotExist
| MultipleObjectsReturned
| IntegrityError
| SynchronousOnlyOperation
| RuntimeError
| TypeError
| OverflowError
| ReceiverError (msg : string).

(** What leaves the process, in the order it happens: calls made on the
    channel layer, accepted or not, and sends of the [presence_changed]
    signal. *)
Inductive Effect :=
| GroupAdd (group member : string)
| GroupDiscard (group member : string)
| Signal (ev : Event).

(** A receiver connected to [presence_changed]: it returns normally
    ([None]) or raises. *)
Definition Receiver := Event -> option Exn.

(** The channel layer, as far as the code sees it: for a group name and a
    channel name, [group_add] and [group_discard] return normally ([None])
    or raise (a name the layer refuses raises [TypeError]). *)
Definition ChannelLayer := string -> string -> option Exn.

(** ** The store *)

Record Store := mkStore {
  rooms : list Room;
  presences : list Presence;
  auth_users : list nat;
  next_room_pk : nat;
  next_presence_pk : nat;
  clock : Z;              (* microseconds since 0001-01-01 00:00:00 *)
  CHANNELS_PRESENCE_MAX_AGE : option Z;     (* the optional setting *)
  receivers : list Receiver;
  channel_layer : ChannelLayer;
  trace : list Effect
}.

Definition set_rooms (f : list Room -> list Room) (s : Store) : Store :=
  mkStore (f (rooms s)) (presences s) (auth_users s) (next_room_pk s)
          (next_presence_pk s) (clock s) (CHANNELS_PRESENCE_MAX_AGE s)
          (receivers s) (channel_layer s) (trace s).

Definition set_presences (f : list Presence -> list Presence) (s : Store) : Store :=
  mkStore (rooms s) (f (presences s)) (auth_users s) (next_room_pk s)
          (next_presence_pk s) (clock s) (CHANNELS_PRESENCE_MAX_AGE s)
          (receivers s) (channel_layer s) (trace s).

Definition insert_room (r : Room) (s : Store) : Store :=
  mkStore (rooms s ++ [r]) (presences s) (auth_users s) (S (next_room_pk s))
          (next_presence_pk s) (clock s) (CHANNELS_PRESENCE_MAX_AGE s)
          (receivers s) (channel_layer s) (trace s).

Definition insert_presence (p : Presence) (s : Store) : Store :=
  mkStore (rooms s) (presences s ++ [p]) (auth_users s) (next_room_pk s)
          (S (next_presence_pk s)) (clock s) (CHANNELS_PRESENCE_MAX_AGE s)
          (receivers s) (channel_layer s) (trace s).

Definition log (e : Effect) (s : Store) : Store :=
  mkStore (rooms s) (presences s) (auth_users s) (next_room_pk s)
          (next_presence_pk s) (clock s) (CHANNELS_PRESENCE_MAX_AGE s)
          (receivers s) (channel_layer s) (trace s ++ [e]).

Definition set_clock (t : Z) (s : Store) : Store :=
  mkStore (rooms s) (presences s) (auth_users s) (next_room_pk s)
          (next_presence_pk s) t (CHANNELS_PRESENCE_MAX_AGE s)
          (receivers s) (channel_layer s) (trace s).

(** A freshly migrated database: both tables empty. *)
Definition empty_store (users : list nat) (t : Z) (age : option Z)
           (rs : list Receiver) (layer : ChannelLayer) : Store :=
  mkStore [] [] users 1 1 t age rs layer [].

(** ** The monad *)

(** Where the caller runs: in an ordinary thread, or inside a running
    event loop (every [async def] body does). *)
Inductive Context := Blocking | EventLoop.

Inductive Outcome (A : Type) :=
| Ok (a : A)
| Raise (e : Exn).
Arguments Ok {A} a.
Arguments Raise {A} e.

(** An exception leaves the store as it is at the point of the raise:
    the ORM runs in autocommit, nothing is rolled back. *)
Definition M (A : Type) := Context -> Store -> Outcome A * Store.

Definition ret {A} (a : A) : M A := fun _ s => (Ok a, s).

Definition bind {A B} (m : M A) (k : A -> M B) : M B :=
  fun c s =>
    match m c s with
    | (Ok a, s') => k a c s'
    | (Raise e, s') => (Raise e, s')
    end.

Definition raise {A} (e : Exn) : M A := fun _ s => (Raise e, s).

Definition gets {A} (f : Store -> A) : M A := fun _ s => (Ok (f s), s).

Definition modify (f : Store -> Store) : M unit := fun _ s => (Ok tt, f s).

(** [try: m except e: h] for the exceptions selected by [handles]. *)
Definition try_except {A} (m : M A) (handles : Exn -> bool) (h : M A) : M A :=
  fun c s =>
    match m c s with
    | (Raise e, s') => if handles e then h c s' else (Raise e, s')
    | r => r
    end.

Declare Scope monad_scope.
Delimit Scope monad_scope with monad.
Notation "x <- m ;; k" := (bind m (fun x => k))
  (at level 61, m at next level, right associativity) : monad_scope.
Notation "m ;; k" := (bind m (fun _ => k))
  (at level 61, right associativity) : monad_scope.
Open Scope monad_scope.

(** [for x in xs: body x] *)
Fixpoint for_each {A} (xs : list A) (body : A -> M unit) : M unit :=
  match xs with
  | [] => ret tt
  | x :: xs' => body x ;; for_each xs' body
  end.

Definition run_sync {A} (m : M A) (s : Store) : Outcome A * Store := m Blocking s.
Definition run_async {A} (m : M A) (s : Store) : Outcome A * Store := m EventLoop s.

(** ** What the code imports *)

(** Django guards its database connection with [async_unsafe]: inside a
    running event loop a synchronous query raises. *)
Definition async_unsafe : M unit :=
  fun c s =>
    match c with
    | Blocking => (Ok tt, s)
    | EventLoop => (Raise SynchronousOnlyOperation, s)
    end.

(** [sync_to_async(f)]: [f] runs in a worker thread.  The [a]-prefixed
    ORM methods are their synchronous namesakes wrapped this way. *)
Definition sync_to_async {A} (m : M A) : M A := fun _ s => m Blocking s.

(** [async_to_sync(f)]: refuses to start inside a running event loop,
    otherwise runs the coroutine on a loop of its own. *)
Definition async_to_sync {A} (m : M A) : M A :=
  fun c s =>
    match c with
    | Blocking => m EventLoop s
    | EventLoop => (Raise RuntimeError, s)
    end.

(** [django.utils.timezone.now] *)
Definition now : M Z := gets clock.

(** [timedelta(seconds=n)] in microseconds. *)
Definition timedelta_seconds (n : Z) : Z := (n * 1000000)%Z.

(** [timedelta(seconds=n)]: the constructor refuses more than 999999999
    days either way. *)
Definition timedelta (seconds : Z) : M Z :=
  if Z.leb (Z.abs (seconds / 86400)) 999999999
  then ret (timedelta_seconds seconds)
  else raise OverflowError.

(** [datetime.max], 9999-12-31 23:59:59.999999, in microseconds since
    [datetime.min]. *)
Definition DATETIME_MAX : Z := 315537897599999999.

(** [t - d] on a datetime and a timedelta: the result has to be a
    datetime. *)
Definition datetime_sub (t d : Z) : M Z :=
  let r := (t - d)%Z in
  if Z.leb 0 r && Z.leb r DATETIME_MAX then ret r else raise OverflowError.

(** The calls on the channel layer: the call is made, and the layer
    returns or raises. *)
Definition layer_call (call : Effect) (group member : string) : M unit :=
  modify (log call) ;;
  refusal <- gets (fun s => channel_layer s group member) ;;
  match refusal with
  | Some e => raise e
  | None => ret tt
  end.

Definition group_add (group member : string) : M unit :=
  layer_call (GroupAdd group member) group member.

Definition group_discard (group member : string) : M unit :=
  layer_call (GroupDiscard group member) group member.

(** [Signal.send]: the receivers are called in order and the first one
    that raises ends the send, its exception going to the sender. *)
Fixpoint call_receivers (rs : list Receiver) (ev : Event) : option Exn :=
  match rs with
  | [] => None
  | r :: rs' =>
      match r ev with
      | Some e => Some e
      | None => call_receivers rs' ev
      end
  end.

Definition presence_changed_send (ev : Event) : M unit :=
  modify (log (Signal ev)) ;;
  rs <- gets receivers ;;
  match call_receivers rs ev with
  | Some e => raise e
  | None => ret tt
  end.

Definition is_DoesNotExist (e : Exn) : bool :=
  match e with DoesNotExist => true | _ => false end.

Definition is_IntegrityError (e : Exn) : bool :=
  match e with IntegrityError => true | _ => false end.

(** *** Queries on [Room] *)

Definition option_nat_eqb (a b : option nat) : bool :=
  match a, b with
  | Some x, Some y => Nat.eqb x y
  | None, None => true
  | _, _ => false
  end.

Definition has_presence (ps : list Presence) (r : Room) : bool :=
  existsb (fun p => Nat.eqb (presence_room p) (room_pk r)) ps.

(** Evaluating [Room.objects.filter(...)]. *)
Definition Room_objects_filter (q : Room -> bool) : M (list Room) :=
  async_unsafe ;; gets (fun s => filter q (rooms s)).

Definition Room_objects_all : M (list Room) :=
  Room_objects_filter (fun _ => true).

Definition Room_objects_get (q : Room -> bool) : M Room :=
  rows <- Room_objects_filter q ;;
  match rows with
  | [] => raise DoesNotExist
  | [r] => ret r
  | _ => raise MultipleObjectsReturned
  end.

(** [Room.objects.create(channel_name=...)]: the unique constraint. *)
Definition Room_objects_create (name : string) : M Room :=
  async_unsafe ;;
  taken <- gets (fun s => existsb (fun r => String.eqb (room_channel_name r) name) (rooms s)) ;;
  if taken then raise IntegrityError
  else
    pk <- gets next_room_pk ;;
    let r := mkRoom pk name in
    modify (insert_room r) ;;
    ret r.

(** [get_or_create]: get; on [DoesNotExist] create; on [IntegrityError]
    get once more and re-raise when the row is still not there. *)
Definition Room_objects_get_or_create (name : string) : M (Room * bool) :=
  let q := fun r => String.eqb (room_channel_name r) name in
  try_except (r <- Room_objects_get q ;; ret (r, false)) is_DoesNotExist
    (try_except (r <- Room_objects_create name ;; ret (r, true)) is_IntegrityError
       (try_except (r <- Room_objects_get q ;; ret (r, false)) is_DoesNotExist
          (raise IntegrityError))).

(** [Room.objects.filter(...).delete()]: the rooms go, and with them
    ([on_delete=CASCADE]) the presences that point to them. *)
Definition Room_objects_delete (q : Store -> Room -> bool) : M nat :=
  async_unsafe ;;
  doomed <- gets (fun s => filter (q s) (rooms s)) ;;
  let gone := fun pk => existsb (fun r => Nat.eqb (room_pk r) pk) doomed in
  cascaded <- gets (fun s => filter (fun p => gone (presence_room p)) (presences s)) ;;
  modify (set_presences (filter (fun p => negb (gone (presence_room p))))) ;;
  modify (set_rooms (filter (fun r => negb (gone (room_pk r))))) ;;
  ret (List.length doomed + List.length cascaded).

(** *** Queries on [Presence] *)

Definition Presence_objects_filter (q : Presence -> bool) : M (list Presence) :=
  async_unsafe ;; gets (fun s => filter q (presences s)).

Definition Presence_objects_get (q : Presence -> bool) : M Presence :=
  rows <- Presence_objects_filter q ;;
  match rows with
  | [] => raise DoesNotExist
  | [p] => ret p
  | _ => raise MultipleObjectsReturned
  end.

Definition same_room_member (room : nat) (member : string) (p : Presence) : bool :=
  Nat.eqb (presence_room p) room && String.eqb (presence_channel_name p) member.

Definition same_key (room : nat) (member : string) (user : option nat)
           (p : Presence) : bool :=
  same_room_member room member p && option_nat_eqb (presence_user p) user.

(** [Presence.objects.create(room=, channel_name=, user=)]: the row is
    refused when [(room, channel_name)] is taken ([unique_together]) or a
    foreign key points nowhere; [last_seen] defaults to [now]. *)
Definition Presence_objects_create (room : nat) (member : string)
           (user : option nat) : M Presence :=
  async_unsafe ;;
  taken <- gets (fun s => existsb (same_room_member room member) (presences s)) ;;
  room_ok <- gets (fun s => existsb (fun r => Nat.eqb (room_pk r) room) (rooms s)) ;;
  user_ok <- gets (fun s => match user with
                            | Some u => existsb (Nat.eqb u) (auth_users s)
                            | None => true
                            end) ;;
  if taken || negb room_ok || negb user_ok then raise IntegrityError
  else
    pk <- gets next_presence_pk ;;
    t <- now ;;
    let p := mkPresence pk room member user t in
    modify (insert_presence p) ;;
    ret p.

Definition Presence_objects_get_or_create (room : nat) (member : string)
           (user : option nat) : M (Presence * bool) :=
  let q := same_key room member user in
  try_except (p <- Presence_objects_get q ;; ret (p, false)) is_DoesNotExist
    (try_except (p <- Presence_objects_create room member user ;; ret (p, true))
       is_IntegrityError
       (try_except (p <- Presence_objects_get q ;; ret (p, false)) is_DoesNotExist
          (raise IntegrityError))).

(** [queryset.update(last_seen=t)] returns the number of rows matched. *)
Definition touch_row (q : Presence -> bool) (t : Z) (p : Presence) : Presence :=
  if q p
  then mkPresence (presence_pk p) (presence_room p) (presence_channel_name p)
                  (presence_user p) t
  else p.

Definition Presence_objects_update (q : Presence -> bool) (t : Z) : M nat :=
  async_unsafe ;;
  n <- gets (fun s => List.length (filter q (presences s))) ;;
  modify (set_presences (map (touch_row q t))) ;;
  ret n.

(** [queryset.delete()] returns the number of rows deleted; nothing
    references [Presence], so nothing cascades. *)
Definition Presence_objects_delete (q : Presence -> bool) : M nat :=
  async_unsafe ;;
  n <- gets (fun s => List.length (filter q (presences s))) ;;
  modify (set_presences (filter (fun p => negb (q p)))) ;;
  ret n.

(** [presence.delete()] on an instance deletes by primary key and leaves
    the instance without one. *)
Definition Presence_delete (p : Presence) : M PresenceInstance :=
  Presence_objects_delete (fun p' => Nat.eqb (presence_pk p') (presence_pk p)) ;;
  ret (deleted p).

Definition Presence_objects_count (q : Presence -> bool) : M nat :=
  async_unsafe ;; gets (fun s => List.length (filter q (presences s))).

(** The [a]-prefixed counterparts ([aget], [aget_or_create], [aupdate],
    [adelete], [async for]) hand the synchronous method to a worker. *)
Definition Room_objects_aget (q : Room -> bool) : M Room :=
  sync_to_async (Room_objects_get q).

Definition Room_objects_aget_or_create (name : string) : M (Room * bool) :=
  sync_to_async (Room_objects_get_or_create name).

Definition Room_objects_aiter (q : Room -> bool) : M (list Room) :=
  sync_to_async (Room_objects_filter q).

Definition Room_objects_adelete (q : Store -> Room -> bool) : M nat :=
  sync_to_async (Room_objects_delete q).

Definition Presence_objects_aget (q : Presence -> bool) : M Presence :=
  sync_to_async (Presence_objects_get q).

Definition Presence_objects_aget_or_create (room : nat) (member : string)
           (user : option nat) : M (Presence * bool) :=
  sync_to_async (Presence_objects_get_or_create room member user).

Definition Presence_objects_aupdate (q : Presence -> bool) (t : Z) : M nat :=
  sync_to_async (Presence_objects_update q t).

Definition Presence_objects_adelete (q : Presence -> bool) : M nat :=
  sync_to_async (Presence_objects_delete q).

Definition Presence_adelete (p : Presence) : M PresenceInstance :=
  sync_to_async (Presence_delete p).

(** [select_related("room", "user").filter(...)]: each presence comes with
    its room, joined in the same query (an inner join, [room] is not
    nullable). *)
Definition Presence_objects_select_related (q : Presence -> bool)
  : M (list (Presence * Room)) :=
  async_unsafe ;;
  gets (fun s =>
          flat_map (fun p =>
                      map (fun r => (p, r))
                          (filter (fun r => Nat.eqb (room_pk r) (presence_room p))
                                  (rooms s)))
                   (filter q (presences s))).

Definition Presence_objects_select_related_aiter (q : Presence -> bool)
  : M (list (Presence * Room)) :=
  sync_to_async (Presence_objects_select_related q).

(** ** models.py *)

Definition by_channel_name (channel_name : string) (p : Presence) : bool :=
  String.eqb (presence_channel_name p) channel_name.

Definition by_room_channel_name (name : string) (r : Room) : bool :=
  String.eqb (room_channel_name r) name.

(** [Room.broadcast_changed] *)
Definition Room_broadcast_changed (self : Room)
           (added removed : option PresenceInstance) (bulk_change : bool) : M unit :=
  presence_changed_send (mkEvent self added removed bulk_change).

(** [if user and user.is_authenticated: authed_user = user
     else: authed_user = None] *)
Definition authed_user (user : option User) : option User :=
  match user with
  | Some u => if is_authenticated u then Some u else None
  | None => None
  end.

(** [Room.add_presence] *)
Definition Room_add_presence (self : Room) (channel_name : string)
           (user : option User) : M unit :=
  pc <- Presence_objects_get_or_create (room_pk self) channel_name
          (option_map user_pk (authed_user user)) ;;
  let '(presence, created) := pc in
  if created : bool then
    async_to_sync (group_add (room_channel_name self) channel_name) ;;
    Room_broadcast_changed self (Some (loaded presence)) None false
  else ret tt.

(** [Room.add_presence_async] *)
Definition Room_add_presence_async (self : Room) (channel_name : string)
           (user : option User) : M unit :=
  pc <- Presence_objects_aget_or_create (room_pk self) channel_name
          (option_map user_pk (authed_user user)) ;;
  let '(presence, cr) := pc in
  if cr : bool then
    group_add (room_channel_name self) channel_name ;;
    Room_broadcast_changed self (Some (loaded presence)) None false
  else ret tt.

(** The lookup [get(room=self, channel_name=channel_name)]; with
    [channel_name=None] no row matches, the column is not nullable. *)
Definition by_room_member (self : Room) (channel_name : option string)
           (p : Presence) : bool :=
  match channel_name with
  | Some m => same_room_member (room_pk self) m p
  | None => false
  end.

(** [Room.remove_presence]: [None] stands for the early [return].
    [except ObjectDoesNotExist] catches [DoesNotExist] and lets
    [MultipleObjectsReturned] through.  The discard comes before the
    delete, and the instance handed to the signal as [removed] is the one
    [delete()] was called on. *)
Definition Room_remove_presence (self : Room) (channel_name : option string)
           (presence : option Presence) : M unit :=
  found <- match presence with
           | Some p => ret (Some p)
           | None =>
               try_except
                 (p <- Presence_objects_get (by_room_member self channel_name) ;;
                  ret (Some p))
                 is_DoesNotExist (ret None)
           end ;;
  match found with
  | None => ret tt
  | Some presence =>
      async_to_sync (group_discard (room_channel_name self)
                                   (presence_channel_name presence)) ;;
      instance <- Presence_delete presence ;;
      Room_broadcast_changed self None (Some instance) false
  end.

(** [Room.remove_presence_async] *)
Definition Room_remove_presence_async (self : Room) (channel_name : option string)
           (presence : option Presence) : M unit :=
  found <- match presence with
           | Some p => ret (Some p)
           | None =>
               try_except
                 (p <- Presence_objects_aget (by_room_member self channel_name) ;;
                  ret (Some p))
                 is_DoesNotExist (ret None)
           end ;;
  match found with
  | None => ret tt
  | Some presence =>
      group_discard (room_channel_name self) (presence_channel_name presence) ;;
      instance <- Presence_adelete presence ;;
      Room_broadcast_changed self None (Some instance) false
  end.

(** [getattr(settings, "CHANNELS_PRESENCE_MAX_AGE", 60)] *)
Definition max_age_setting : M Z :=
  gets (fun s => match CHANNELS_PRESENCE_MAX_AGE s with
                 | Some a => a
                 | None => 60%Z
                 end).

(** The filter [room=self, last_seen__lt=cutoff]. *)
Definition stale_in (self : Room) (cutoff : Z) (p : Presence) : bool :=
  Nat.eqb (presence_room p) (room_pk self) && Z.ltb (presence_last_seen p) cutoff.

(** [Room.prune_presences]; the cutoff is computed while the filter is
    built, before the query. *)
Definition Room_prune_presences (self : Room) (age_in_seconds : option Z) : M unit :=
  age <- match age_in_seconds with
         | None => max_age_setting
         | Some a => ret a
         end ;;
  t <- now ;;
  d <- timedelta age ;;
  cutoff <- datetime_sub t d ;;
  num_deleted <- Presence_objects_delete (stale_in self cutoff) ;;
  if Nat.ltb 0 num_deleted
  then Room_broadcast_changed self None None true
  else ret tt.

(** [Room.prune_presences_async] *)
Definition Room_prune_presences_async (self : Room) (age_in_seconds : option Z)
  : M unit :=
  age <- match age_in_seconds with
         | None => max_age_setting
         | Some a => ret a
         end ;;
  t <- now ;;
  d <- timedelta age ;;
  cutoff <- datetime_sub t d ;;
  num_deleted <- Presence_objects_adelete (stale_in self cutoff) ;;
  if Nat.ltb 0 num_deleted
  then Room_broadcast_changed self None None true
  else ret tt.

(** [Room.get_users]: [User.objects.filter(presence__room=self).distinct()],
    evaluated; the users are given by primary key. *)
Definition Room_get_users (self : Room) : M (list nat) :=
  async_unsafe ;;
  gets (fun s =>
          filter (fun u =>
                    existsb (fun p => Nat.eqb (presence_room p) (room_pk self)
                                      && option_nat_eqb (presence_user p) (Some u))
                            (presences s))
                 (auth_users s)).

Definition anonymous_in (self : Room) (p : Presence) : bool :=
  Nat.eqb (presence_room p) (room_pk self) && option_nat_eqb (presence_user p) None.

(** [Room.get_anonymous_count] *)
Definition Room_get_anonymous_count (self : Room) : M nat :=
  Presence_objects_count (anonymous_in self).

(** [Room.get_anonymous_count_async]: the body is the synchronous one,
    [.count()] is neither awaited nor replaced by [acount()]. *)
Definition Room_get_anonymous_count_async (self : Room) : M nat :=
  Presence_objects_count (anonymous_in self).

(** [PresenceManager.touch] *)
Definition PresenceManager_touch (channel_name : string) : M unit :=
  t <- now ;;
  Presence_objects_update (by_channel_name channel_name) t ;;
  ret tt.

(** [PresenceManager.touch_async] *)
Definition PresenceManager_touch_async (channel_name : string) : M unit :=
  t <- now ;;
  Presence_objects_aupdate (by_channel_name channel_name) t ;;
  ret tt.

(** [PresenceManager.leave_all] *)
Definition PresenceManager_leave_all (channel_name : string) : M unit :=
  rows <- Presence_objects_select_related (by_channel_name channel_name) ;;
  for_each rows (fun pr =>
    let '(presence, room) := pr in
    Room_remove_presence room None (Some presence)).

(** [PresenceManager.leave_all_async] *)
Definition PresenceManager_leave_all_async (channel_name : string) : M unit :=
  rows <- Presence_objects_select_related_aiter (by_channel_name channel_name) ;;
  for_each rows (fun pr =>
    let '(presence, room) := pr in
    Room_remove_presence_async room None (Some presence)).

(** [RoomManager.add] *)
Definition RoomManager_add (room_channel_name user_channel_name : string)
           (user : option User) : M Room :=
  rc <- Room_objects_get_or_create room_channel_name ;;
  let '(room, created) := rc in
  Room_add_presence room user_channel_name user ;;
  ret room.

(** [RoomManager.add_async] *)
Definition RoomManager_add_async (room_channel_name user_channel_name : string)
           (user : option User) : M Room :=
  rc <- Room_objects_aget_or_create room_channel_name ;;
  let '(room, created) := rc in
  Room_add_presence_async room user_channel_name user ;;
  ret room.

(** [RoomManager.remove] *)
Definition RoomManager_remove (room_channel_name user_channel_name : string)
  : M unit :=
  found <- try_except
             (r <- Room_objects_get (by_room_channel_name room_channel_name) ;;
              ret (Some r))
             is_DoesNotExist (ret None) ;;
  match found with
  | None => ret tt
  | Some room => Room_remove_presence room (Some user_channel_name) None
  end.

(** [RoomManager.remove_async] *)
Definition RoomManager_remove_async (room_channel_name user_channel_name : string)
  : M unit :=
  found <- try_except
             (r <- Room_objects_aget (by_room_channel_name room_channel_name) ;;
              ret (Some r))
             is_DoesNotExist (ret None) ;;
  match found with
  | None => ret tt
  | Some room => Room_remove_presence_async room (Some user_channel_name) None
  end.

(** [RoomManager.prune_presences]; its [channel_layer] parameter is not
    used by the body and is left out. *)
Definition RoomManager_prune_presences (age : option Z) : M unit :=
  all <- Room_objects_all ;;
  for_each all (fun room => Room_prune_presences room age).

(** [RoomManager.prune_presences_async] *)
Definition RoomManager_prune_presences_async (age : option Z) : M unit :=
  all <- Room_objects_aiter (fun _ => true) ;;
  for_each all (fun room => Room_prune_presences_async room age).

(** The filter [presence__isnull=True]: rooms no presence points to. *)
Definition presence_isnull (s : Store) (r : Room) : bool :=
  negb (has_presence (presences s) r).

(** [RoomManager.prune_rooms] *)
Definition RoomManager_prune_rooms : M unit :=
  Room_objects_delete presence_isnull ;; ret tt.

(** [RoomManager.prune_rooms_async] *)
Definition RoomManager_prune_rooms_async : M unit :=
  Room_objects_adelete presence_isnull ;; ret tt.

(** ** decorators.py *)

Record Consumer := mkConsumer { consumer_channel_name : string }.

(** [touch_presence] *)
Definition touch_presence {A} (func : Consumer -> M A) : Consumer -> M A :=
  fun consumer =>
    PresenceManager_touch (consumer_channel_name consumer) ;;
    func consumer.

(** [touch_presence_async] *)
Definition touch_presence_async {A} (func : Consumer -> M A) : Consumer -> M A :=
  fun consumer =>
    PresenceManager_touch_async (consumer_channel_name consumer) ;;
    func consumer.

(** [remove_presence] *)
Definition remove_presence {A} (func : Consumer -> M A) : Consumer -> M A :=
  fun consumer =>
    PresenceManager_leave_all (consumer_channel_name consumer) ;;
    func consumer.

(** [remove_presence_async] *)
Definition remove_presence_async {A} (func : Consumer -> M A) : Consumer -> M A :=
  fun consumer =>
    PresenceManager_leave_all_async (consumer_channel_name consumer) ;;
    func consumer.

(** ** The public operations as calls *)

Inductive Call :=
| Join (room_name member : string) (identity : option User)
| Touch (member : string)
| Leave (room_name member : string)
| LeaveAll (member : string)
| PruneStale (room : Room) (max_age : option Z)
| PruneEmptyRooms.

Definition call_sync (c : Call) : M unit :=
  match c with
  | Join rn m u => RoomManager_add rn m u ;; ret tt
  | Touch m => PresenceManager_touch m
  | Leave rn m => RoomManager_remove rn m
  | LeaveAll m => PresenceManager_leave_all m
  | PruneStale r age => Room_prune_presences r age
  | PruneEmptyRooms => RoomManager_prune_rooms
  end.

Definition call_async (c : Call) : M unit :=
  match c with
  | Join rn m u => RoomManager_add_async rn m u ;; ret tt
  | Touch m => PresenceManager_touch_async m
  | Leave rn m => RoomManager_remove_async rn m
  | LeaveAll m => PresenceManager_leave_all_async m
  | PruneStale r age => Room_prune_presences_async r age
  | PruneEmptyRooms => RoomManager_prune_rooms_async
  end.

(** ** Invariants of the store *)

Definition room_member (p : Presence) : nat * string :=
  (presence_room p, presence_channel_name p).

(** [unique_together = [("room", "channel_name")]] *)
Definition unique_together (s : Store) : Prop :=
  NoDup (map room_member (presences s)).

Record wf (s : Store) : Prop := mkWf {
  wf_room_pk : NoDup (map room_pk (rooms s));
  wf_room_name : NoDup (map room_channel_name (rooms s));
  wf_room_next : forall r, In r (rooms s) -> room_pk r < next_room_pk s;
  wf_presence_pk : NoDup (map presence_pk (presences s));
  wf_presence_next : forall p, In p (presences s) -> presence_pk p < next_presence_pk s;
  wf_unique_together : unique_together s;
  wf_fk_room : forall p, In p (presences s) -> In (presence_room p) (map room_pk (rooms s));
  wf_fk_user : forall p u, In p (presences s) -> presence_user p = Some u ->
                           In u (auth_users s);
  wf_users : NoDup (auth_users s)
}.

(** The stores the operations can produce from an empty database; time
    passes between calls. *)
Inductive reachable : Store -> Prop :=
| reach_empty users t age rs layer :
    NoDup users -> reachable (empty_store users t age rs layer)
| reach_sync c s :
    reachable s -> reachable (snd (run_sync (call_sync c) s))
| reach_async c s :
    reachable s -> reachable (snd (run_async (call_async c) s))
| reach_tick t s :
    reachable s -> (clock s <= t)%Z -> reachable (set_clock t s).

(** Whether the database accepts a new presence row. *)
Definition insertable (room : nat) (member : string) (user : option nat)
           (s : Store) : bool :=
  negb (existsb (same_room_member room member) (presences s))
  && existsb (fun r => Nat.eqb (room_pk r) room) (rooms s)
  && match user with
     | Some u => existsb (Nat.eqb u) (auth_users s)
     | None => true
     end.

(** ** How the store evolves

    Every change the code makes to the store is one of a few elementary
    steps; the invariants are checked once, on the steps. *)

Inductive step : Store -> Store -> Prop :=
| step_log e s : step s (log e s)
| step_tick t s : step s (set_clock t s)
| step_insert_room name s :
    existsb (fun r => String.eqb (room_channel_name r) name) (rooms s) = false ->
    step s (insert_room (mkRoom (next_room_pk s) name) s)
| step_insert_presence room member user s :
    insertable room member user s = true ->
    step s (insert_presence
              (mkPresence (next_presence_pk s) room member user (clock s)) s)
| step_delete_presences q s : step s (set_presences (filter q) s)
| step_touch q t s : step s (set_presences (map (touch_row q t)) s)
| step_delete_rooms q s :
    (forall r p, In r (rooms s) -> q r = false -> In p (presences s) ->
                 presence_room p <> room_pk r) ->
    step s (set_rooms (filter q) s).

Inductive steps : Store -> Store -> Prop :=
| steps_refl s : steps s s
| steps_more s1 s2 s3 : steps s1 s2 -> step s2 s3 -> steps s1 s3.

(** A computation evolves the store when, in any context and whether it
    returns or raises, it gets from the store before to the store after by
    such steps. *)
Definition evolves {A} (m : M A) : Prop :=
  forall c s, steps s (snd (m c s)).


(** ** Example stores *)

Definition alice : User := mkUser 7 true.
Definition bob : User := mkUser 8 true.
Definition anonymous_user : User := mkUser 0 false.

(** 2026-11-03 12:00:00, in microseconds since 0001-01-01 00:00:00. *)
Definition noon : Z := 63929304000000000.

(** A layer that refuses the empty group name and the empty channel name,
    as the channel layers do, with [TypeError]. *)
Definition strict_layer : ChannelLayer :=
  fun group member =>
    if String.eqb group "" || String.eqb member "" then Some TypeError else None.

Definition fresh_store : Store := empty_store [7; 8] noon None [] strict_layer.

Definition lobby : Room := mkRoom 1 "lobby".

Definition lobby_alice : Presence := mkPresence 1 1 "c1" (Some 7) noon.

(** After [Room.objects.add("lobby", "c1", alice)]. *)
Definition lobby_store : Store :=
  snd (run_sync (RoomManager_add "lobby" "c1" (Some alice)) fresh_store).

(** What Touch may do to one row: [last_seen] becomes [t] when the row is
    the member's, and the row is otherwise the same. *)
Definition touched (member : string) (t : Z) (p p' : Presence) : Prop :=
  presence_pk p' = presence_pk p
  /\ presence_room p' = presence_room p
  /\ presence_channel_name p' = presence_channel_name p
  /\ presence_user p' = presence_user p
  /\ presence_last_seen p' =
     if String.eqb (presence_channel_name p) member then t
     else presence_last_seen p.

(** The age [Room.prune_presences] works with: the argument, else the
    setting, else 60 seconds. *)
Definition effective_max_age (s : Store) (age_in_seconds : option Z) : Z :=
  match age_in_seconds with
  | Some a => a
  | None =>
      match CHANNELS_PRESENCE_MAX_AGE s with
      | Some a => a
      | None => 60%Z
      end
  end.

(** A presence of room [r] last seen before [cutoff]. *)
Definition stale (r : Room) (cutoff : Z) (p : Presence) : Prop :=
  presence_room p = room_pk r /\ (presence_last_seen p < cutoff)%Z.

(** [now - age] can be computed: the age, in seconds, is a timedelta (at
    most 999999999 days either way) and the cutoff, [age] seconds before
    [now], is a datetime (between the years 1 and 9999). *)
Definition cutoff_in_range (now age : Z) : Prop :=
  (- 999999999 * 86400 <= age < 1000000000 * 86400)%Z
  /\ (0 <= now - 1000000 * age <= 315537897599999999)%Z.

(** One room, two anonymous presences seen 61 and 59 seconds ago. *)
Definition seen_61s_ago : Presence := mkPresence 1 1 "c1" None (noon - 61000000).
Definition seen_59s_ago : Presence := mkPresence 2 1 "c2" None (noon - 59000000).

Definition aged_store : Store :=
  mkStore [lobby] [seen_61s_ago; seen_59s_ago] [7; 8] 2 3 noon None []
          strict_layer [].

(** The invariant in the words of the data model: no pair (room, member)
    has more than one presence row. *)
Definition at_most_one_row (s : Store) : Prop :=
  forall room member,
    List.length (filter (same_room_member room member) (presences s)) <= 1.

(** ** Blocking and non-blocking variants *)

(** [agree m m']: the blocking method [m], called from a thread, and the
    coroutine [m'], awaited in an event loop, give the same outcome and the
    same store (trace included) from every store. *)
Definition agree {A} (m m' : M A) : Prop :=
  forall s, run_sync m s = run_async m' s.

(** ** The transport *)

(** The layer accepts the call for this group and this channel. *)
Definition accepts (s : Store) (group member : string) : Prop :=
  channel_layer s group member = None.

(** The layer accepts the calls for [member] on the group of every room
    of the store. *)
Definition accepts_member (s : Store) (member : string) : Prop :=
  forall r, In r (rooms s) -> channel_layer s (room_channel_name r) member = None.

(** The identity a Join stores: the user's primary key when there is a
    user and it is authenticated, null otherwise. *)
Definition identity_or_null (u : option User) : option nat :=
  match u with
  | Some user => if is_authenticated user then Some (user_pk user) else None
  | None => None
  end.

(** The empty room name, which the layer refuses. *)
Definition nameless_store : Store :=
  snd (run_sync (RoomManager_add "" "c1" None) fresh_store).

(** ** Receivers that raise *)





Definition failing_receiver : Receiver :=
  fun _ => Some (ReceiverError "boom").





(** One member in two rooms, and a receiver that raises. *)
Definition attic : Room := mkRoom 2 "attic".
Definition c1_in_lobby : Presence := mkPresence 1 1 "c1" None noon.
Definition c1_in_attic : Presence := mkPresence 2 2 "c1" None noon.

Definition two_rooms_store : Store :=
  mkStore [lobby; attic] [c1_in_lobby; c1_in_attic] [7; 8] 3 3 noon None
          [failing_receiver] strict_layer [].

(** ** Members of a room *)

(** Member [m] has no presence in a room called [rn]. *)
Definition not_in_room (s : Store) (rn m : string) : Prop :=
  forall r p,
    In r (rooms s) -> room_channel_name r = rn ->
    In p (presences s) -> presence_room p = room_pk r ->
    presence_channel_name p <> m.

(** The identity is one the user table knows, or none. *)
Definition known_identity (s : Store) (u : option User) : Prop :=
  forall uid, option_map user_pk (authed_user u) = Some uid -> In uid (auth_users s).

(** No presence points to a room called [rn]: the room is new or empty. *)
Definition room_is_empty (s : Store) (rn : string) : Prop :=
  forall r p,
    In r (rooms s) -> room_channel_name r = rn ->
    In p (presences s) -> presence_room p <> room_pk r.

(** ** Further properties: vocabulary *)

(** No receiver connected to the signal raises, whatever the event. *)
Definition quiet (s : Store) : Prop :=
  forall ev, call_receivers (receivers s) ev = None.

(** What one removal adds to the trace: the discard, then the event, whose
    [removed] is the instance after its [delete()]. *)
Definition removal_effects (pr : Presence * Room) : list Effect :=
  [GroupDiscard (room_channel_name (snd pr)) (presence_channel_name (fst pr));
   Signal (mkEvent (snd pr) None (Some (deleted (fst pr))) false)].

(** The rows [leave_all] iterates over are the member's presences, in
    table order, each with the room it points to. *)
Definition rows_of_member (s : Store) (m : string)
           (rows : list (Presence * Room)) : Prop :=
  map fst rows
  = filter (fun p => String.eqb (presence_channel_name p) m) (presences s)
  /\ Forall (fun pr => In (snd pr) (rooms s)
                       /\ room_pk (snd pr) = presence_room (fst pr)) rows.

(** The anonymous member "c1" in the lobby and in the attic, nobody
    listening. *)
Definition c1_everywhere_store : Store :=
  snd (run_sync (RoomManager_add "attic" "c1" None)
                (snd (run_sync (RoomManager_add "lobby" "c1" None) fresh_store))).

(** The event a sweep sends for a room. *)
Definition bulk_event (r : Room) : Effect := Signal (mkEvent r None None true).

(** Every room has at least one presence. *)
Definition no_empty_room (s : Store) : Prop :=
  forall r, In r (rooms s) -> has_presence (presences s) r = true.

(** ** The shape of the trace *)

(** What the operations write to the trace, block by block: an accepted
    add with the event of the new row, an accepted discard with the event
    of the removed row, the event of a sweep alone, or a transport call the
    layer refused, alone.  The transport call of an event is on the name of
    the event's room and the address of the event's row, and the row points
    to the event's room. *)
Inductive effect_blocks (layer : ChannelLayer) : list Effect -> Prop :=
| blocks_nil : effect_blocks layer []
| blocks_added r p l :
    layer (room_channel_name r) (presence_channel_name p) = None ->
    presence_room p = room_pk r -> effect_blocks layer l ->
    effect_blocks layer
      (GroupAdd (room_channel_name r) (presence_channel_name p)
       :: Signal (mkEvent r (Some (loaded p)) None false) :: l)
| blocks_add_refused g m e l :
    layer g m = Some e -> effect_blocks layer l ->
    effect_blocks layer (GroupAdd g m :: l)
| blocks_removed r p l :
    layer (room_channel_name r) (presence_channel_name p) = None ->
    presence_room p = room_pk r -> effect_blocks layer l ->
    effect_blocks layer
      (GroupDiscard (room_channel_name r) (presence_channel_name p)
       :: Signal (mkEvent r None (Some (deleted p)) false) :: l)
| blocks_discard_refused g m e l :
    layer g m = Some e -> effect_blocks layer l ->
    effect_blocks layer (GroupDiscard g m :: l)
| blocks_bulk r l :
    effect_blocks layer l ->
    effect_blocks layer (Signal (mkEvent r None None true) :: l).

(** The trace of [s'] is the trace of [s] followed by whole blocks. *)
Definition appends_blocks (s s' : Store) : Prop :=
  exists l, trace s' = trace s ++ l /\ effect_blocks (channel_layer s) l.

(** ** Statements the code does not meet *)

(** For a Join that creates a row: one [group_add] and then one event. *)
Definition join_created_as_stated : Prop :=
  forall s rn m u out s',
    wf s ->
    run_sync (RoomManager_add rn m u) s = (out, s') ->
    presences s' <> presences s ->
    exists r p,
      In r (rooms s') /\ room_channel_name r = rn
      /\ presences s' = presences s ++ [p]
      /\ trace s' = trace s ++ [GroupAdd rn m;
                                Signal (mkEvent r (Some (loaded p)) None false)].

(** A second Leave, right after a first, is a no-op that returns. *)
Definition leave_twice_as_stated : Prop :=
  forall s rn m out s1,
    wf s ->
    run_sync (RoomManager_remove rn m) s = (out, s1) ->
    run_sync (RoomManager_remove rn m) s1 = (Ok tt, s1).

(** * Proofs *)

(** ** Lists *)

Section ListFacts.
Variables (A K : Type) (key : A -> K).

Lemma filter_none (q : A -> bool) (l : list A) :
  filter q l = [] <-> (forall x, In x l -> q x = false).
Proof.
  induction l as [|a l IH]; simpl.
  - split; [intros _ x []|reflexivity].
  - destruct (q a) eqn:E.
    + split; [discriminate|]. intros H. rewrite (H a) in E by auto. discriminate.
    + rewrite IH. split.
      * intros H x [<-|Hx]; auto.
      * intros H x Hx. apply H. auto.
Qed.

Lemma filter_all (q : A -> bool) (l : list A) :
  (forall x, In x l -> q x = true) -> filter q l = l.
Proof.
  induction l as [|a l IH]; simpl; intros H; [reflexivity|].
  rewrite (H a) by auto. f_equal. apply IH. intros x Hx. apply H. auto.
Qed.

Lemma filter_ext_in' (q q' : A -> bool) (l : list A) :
  (forall x, In x l -> q x = q' x) -> filter q l = filter q' l.
Proof.
  induction l as [|a l IH]; simpl; intros H; [reflexivity|].
  rewrite (H a) by auto. rewrite IH; [reflexivity|]. intros x Hx. apply H. auto.
Qed.

Lemma existsb_false (q : A -> bool) (l : list A) :
  existsb q l = false <-> (forall x, In x l -> q x = false).
Proof.
  induction l as [|a l IH]; simpl.
  - split; [intros _ x []|reflexivity].
  - rewrite orb_false_iff, IH. split.
    + intros [Ha H] x [<-|Hx]; auto.
    + intros H. split; [|intros x Hx]; apply H; auto.
Qed.

Lemma existsb_filter_nil (q : A -> bool) (l : list A) :
  existsb q l = false <-> filter q l = [].
Proof. rewrite existsb_false, filter_none. reflexivity. Qed.

(** A lookup by a unique key returns at most the row itself. *)
Lemma filter_unique (q : A -> bool) (l : list A) (x : A) :
  NoDup (map key l) -> In x l -> q x = true ->
  (forall y, In y l -> q y = true -> key y = key x) ->
  filter q l = [x].
Proof.
  induction l as [|a l IH]; simpl; intros ND Hin Hq Hk; [contradiction|].
  inversion ND as [|? ? Hnot ND']; subst.
  destruct Hin as [->|Hin].
  - rewrite Hq. f_equal. apply filter_none. intros y Hy.
    destruct (q y) eqn:E; [|reflexivity].
    exfalso. apply Hnot. rewrite <- (Hk y); auto. apply in_map. exact Hy.
  - destruct (q a) eqn:E.
    + exfalso. apply Hnot. rewrite (Hk a); auto. apply in_map. exact Hin.
    + apply IH; auto.
Qed.

Lemma NoDup_map_filter (q : A -> bool) (l : list A) :
  NoDup (map key l) -> NoDup (map key (filter q l)).
Proof.
  induction l as [|a l IH]; simpl; intros ND; [constructor|].
  inversion ND as [|? ? Hnot ND']; subst.
  destruct (q a); simpl; auto.
  constructor; auto. intros Hin. apply Hnot.
  apply in_map_iff in Hin. destruct Hin as [y [Hy Hin]].
  apply filter_In in Hin. rewrite <- Hy. apply in_map. tauto.
Qed.

Lemma NoDup_map_snoc (l : list A) (x : A) :
  NoDup (map key l) -> ~ In (key x) (map key l) -> NoDup (map key (l ++ [x])).
Proof.
  induction l as [|a l IH]; simpl; intros ND Hnot.
  - constructor; [intros []|constructor].
  - inversion ND as [|? ? Ha ND']; subst. constructor.
    + rewrite map_app, in_app_iff. simpl. intros [H|[H|[]]]; [auto|].
      apply Hnot. left. congruence.
    + apply IH; auto.
Qed.
End ListFacts.

Unset Implicit Arguments.

(** ** The queries, step by step *)

Ltac unfold_monad :=
  unfold run_sync, run_async, sync_to_async, async_to_sync, try_except, bind,
    ret, raise, gets, modify, async_unsafe, now in *.

Lemma Room_objects_get_or_create_found name s r :
  filter (by_room_channel_name name) (rooms s) = [r] ->
  Room_objects_get_or_create name Blocking s = (Ok (r, false), s).
Proof.
  intros H. unfold Room_objects_get_or_create, Room_objects_get, Room_objects_filter.
  unfold_monad. unfold by_room_channel_name in H. rewrite H. reflexivity.
Qed.

Lemma Room_objects_get_or_create_fresh name s :
  filter (by_room_channel_name name) (rooms s) = [] ->
  Room_objects_get_or_create name Blocking s =
  (Ok (mkRoom (next_room_pk s) name, true),
   insert_room (mkRoom (next_room_pk s) name) s).
Proof.
  intros H. pose proof (proj2 (existsb_filter_nil _ _) H) as E.
  unfold Room_objects_get_or_create, Room_objects_get, Room_objects_create,
    Room_objects_filter.
  unfold_monad. unfold by_room_channel_name in *. rewrite H. simpl.
  rewrite E. reflexivity.
Qed.

Lemma Room_objects_get_or_create_many name s r1 r2 l :
  filter (by_room_channel_name name) (rooms s) = r1 :: r2 :: l ->
  Room_objects_get_or_create name Blocking s = (Raise MultipleObjectsReturned, s).
Proof.
  intros H. unfold Room_objects_get_or_create, Room_objects_get, Room_objects_filter.
  unfold_monad. unfold by_room_channel_name in H. rewrite H. reflexivity.
Qed.

Lemma Presence_objects_get_or_create_found room member user s p :
  filter (same_key room member user) (presences s) = [p] ->
  Presence_objects_get_or_create room member user Blocking s = (Ok (p, false), s).
Proof.
  intros H.
  unfold Presence_objects_get_or_create, Presence_objects_get, Presence_objects_filter.
  unfold_monad. rewrite H. reflexivity.
Qed.

Lemma Presence_objects_get_or_create_many room member user s p1 p2 l :
  filter (same_key room member user) (presences s) = p1 :: p2 :: l ->
  Presence_objects_get_or_create room member user Blocking s =
  (Raise MultipleObjectsReturned, s).
Proof.
  intros H.
  unfold Presence_objects_get_or_create, Presence_objects_get, Presence_objects_filter.
  unfold_monad. rewrite H. reflexivity.
Qed.

Lemma Presence_objects_get_or_create_new room member user s :
  filter (same_key room member user) (presences s) = [] ->
  insertable room member user s = true ->
  let p := mkPresence (next_presence_pk s) room member user (clock s) in
  Presence_objects_get_or_create room member user Blocking s =
  (Ok (p, true), insert_presence p s).
Proof.
  intros H I. unfold insertable in I.
  apply andb_true_iff in I. destruct I as [I Iu].
  apply andb_true_iff in I. destruct I as [It Ir].
  apply negb_true_iff in It.
  unfold Presence_objects_get_or_create, Presence_objects_get,
    Presence_objects_create, Presence_objects_filter.
  unfold_monad. rewrite H. simpl. rewrite It, Ir. simpl.
  destruct user; rewrite ?Iu; reflexivity.
Qed.

Lemma Presence_objects_get_or_create_refused room member user s :
  filter (same_key room member user) (presences s) = [] ->
  insertable room member user s = false ->
  Presence_objects_get_or_create room member user Blocking s =
  (Raise IntegrityError, s).
Proof.
  intros H I. unfold insertable in I.
  unfold Presence_objects_get_or_create, Presence_objects_get,
    Presence_objects_create, Presence_objects_filter.
  unfold_monad. rewrite H. simpl.
  destruct (existsb (same_room_member room member) (presences s)); simpl in *;
    [rewrite H; reflexivity|].
  destruct (existsb (fun r => room_pk r =? room) (rooms s)); simpl in *;
    [|rewrite H; reflexivity].
  destruct user; rewrite I; simpl; rewrite H; reflexivity.
Qed.

(** [Signal.send] logs the event and fails exactly when a receiver does. *)
Lemma presence_changed_send_run ev c s :
  presence_changed_send ev c s =
  (match call_receivers (receivers s) ev with
   | Some e => Raise e
   | None => Ok tt
   end, log (Signal ev) s).
Proof.
  unfold presence_changed_send. unfold_monad. simpl.
  destruct (call_receivers (receivers s) ev); reflexivity.
Qed.

(** [Room.add_presence] in the three cases of its [get_or_create]. *)
(** A call on the layer is logged, and fails exactly when the layer
    refuses it. *)
Lemma layer_call_run call group member c s :
  layer_call call group member c s =
  (match channel_layer s group member with
   | Some e => Raise e
   | None => Ok tt
   end, log call s).
Proof.
  unfold layer_call. unfold_monad. simpl.
  destruct (channel_layer s group member); reflexivity.
Qed.

(** [Room.add_presence] in the three cases of its [get_or_create]. *)
Lemma Room_add_presence_existing self member user s p :
  filter (same_key (room_pk self) member (option_map user_pk (authed_user user)))
         (presences s) = [p] ->
  Room_add_presence self member user Blocking s = (Ok tt, s).
Proof.
  intros H. unfold Room_add_presence, bind.
  rewrite (Presence_objects_get_or_create_found _ _ _ _ _ H). reflexivity.
Qed.

Lemma Room_add_presence_refused self member user s :
  filter (same_key (room_pk self) member (option_map user_pk (authed_user user)))
         (presences s) = [] ->
  insertable (room_pk self) member (option_map user_pk (authed_user user)) s = false ->
  Room_add_presence self member user Blocking s = (Raise IntegrityError, s).
Proof.
  intros H I. unfold Room_add_presence, bind.
  rewrite (Presence_objects_get_or_create_refused _ _ _ _ H I). reflexivity.
Qed.

Lemma Room_add_presence_created self member user s :
  let uid := option_map user_pk (authed_user user) in
  filter (same_key (room_pk self) member uid) (presences s) = [] ->
  insertable (room_pk self) member uid s = true ->
  let p := mkPresence (next_presence_pk s) (room_pk self) member uid (clock s) in
  let ev := mkEvent self (Some (loaded p)) None false in
  let called := log (GroupAdd (room_channel_name self) member)
                    (insert_presence p s) in
  Room_add_presence self member user Blocking s =
  match channel_layer s (room_channel_name self) member with
  | Some e => (Raise e, called)
  | None =>
      (match call_receivers (receivers s) ev with
       | Some e => Raise e
       | None => Ok tt
       end, log (Signal ev) called)
  end.
Proof.
  intros uid H I p ev called. subst uid p ev called.
  unfold Room_add_presence, bind.
  rewrite (Presence_objects_get_or_create_new _ _ _ _ H I).
  unfold async_to_sync, group_add, Room_broadcast_changed.
  rewrite layer_call_run. cbn [channel_layer insert_presence].
  destruct (channel_layer s (room_channel_name self) member); [reflexivity|].
  rewrite presence_changed_send_run. reflexivity.
Qed.
(** ** The lookups *)

Lemma option_nat_eqb_eq a b : option_nat_eqb a b = true <-> a = b.
Proof.
  destruct a, b; simpl; try (split; congruence).
  rewrite Nat.eqb_eq. split; congruence.
Qed.

Lemma same_room_member_true room member p :
  same_room_member room member p = true <->
  presence_room p = room /\ presence_channel_name p = member.
Proof.
  unfold same_room_member. rewrite andb_true_iff, Nat.eqb_eq, String.eqb_eq.
  reflexivity.
Qed.

Lemma same_key_true room member user p :
  same_key room member user p = true <->
  presence_room p = room /\ presence_channel_name p = member /\ presence_user p = user.
Proof.
  unfold same_key. rewrite andb_true_iff, same_room_member_true, option_nat_eqb_eq.
  tauto.
Qed.

Lemma by_room_channel_name_true name r :
  by_room_channel_name name r = true <-> room_channel_name r = name.
Proof. unfold by_room_channel_name. apply String.eqb_eq. Qed.

Lemma room_lookup s r :
  NoDup (map room_channel_name (rooms s)) -> In r (rooms s) ->
  filter (by_room_channel_name (room_channel_name r)) (rooms s) = [r].
Proof.
  intros ND Hin. apply filter_unique with (key := room_channel_name); auto.
  - apply by_room_channel_name_true. reflexivity.
  - intros y _ Hy. apply by_room_channel_name_true in Hy. exact Hy.
Qed.

Lemma presence_lookup s p :
  unique_together s -> In p (presences s) ->
  filter (same_room_member (presence_room p) (presence_channel_name p)) (presences s)
  = [p].
Proof.
  intros ND Hin. apply filter_unique with (key := room_member); auto.
  - apply same_room_member_true. auto.
  - intros y _ Hy. apply same_room_member_true in Hy. destruct Hy as [H1 H2].
    unfold room_member. congruence.
Qed.

Lemma presence_lookup_key s p :
  unique_together s -> In p (presences s) ->
  filter (same_key (presence_room p) (presence_channel_name p) (presence_user p))
         (presences s) = [p].
Proof.
  intros ND Hin. apply filter_unique with (key := room_member); auto.
  - apply same_key_true. auto.
  - intros y _ Hy. apply same_key_true in Hy. destruct Hy as [H1 [H2 _]].
    unfold room_member. congruence.
Qed.

(** With another identity on the same [(room, member)] the keyed lookup
    finds nothing and the insert is refused. *)
Lemma presence_lookup_other_identity s p user :
  unique_together s -> In p (presences s) -> presence_user p <> user ->
  filter (same_key (presence_room p) (presence_channel_name p) user) (presences s) = []
  /\ insertable (presence_room p) (presence_channel_name p) user s = false.
Proof.
  intros ND Hin Hne. split.
  - apply filter_none. intros y Hy.
    destruct (same_key _ _ user y) eqn:E; [|reflexivity].
    apply same_key_true in E. destruct E as [H1 [H2 H3]].
    assert (In y (filter (same_room_member (presence_room p) (presence_channel_name p))
                         (presences s))) as Hf.
    { apply filter_In. split; [exact Hy|]. apply same_room_member_true. auto. }
    rewrite (presence_lookup _ _ ND Hin) in Hf. destruct Hf as [<-|[]].
    contradiction.
  - unfold insertable.
    assert (existsb (same_room_member (presence_room p) (presence_channel_name p))
                    (presences s) = true) as ->.
    { apply existsb_exists. exists p. split; [exact Hin|].
      apply same_room_member_true. auto. }
    reflexivity.
Qed.

(** [RoomManager.add], unfolded once. *)
Lemma RoomManager_add_run rn m u s :
  RoomManager_add rn m u Blocking s =
  match filter (by_room_channel_name rn) (rooms s) with
  | [] =>
      let r := mkRoom (next_room_pk s) rn in
      match Room_add_presence r m u Blocking (insert_room r s) with
      | (Ok _, s') => (Ok r, s')
      | (Raise e, s') => (Raise e, s')
      end
  | [r] =>
      match Room_add_presence r m u Blocking s with
      | (Ok _, s') => (Ok r, s')
      | (Raise e, s') => (Raise e, s')
      end
  | _ => (Raise MultipleObjectsReturned, s)
  end.
Proof.
  unfold RoomManager_add, bind at 1.
  destruct (filter (by_room_channel_name rn) (rooms s)) as [|r [|r' l]] eqn:E.
  - rewrite (Room_objects_get_or_create_fresh _ _ E). unfold bind, ret.
    simpl. destruct (Room_add_presence _ m u Blocking _) as [[|] ?]; reflexivity.
  - rewrite (Room_objects_get_or_create_found _ _ _ E). unfold bind, ret.
    destruct (Room_add_presence r m u Blocking s) as [[|] ?]; reflexivity.
  - rewrite (Room_objects_get_or_create_many _ _ _ _ _ E). reflexivity.
Qed.

(** [Room.add_presence] either leaves the presences alone or appends the
    one row it reports. *)

(** [Room.add_presence], unfolded once. *)
Lemma Room_add_presence_run self m u s :
  let uid := option_map user_pk (authed_user u) in
  let p := mkPresence (next_presence_pk s) (room_pk self) m uid (clock s) in
  let ev := mkEvent self (Some (loaded p)) None false in
  let called := log (GroupAdd (room_channel_name self) m) (insert_presence p s) in
  Room_add_presence self m u Blocking s =
  match filter (same_key (room_pk self) m uid) (presences s) with
  | [] =>
      if insertable (room_pk self) m uid s
      then match channel_layer s (room_channel_name self) m with
           | Some e => (Raise e, called)
           | None =>
               (match call_receivers (receivers s) ev with
                | Some e => Raise e
                | None => Ok tt
                end, log (Signal ev) called)
           end
      else (Raise IntegrityError, s)
  | [_] => (Ok tt, s)
  | _ => (Raise MultipleObjectsReturned, s)
  end.
Proof.
  intros uid p ev called.
  destruct (filter (same_key (room_pk self) m uid) (presences s))
    as [|q [|q' l]] eqn:E.
  - destruct (insertable (room_pk self) m uid s) eqn:I.
    + apply Room_add_presence_created; assumption.
    + apply Room_add_presence_refused; assumption.
  - apply Room_add_presence_existing with (p := q). exact E.
  - unfold Room_add_presence, bind. fold uid.
    rewrite (Presence_objects_get_or_create_many _ _ _ _ _ _ _ E). reflexivity.
Qed.

(** ** How the store evolves *)

Lemma steps_trans s1 s2 s3 : steps s1 s2 -> steps s2 s3 -> steps s1 s3.
Proof.
  intros H12 H23. induction H23; [assumption|].
  eapply steps_more; [apply IHsteps; assumption|eassumption].
Qed.

Lemma steps_one s1 s2 : step s1 s2 -> steps s1 s2.
Proof. intros H. eapply steps_more; [apply steps_refl|exact H]. Qed.

Lemma evolves_ret {A} (a : A) : evolves (ret a).
Proof. intros c s. apply steps_refl. Qed.

Lemma evolves_raise {A} e : evolves (@raise A e).
Proof. intros c s. apply steps_refl. Qed.

Lemma evolves_gets {A} (f : Store -> A) : evolves (gets f).
Proof. intros c s. apply steps_refl. Qed.

Lemma evolves_async_unsafe : evolves async_unsafe.
Proof. intros [] s; apply steps_refl. Qed.

Lemma evolves_bind {A B} (m : M A) (k : A -> M B) :
  evolves m -> (forall a, evolves (k a)) -> evolves (bind m k).
Proof.
  intros Hm Hk c s. unfold bind. specialize (Hm c s).
  destruct (m c s) as [[a|e] s']; simpl in *; [|assumption].
  eapply steps_trans; [eassumption|apply Hk].
Qed.

Lemma evolves_try_except {A} (m h : M A) handles :
  evolves m -> evolves h -> evolves (try_except m handles h).
Proof.
  intros Hm Hh c s. unfold try_except. specialize (Hm c s).
  destruct (m c s) as [[a|e] s']; simpl in *; [assumption|].
  destruct (handles e); simpl; [|assumption].
  eapply steps_trans; [eassumption|apply Hh].
Qed.

Lemma evolves_sync_to_async {A} (m : M A) : evolves m -> evolves (sync_to_async m).
Proof. intros Hm c s. apply Hm. Qed.

Lemma evolves_async_to_sync {A} (m : M A) : evolves m -> evolves (async_to_sync m).
Proof. intros Hm [] s; simpl; [apply Hm|apply steps_refl]. Qed.

Lemma evolves_for_each {A} (xs : list A) (body : A -> M unit) :
  (forall x, evolves (body x)) -> evolves (for_each xs body).
Proof.
  intros Hb. induction xs as [|x xs IH]; simpl.
  - apply evolves_ret.
  - apply evolves_bind; [apply Hb|intros _; exact IH].
Qed.

Lemma evolves_log e : evolves (modify (log e)).
Proof. intros c s. apply steps_one, step_log. Qed.

Lemma evolves_layer_call call group member :
  evolves (layer_call call group member).
Proof.
  intros c s. rewrite layer_call_run. apply steps_one, step_log.
Qed.

Lemma evolves_timedelta seconds : evolves (timedelta seconds).
Proof.
  unfold timedelta. destruct (Z.leb _ _); [apply evolves_ret|apply evolves_raise].
Qed.

Lemma evolves_datetime_sub t d : evolves (datetime_sub t d).
Proof.
  unfold datetime_sub. cbv zeta.
  destruct (_ && _); [apply evolves_ret|apply evolves_raise].
Qed.

Lemma evolves_presence_changed_send ev : evolves (presence_changed_send ev).
Proof.
  intros c s. rewrite presence_changed_send_run. apply steps_one, step_log.
Qed.

Lemma evolves_Room_objects_filter q : evolves (Room_objects_filter q).
Proof.
  apply evolves_bind; [apply evolves_async_unsafe|intros _; apply evolves_gets].
Qed.

Lemma evolves_Room_objects_get q : evolves (Room_objects_get q).
Proof.
  apply evolves_bind; [apply evolves_Room_objects_filter|].
  intros [|r [|r' l]]; first [apply evolves_ret|apply evolves_raise].
Qed.

Lemma evolves_Room_objects_create name : evolves (Room_objects_create name).
Proof.
  intros [] s; unfold Room_objects_create; unfold_monad; simpl;
    [|apply steps_refl].
  destruct (existsb _ (rooms s)) eqn:E; simpl; [apply steps_refl|].
  apply steps_one, step_insert_room. exact E.
Qed.

Lemma evolves_Room_objects_get_or_create name :
  evolves (Room_objects_get_or_create name).
Proof.
  unfold Room_objects_get_or_create. cbv zeta.
  repeat first
    [ apply evolves_Room_objects_get
    | apply evolves_Room_objects_create
    | apply evolves_try_except
    | apply evolves_ret
    | apply evolves_raise
    | apply evolves_bind; [|intros ?] ].
Qed.

Lemma evolves_Room_objects_delete : evolves (Room_objects_delete presence_isnull).
Proof.
  intros [] s; unfold Room_objects_delete; unfold_monad; simpl; [|apply steps_refl].
  eapply steps_more; [apply steps_one, step_delete_presences|].
  apply step_delete_rooms. simpl. intros r p Hr Hq Hp Heq.
  apply filter_In in Hp. destruct Hp as [_ Hp].
  rewrite Heq in Hp. rewrite Hq in Hp. discriminate.
Qed.

Lemma evolves_Presence_objects_filter q : evolves (Presence_objects_filter q).
Proof.
  apply evolves_bind; [apply evolves_async_unsafe|intros _; apply evolves_gets].
Qed.

Lemma evolves_Presence_objects_get q : evolves (Presence_objects_get q).
Proof.
  apply evolves_bind; [apply evolves_Presence_objects_filter|].
  intros [|r [|r' l]]; first [apply evolves_ret|apply evolves_raise].
Qed.

Lemma evolves_Presence_objects_create room member user :
  evolves (Presence_objects_create room member user).
Proof.
  intros [] s; unfold Presence_objects_create; unfold_monad; simpl;
    [|apply steps_refl].
  destruct (_ || _ || _) eqn:E; simpl; [apply steps_refl|].
  apply steps_one, step_insert_presence. unfold insertable.
  apply orb_false_iff in E. destruct E as [E Eu].
  apply orb_false_iff in E. destruct E as [Et Er].
  apply negb_false_iff in Er, Eu. rewrite Et, Er. simpl. exact Eu.
Qed.

Lemma evolves_Presence_objects_get_or_create room member user :
  evolves (Presence_objects_get_or_create room member user).
Proof.
  unfold Presence_objects_get_or_create. cbv zeta.
  repeat first
    [ apply evolves_Presence_objects_get
    | apply evolves_Presence_objects_create
    | apply evolves_try_except
    | apply evolves_ret
    | apply evolves_raise
    | apply evolves_bind; [|intros ?] ].
Qed.

Lemma evolves_Presence_objects_update q t : evolves (Presence_objects_update q t).
Proof.
  intros [] s; unfold Presence_objects_update; unfold_monad; simpl;
    [|apply steps_refl].
  apply steps_one, step_touch.
Qed.

Lemma evolves_Presence_objects_delete q : evolves (Presence_objects_delete q).
Proof.
  intros [] s; unfold Presence_objects_delete; unfold_monad; simpl;
    [|apply steps_refl].
  apply steps_one, step_delete_presences.
Qed.

Lemma evolves_Presence_objects_select_related q :
  evolves (Presence_objects_select_related q).
Proof.
  apply evolves_bind; [apply evolves_async_unsafe|intros _; apply evolves_gets].
Qed.

Create HintDb evolves.
#[local] Hint Resolve evolves_ret evolves_raise evolves_gets evolves_async_unsafe
  evolves_log evolves_layer_call evolves_timedelta evolves_datetime_sub
  evolves_presence_changed_send
  evolves_Room_objects_filter evolves_Room_objects_get
  evolves_Room_objects_create evolves_Room_objects_get_or_create
  evolves_Room_objects_delete evolves_Presence_objects_filter
  evolves_Presence_objects_get evolves_Presence_objects_create
  evolves_Presence_objects_get_or_create evolves_Presence_objects_update
  evolves_Presence_objects_delete evolves_Presence_objects_select_related
  : evolves.

Ltac evolve :=
  repeat first
    [ solve [auto with evolves]
    | apply evolves_try_except
    | apply evolves_for_each; intros ?
    | apply evolves_sync_to_async
    | apply evolves_async_to_sync
    | match goal with
      | |- evolves (match ?x with _ => _ end) => destruct x
      end
    | apply evolves_bind; [|intros ?] ].

Lemma evolves_Room_broadcast_changed self added removed bulk :
  evolves (Room_broadcast_changed self added removed bulk).
Proof. unfold Room_broadcast_changed. evolve. Qed.
#[local] Hint Resolve evolves_Room_broadcast_changed : evolves.

Lemma evolves_Room_add_presence self m u : evolves (Room_add_presence self m u).
Proof. unfold Room_add_presence, group_add. evolve. Qed.

Lemma evolves_Room_add_presence_async self m u :
  evolves (Room_add_presence_async self m u).
Proof.
  unfold Room_add_presence_async, Presence_objects_aget_or_create, group_add.
  evolve.
Qed.

Lemma evolves_Presence_delete p : evolves (Presence_delete p).
Proof. unfold Presence_delete. evolve. Qed.
#[local] Hint Resolve evolves_Presence_delete : evolves.

Lemma evolves_Room_remove_presence self m p :
  evolves (Room_remove_presence self m p).
Proof. unfold Room_remove_presence, group_discard. evolve. Qed.

Lemma evolves_Room_remove_presence_async self m p :
  evolves (Room_remove_presence_async self m p).
Proof.
  unfold Room_remove_presence_async, Presence_objects_aget, Presence_adelete,
    group_discard.
  evolve.
Qed.

Lemma evolves_Room_prune_presences self age :
  evolves (Room_prune_presences self age).
Proof. unfold Room_prune_presences, max_age_setting, now. evolve. Qed.

Lemma evolves_Room_prune_presences_async self age :
  evolves (Room_prune_presences_async self age).
Proof.
  unfold Room_prune_presences_async, Presence_objects_adelete, max_age_setting, now.
  evolve.
Qed.

#[local] Hint Resolve evolves_Room_add_presence evolves_Room_add_presence_async
  evolves_Room_remove_presence evolves_Room_remove_presence_async
  evolves_Room_prune_presences evolves_Room_prune_presences_async : evolves.

Lemma evolves_call_sync c : evolves (call_sync c).
Proof.
  destruct c; simpl;
    unfold RoomManager_add, PresenceManager_touch, RoomManager_remove,
      PresenceManager_leave_all, RoomManager_prune_rooms, now;
    evolve.
Qed.

Lemma evolves_call_async c : evolves (call_async c).
Proof.
  destruct c; simpl;
    unfold RoomManager_add_async, PresenceManager_touch_async,
      RoomManager_remove_async, PresenceManager_leave_all_async,
      RoomManager_prune_rooms_async, Room_objects_aget_or_create,
      Room_objects_aget, Room_objects_adelete, Presence_objects_aupdate,
      Presence_objects_select_related_aiter, now;
    evolve.
Qed.

(** ** The invariants hold along every step *)

Lemma touch_row_fields q t p :
  presence_pk (touch_row q t p) = presence_pk p
  /\ presence_room (touch_row q t p) = presence_room p
  /\ presence_channel_name (touch_row q t p) = presence_channel_name p
  /\ presence_user (touch_row q t p) = presence_user p.
Proof. unfold touch_row. destruct (q p); simpl; auto. Qed.

Lemma map_touch_row {B} (f : Presence -> B) q t l :
  (forall p, f (touch_row q t p) = f p) ->
  map f (map (touch_row q t) l) = map f l.
Proof.
  intros H. rewrite map_map. apply map_ext. exact H.
Qed.

Lemma insertable_true room member user s :
  insertable room member user s = true ->
  ~ In (room, member) (map room_member (presences s))
  /\ In room (map room_pk (rooms s))
  /\ (forall u, user = Some u -> In u (auth_users s)).
Proof.
  unfold insertable. rewrite !andb_true_iff, negb_true_iff.
  intros [[Ht Hr] Hu]. split; [|split].
  - intros Hin. apply in_map_iff in Hin. destruct Hin as [p [Hk Hp]].
    rewrite existsb_false in Ht. specialize (Ht p Hp).
    unfold room_member in Hk. inversion Hk; subst.
    assert (same_room_member (presence_room p) (presence_channel_name p) p = true)
      by (apply same_room_member_true; auto).
    congruence.
  - apply existsb_exists in Hr. destruct Hr as [r [Hr E]].
    apply Nat.eqb_eq in E. subst room. apply in_map. exact Hr.
  - intros u ->. apply existsb_exists in Hu. destruct Hu as [u' [Hu' E]].
    apply Nat.eqb_eq in E. subst u'. exact Hu'.
Qed.

Lemma unique_together_step s s' : step s s' -> unique_together s -> unique_together s'.
Proof.
  unfold unique_together. intros H ND. destruct H; simpl; auto.
  - apply insertable_true in H. apply NoDup_map_snoc; tauto.
  - apply NoDup_map_filter. exact ND.
  - rewrite map_touch_row; [exact ND|].
    intros p. unfold room_member.
    destruct (touch_row_fields q t p) as [_ [-> [-> _]]]. reflexivity.
Qed.

Lemma unique_together_steps s s' :
  steps s s' -> unique_together s -> unique_together s'.
Proof.
  induction 1; intros; [assumption|].
  eapply unique_together_step; eauto.
Qed.

Lemma wf_step s s' : step s s' -> wf s -> wf s'.
Proof.
  intros H W. pose proof (unique_together_step _ _ H (wf_unique_together W)) as U.
  destruct W as [Wrp Wrn Wrx Wpp Wpx _ Wfr Wfu Wu].
  destruct H; constructor; simpl in *; auto.
  - (* a new room *)
    apply NoDup_map_snoc; [assumption|]. simpl. intros Hin.
    apply in_map_iff in Hin. destruct Hin as [r [E Hr]].
    apply Wrx in Hr. lia.
  - apply NoDup_map_snoc; [assumption|]. simpl. intros Hin.
    apply in_map_iff in Hin. destruct Hin as [r [E Hr]].
    rewrite existsb_false in H. specialize (H r Hr). simpl in H.
    rewrite E, String.eqb_refl in H. discriminate.
  - intros r Hr. apply in_app_iff in Hr. destruct Hr as [Hr|[<-|[]]]; simpl.
    + apply Wrx in Hr. lia.
    + lia.
  - intros p Hp. rewrite map_app, in_app_iff. left. auto.
  - (* a new presence *)
    apply NoDup_map_snoc; [assumption|]. simpl. intros Hin.
    apply in_map_iff in Hin. destruct Hin as [p [E Hp]].
    apply Wpx in Hp. lia.
  - intros p Hp. apply in_app_iff in Hp. destruct Hp as [Hp|[<-|[]]]; simpl.
    + apply Wpx in Hp. lia.
    + lia.
  - apply insertable_true in H. destruct H as [_ [Hr _]].
    intros p Hp. apply in_app_iff in Hp. destruct Hp as [Hp|[<-|[]]]; simpl; auto.
  - apply insertable_true in H. destruct H as [_ [_ Hu]].
    intros p u Hp Eu. apply in_app_iff in Hp.
    destruct Hp as [Hp|[<-|[]]]; simpl in *; eauto.
  - (* presences deleted *)
    apply NoDup_map_filter. assumption.
  - intros p Hp. apply filter_In in Hp. apply Wpx. tauto.
  - intros p Hp. apply filter_In in Hp. apply Wfr. tauto.
  - intros p u Hp. apply filter_In in Hp. apply Wfu. tauto.
  - (* presences touched *)
    rewrite map_touch_row; [assumption|]. intros p. apply touch_row_fields.
  - intros p Hp. apply in_map_iff in Hp. destruct Hp as [p0 [<- Hp]].
    destruct (touch_row_fields q t p0) as [-> _]. auto.
  - intros p Hp. apply in_map_iff in Hp. destruct Hp as [p0 [<- Hp]].
    destruct (touch_row_fields q t p0) as [_ [-> _]]. auto.
  - intros p u Hp. apply in_map_iff in Hp. destruct Hp as [p0 [<- Hp]].
    destruct (touch_row_fields q t p0) as [_ [_ [_ ->]]]. eauto.
  - (* rooms deleted *)
    apply NoDup_map_filter. assumption.
  - apply NoDup_map_filter. assumption.
  - intros r Hr. apply filter_In in Hr. apply Wrx. tauto.
  - intros p Hp. specialize (Wfr p Hp). apply in_map_iff in Wfr.
    destruct Wfr as [r [E Hr]]. apply in_map_iff. exists r. split; [exact E|].
    apply filter_In. split; [exact Hr|].
    destruct (q r) eqn:Q; [reflexivity|]. exfalso.
    apply (H r p Hr Q Hp). congruence.
Qed.

Lemma wf_steps s s' : steps s s' -> wf s -> wf s'.
Proof.
  induction 1; intros; [assumption|]. eapply wf_step; eauto.
Qed.

Lemma wf_empty_store users t age rs layer :
  NoDup users -> wf (empty_store users t age rs layer).
Proof.
  intros H. constructor; simpl; try constructor; try exact H; intros; contradiction.
Qed.

Lemma steps_call_sync c s : steps s (snd (run_sync (call_sync c) s)).
Proof. apply evolves_call_sync. Qed.

Lemma steps_call_async c s : steps s (snd (run_async (call_async c) s)).
Proof. apply evolves_call_async. Qed.

Lemma reachable_wf s : reachable s -> wf s.
Proof.
  induction 1.
  - apply wf_empty_store. assumption.
  - eapply wf_steps; [apply steps_call_sync|assumption].
  - eapply wf_steps; [apply steps_call_async|assumption].
  - eapply wf_step; [apply step_tick|assumption].
Qed.

(** [RoomManager.add] is the [Join] call without its result. *)
Lemma steps_RoomManager_add rn m u s :
  steps s (snd (run_sync (RoomManager_add rn m u) s)).
Proof.
  pose proof (steps_call_sync (Join rn m u) s) as H.
  unfold run_sync in *. simpl in H. unfold bind, ret in H.
  destruct (RoomManager_add rn m u Blocking s) as [[r|e] s']; exact H.
Qed.


(** * The claims *)

(** ** Join *)

Lemma identity_or_null_stored u :
  option_map user_pk (authed_user u) = identity_or_null u.
Proof.
  destruct u as [u|]; [|reflexivity]. cbn. destruct (is_authenticated u); reflexivity.
Qed.

Lemma room_found s rn r :
  filter (by_room_channel_name rn) (rooms s) = [r] ->
  In r (rooms s) /\ room_channel_name r = rn.
Proof.
  intros E.
  assert (In r (filter (by_room_channel_name rn) (rooms s))) as Hf
      by (rewrite E; left; reflexivity).
  apply filter_In in Hf. destruct Hf as [Hf Hq].
  apply by_room_channel_name_true in Hq. auto.
Qed.

(** What [Room.add_presence] leaves when it adds a row. *)
Lemma Room_add_presence_new_row self m u s out s' :
  Room_add_presence self m u Blocking s = (out, s') ->
  presences s' <> presences s ->
  let p := mkPresence (next_presence_pk s) (room_pk self) m
                      (identity_or_null u) (clock s) in
  presences s' = presences s ++ [p] /\ rooms s' = rooms s
  /\ match channel_layer s (room_channel_name self) m with
     | None =>
         trace s' = trace s ++ [GroupAdd (room_channel_name self) m;
                                Signal (mkEvent self (Some (loaded p)) None false)]
     | Some e =>
         out = Raise e
         /\ trace s' = trace s ++ [GroupAdd (room_channel_name self) m]
     end.
Proof.
  rewrite Room_add_presence_run. cbv zeta. rewrite identity_or_null_stored.
  destruct (filter _ (presences s)) as [|q [|q' l]];
    [destruct (insertable _ _ _ s)|..];
    try (intros H Hne; exfalso; apply Hne; inversion H; reflexivity).
  destruct (channel_layer s (room_channel_name self) m) as [e|];
    intros H _; inversion H; subst; cbn; rewrite <- ?app_assoc; auto.
Qed.

(** C1, amended.  [RoomManager.add] (Join) in a store that meets the
    constraints.  When the row for (room, member, identity-or-null) is
    already there, the call returns the room and the store, transport calls
    and events included, is exactly what it was.  When the call creates a
    presence row, that row is the only new one, it carries the room, the
    member and the identity (null when the user is missing or not
    authenticated), and one [group_add(room.name, member)] call is made; if
    the layer accepts it the trace grows by that call followed by one change
    event whose [added] is the new row; if the layer raises, the call raises
    that error, the row stays and the trace grows by the call alone. *)
Theorem join_existing_or_created s rn m u :
  wf s ->
  (forall r p,
      In r (rooms s) -> room_channel_name r = rn ->
      In p (presences s) -> presence_room p = room_pk r ->
      presence_channel_name p = m ->
      presence_user p = identity_or_null u ->
      run_sync (RoomManager_add rn m u) s = (Ok r, s))
  /\
  (forall out s',
      run_sync (RoomManager_add rn m u) s = (out, s') ->
      presences s' <> presences s ->
      exists r p,
        In r (rooms s') /\ room_channel_name r = rn
        /\ presences s' = presences s ++ [p] /\ ~ In p (presences s)
        /\ presence_room p = room_pk r /\ presence_channel_name p = m
        /\ presence_user p = identity_or_null u
        /\ match channel_layer s rn m with
           | None =>
               trace s' = trace s
                          ++ [GroupAdd rn m;
                              Signal (mkEvent r (Some (loaded p)) None false)]
           | Some e => out = Raise e /\ trace s' = trace s ++ [GroupAdd rn m]
           end).
Proof.
  intros W. split.
  - intros r p Hr <- Hp Ep <- Eu. unfold run_sync.
    rewrite RoomManager_add_run, (room_lookup _ _ (wf_room_name W) Hr).
    rewrite Room_add_presence_existing with (p := p); [reflexivity|].
    rewrite identity_or_null_stored, <- Ep, <- Eu.
    apply presence_lookup_key; [apply (wf_unique_together W)|exact Hp].
  - intros out s' Hrun Hne. unfold run_sync in Hrun.
    rewrite RoomManager_add_run in Hrun.
    assert (forall p, In p (presences s) -> presence_pk p <> next_presence_pk s)
      as Hfresh.
    { intros p Hp. pose proof (wf_presence_next W p Hp). lia. }
    destruct (filter (by_room_channel_name rn) (rooms s)) as [|r [|r' l]] eqn:E.
    + cbv zeta in Hrun. set (r := mkRoom (next_room_pk s) rn) in *.
      destruct (Room_add_presence r m u Blocking (insert_room r s))
        as [o s1] eqn:Hadd.
      assert (s1 = s') as -> by (destruct o; inversion Hrun; reflexivity).
      destruct (Room_add_presence_new_row r m u _ _ _ Hadd Hne) as [Hp [Hr Ht]].
      cbn [presences rooms channel_layer trace insert_room room_channel_name r
           room_pk next_presence_pk clock] in Hp, Hr, Ht.
      eexists r, _. split; [rewrite Hr; apply in_app_iff; right; left; reflexivity|].
      split; [reflexivity|]. split; [exact Hp|].
      split; [intros Hin; apply (Hfresh _ Hin); reflexivity|].
      split; [reflexivity|]. split; [reflexivity|]. split; [reflexivity|].
      destruct (channel_layer s rn m) as [e|]; [|exact Ht].
      destruct Ht as [-> Ht]. inversion Hrun. auto.
    + destruct (room_found s rn r E) as [Hin En].
      destruct (Room_add_presence r m u Blocking s) as [o s1] eqn:Hadd.
      assert (s1 = s') as -> by (destruct o; inversion Hrun; reflexivity).
      destruct (Room_add_presence_new_row r m u _ _ _ Hadd Hne) as [Hp [Hr Ht]].
      rewrite En in Ht.
      eexists r, _. split; [rewrite Hr; exact Hin|].
      split; [exact En|]. split; [exact Hp|].
      split; [intros Hi; apply (Hfresh _ Hi); reflexivity|].
      split; [reflexivity|]. split; [reflexivity|]. split; [reflexivity|].
      destruct (channel_layer s rn m) as [e|]; [|exact Ht].
      destruct Ht as [-> Ht]. inversion Hrun. auto.
    + exfalso. apply Hne. inversion Hrun; reflexivity.
Qed.

Lemma wf_fresh_store : wf fresh_store.
Proof.
  apply wf_empty_store. repeat constructor; simpl; intuition discriminate.
Qed.

Lemma wf_lobby_store : wf lobby_store.
Proof.
  eapply wf_steps; [apply steps_RoomManager_add|apply wf_fresh_store].
Qed.

Lemma wf_nameless_store : wf nameless_store.
Proof.
  eapply wf_steps; [apply steps_RoomManager_add|apply wf_fresh_store].
Qed.

Lemma join_existing_or_created_witness :
  wf lobby_store /\ wf fresh_store
  /\ run_sync (RoomManager_add "lobby" "c1" (Some alice)) lobby_store
     = (Ok lobby, lobby_store)
  /\ (exists r p,
         In r (rooms lobby_store) /\ room_channel_name r = "lobby"%string
         /\ presences lobby_store = presences fresh_store ++ [p]
         /\ ~ In p (presences fresh_store)
         /\ presence_room p = room_pk r /\ presence_channel_name p = "c1"%string
         /\ presence_user p = Some 7
         /\ trace lobby_store
            = trace fresh_store
              ++ [GroupAdd "lobby" "c1";
                  Signal (mkEvent r (Some (loaded p)) None false)])
  /\ (exists r p,
         In r (rooms nameless_store) /\ room_channel_name r = ""%string
         /\ presences nameless_store = presences fresh_store ++ [p]
         /\ ~ In p (presences fresh_store)
         /\ presence_room p = room_pk r /\ presence_channel_name p = "c1"%string
         /\ presence_user p = None
         /\ (Raise TypeError : Outcome Room) = Raise TypeError
         /\ trace nameless_store = trace fresh_store ++ [GroupAdd "" "c1"]).
Proof.
  split; [exact wf_lobby_store|]. split; [exact wf_fresh_store|]. split; [|split].
  - apply (proj1 (join_existing_or_created lobby_store "lobby" "c1" (Some alice)
                                           wf_lobby_store) lobby lobby_alice);
      vm_compute; auto.
  - apply (proj2 (join_existing_or_created fresh_store "lobby" "c1" (Some alice)
                                           wf_fresh_store)
                 (Ok lobby) lobby_store); [reflexivity|].
    vm_compute. discriminate.
  - apply (proj2 (join_existing_or_created fresh_store "" "c1" None
                                           wf_fresh_store)
                 (Raise TypeError) nameless_store); [reflexivity|].
    vm_compute. discriminate.
Defined.

(** The empty room name: the row is created, [group_add] is called and
    raises, and no event is sent. *)
Lemma join_created_not_as_stated : ~ join_created_as_stated.
Proof.
  intros H.
  destruct (H fresh_store ""%string "c1"%string None (Raise TypeError)
              nameless_store wf_fresh_store eq_refl)
    as [r [p [_ [_ [_ Ht]]]]].
  - vm_compute. discriminate.
  - apply (f_equal (@List.length Effect)) in Ht. vm_compute in Ht. discriminate.
Qed.

(** C10.  A second Join for a [(room, member)] that is present under
    another stored identity finds no row under its own key, tries the
    insert, is refused by [unique_together] and raises [IntegrityError];
    rooms, presences, transport calls and events are what they were. *)
Theorem join_other_identity_raises s rn m u r p :
  wf s ->
  In r (rooms s) -> room_channel_name r = rn ->
  In p (presences s) -> presence_room p = room_pk r ->
  presence_channel_name p = m ->
  presence_user p <> option_map user_pk (authed_user u) ->
  run_sync (RoomManager_add rn m u) s = (Raise IntegrityError, s).
Proof.
  intros W Hr <- Hp Ep <- Hne. unfold run_sync.
  rewrite RoomManager_add_run, (room_lookup _ _ (wf_room_name W) Hr).
  destruct (presence_lookup_other_identity s p _ (wf_unique_together W) Hp Hne)
    as [Hnone Hrefused].
  rewrite Ep in Hnone, Hrefused.
  rewrite (Room_add_presence_refused _ _ _ _ Hnone Hrefused). reflexivity.
Qed.

Lemma join_other_identity_raises_witness :
  wf lobby_store
  /\ run_sync (RoomManager_add "lobby" "c1" (Some bob)) lobby_store
     = (Raise IntegrityError, lobby_store).
Proof.
  split; [exact wf_lobby_store|].
  apply (join_other_identity_raises lobby_store "lobby" "c1" (Some bob)
                                    lobby lobby_alice wf_lobby_store);
    vm_compute; auto; discriminate.
Defined.


(** ** Leave *)

Lemma at_most_one_room s rn r1 r2 l :
  NoDup (map room_channel_name (rooms s)) ->
  filter (by_room_channel_name rn) (rooms s) <> r1 :: r2 :: l.
Proof.
  intros ND E.
  assert (In r1 (filter (by_room_channel_name rn) (rooms s))) as H
      by (rewrite E; left; reflexivity).
  apply filter_In in H. destruct H as [H Hq].
  apply by_room_channel_name_true in Hq. subst rn.
  rewrite (room_lookup _ _ ND H) in E. discriminate.
Qed.

Lemma at_most_one_presence s room m p1 p2 l :
  unique_together s ->
  filter (same_room_member room m) (presences s) <> p1 :: p2 :: l.
Proof.
  intros ND E.
  assert (In p1 (filter (same_room_member room m) (presences s))) as H
      by (rewrite E; left; reflexivity).
  apply filter_In in H. destruct H as [H Hq].
  apply same_room_member_true in Hq. destruct Hq as [<- <-].
  rewrite (presence_lookup _ _ ND H) in E. discriminate.
Qed.

(** [Room.remove_presence(presence=p)], unfolded once: no lookup; the
    discard, and when the layer accepts it the delete and the send. *)
Lemma Room_remove_presence_given_run self cn p s :
  Room_remove_presence self cn (Some p) Blocking s =
  let called := log (GroupDiscard (room_channel_name self)
                                  (presence_channel_name p)) s in
  match channel_layer s (room_channel_name self) (presence_channel_name p) with
  | Some e => (Raise e, called)
  | None =>
      let ev := mkEvent self None (Some (deleted p)) false in
      (match call_receivers (receivers s) ev with
       | Some e => Raise e
       | None => Ok tt
       end,
       log (Signal ev)
           (set_presences
              (filter (fun p' => negb (Nat.eqb (presence_pk p') (presence_pk p))))
              called))
  end.
Proof.
  unfold Room_remove_presence, async_to_sync, group_discard. unfold bind at 1.
  unfold ret at 1. unfold bind at 1. rewrite layer_call_run.
  destruct (channel_layer s _ _) as [e|]; [reflexivity|].
  unfold Presence_delete, Presence_objects_delete, Room_broadcast_changed.
  unfold_monad. simpl. rewrite presence_changed_send_run. simpl.
  destruct (call_receivers _ _); reflexivity.
Qed.

(** [Room.remove_presence(channel_name)], unfolded once. *)
Lemma Room_remove_presence_run self m s :
  Room_remove_presence self (Some m) None Blocking s =
  match filter (same_room_member (room_pk self) m) (presences s) with
  | [] => (Ok tt, s)
  | [p] => Room_remove_presence self None (Some p) Blocking s
  | _ => (Raise MultipleObjectsReturned, s)
  end.
Proof.
  unfold Room_remove_presence, Presence_objects_get, Presence_objects_filter.
  unfold by_room_member. unfold_monad.
  destruct (filter (same_room_member (room_pk self) m) (presences s))
    as [|p [|p' l]]; simpl; reflexivity.
Qed.

(** [RoomManager.remove], unfolded once. *)
Lemma RoomManager_remove_run rn m s :
  RoomManager_remove rn m Blocking s =
  match filter (by_room_channel_name rn) (rooms s) with
  | [] => (Ok tt, s)
  | [r] => Room_remove_presence r (Some m) None Blocking s
  | _ => (Raise MultipleObjectsReturned, s)
  end.
Proof.
  unfold RoomManager_remove, Room_objects_get, Room_objects_filter.
  unfold_monad.
  destruct (filter (by_room_channel_name rn) (rooms s)) as [|r [|r' l]];
    simpl; try reflexivity.
Qed.

(** The store after the removal of [p] has no row left for [p]'s room and
    member, when [p] was the one row of that pair. *)
Lemma no_row_after_delete s room m p :
  filter (same_room_member room m) (presences s) = [p] ->
  filter (same_room_member room m)
         (filter (fun p' => negb (Nat.eqb (presence_pk p') (presence_pk p)))
                 (presences s)) = [].
Proof.
  intros Ep. apply filter_none. intros y Hy. apply filter_In in Hy.
  destruct Hy as [Hy Hpk].
  destruct (same_room_member room m y) eqn:Q; [|reflexivity].
  assert (In y (filter (same_room_member room m) (presences s))) as Hf
      by (apply filter_In; auto).
  rewrite Ep in Hf. destruct Hf as [<-|[]].
  rewrite Nat.eqb_refl in Hpk. discriminate.
Qed.

(** C2, amended.  [RoomManager.remove] (Leave) in a store that meets the
    constraints.  When the layer accepts [group_discard(room.name, member)],
    a second Leave, whatever the first did, returns normally and leaves the
    store as the first left it: nothing deleted, no [group_discard], no
    event.  When the member is in the room and the layer raises on the
    discard, each Leave makes the call and raises the layer's error, the
    row stays and no event is sent.  A Leave for a room that does not exist,
    or for a member that is not in the room, returns normally and changes
    nothing. *)
Theorem leave_twice_idempotent s rn m :
  wf s ->
  (accepts s rn m ->
   forall out s1,
     run_sync (RoomManager_remove rn m) s = (out, s1) ->
     run_sync (RoomManager_remove rn m) s1 = (Ok tt, s1))
  /\ (forall e r p,
         channel_layer s rn m = Some e ->
         In r (rooms s) -> room_channel_name r = rn ->
         In p (presences s) -> presence_room p = room_pk r ->
         presence_channel_name p = m ->
         let s1 := log (GroupDiscard rn m) s in
         run_sync (RoomManager_remove rn m) s = (Raise e, s1)
         /\ run_sync (RoomManager_remove rn m) s1
            = (Raise e, log (GroupDiscard rn m) s1))
  /\ ((forall r, In r (rooms s) -> room_channel_name r <> rn) ->
      run_sync (RoomManager_remove rn m) s = (Ok tt, s))
  /\ (forall r,
         In r (rooms s) -> room_channel_name r = rn ->
         (forall p, In p (presences s) -> presence_room p = room_pk r ->
                    presence_channel_name p <> m) ->
         run_sync (RoomManager_remove rn m) s = (Ok tt, s)).
Proof.
  intros W. unfold run_sync. split; [|split; [|split]].
  - intros Hacc out s1. unfold accepts in Hacc. rewrite RoomManager_remove_run.
    destruct (filter (by_room_channel_name rn) (rooms s)) as [|r [|r' l]] eqn:Er.
    + intros H. inversion H; subst. rewrite RoomManager_remove_run, Er. reflexivity.
    + destruct (room_found s rn r Er) as [_ En].
      rewrite Room_remove_presence_run.
      destruct (filter (same_room_member (room_pk r) m) (presences s))
        as [|p [|p' l]] eqn:Ep.
      * intros H. inversion H; subst.
        rewrite RoomManager_remove_run, Er, Room_remove_presence_run, Ep.
        reflexivity.
      * assert (presence_channel_name p = m) as Em.
        { assert (In p (filter (same_room_member (room_pk r) m) (presences s)))
            as Hp by (rewrite Ep; left; reflexivity).
          apply filter_In in Hp. destruct Hp as [_ Hp].
          apply same_room_member_true in Hp. tauto. }
        rewrite Room_remove_presence_given_run. cbv zeta.
        rewrite Em, <- En. rewrite <- En in Hacc. rewrite Hacc.
        intros H. inversion H; subst. clear H.
        rewrite RoomManager_remove_run. cbn [rooms log set_presences].
        rewrite Er, Room_remove_presence_run. cbn [presences log set_presences].
        rewrite (no_row_after_delete s _ _ p Ep). reflexivity.
      * exfalso. exact (at_most_one_presence _ _ _ _ _ _ (wf_unique_together W) Ep).
    + exfalso. exact (at_most_one_room _ _ _ _ _ (wf_room_name W) Er).
  - intros e r p He Hr En Hp Ep Em. cbv zeta. subst rn m.
    assert (forall s0, rooms s0 = rooms s -> presences s0 = presences s ->
                       channel_layer s0 = channel_layer s ->
                       RoomManager_remove (room_channel_name r)
                                          (presence_channel_name p) Blocking s0
                       = (Raise e, log (GroupDiscard (room_channel_name r)
                                                     (presence_channel_name p)) s0))
      as Hone.
    { intros s0 E1 E2 E3.
      rewrite RoomManager_remove_run, E1, (room_lookup _ _ (wf_room_name W) Hr).
      rewrite Room_remove_presence_run, E2, <- Ep.
      rewrite (presence_lookup _ _ (wf_unique_together W) Hp).
      rewrite Room_remove_presence_given_run. cbv zeta. rewrite E3, He.
      reflexivity. }
    split; apply Hone; reflexivity.
  - intros Hnone. rewrite RoomManager_remove_run.
    assert (filter (by_room_channel_name rn) (rooms s) = []) as ->; [|reflexivity].
    apply filter_none. intros r Hr. specialize (Hnone r Hr).
    destruct (by_room_channel_name rn r) eqn:Q; [|reflexivity].
    apply by_room_channel_name_true in Q. contradiction.
  - intros r Hr <- Hnone.
    rewrite RoomManager_remove_run, (room_lookup _ _ (wf_room_name W) Hr).
    rewrite Room_remove_presence_run.
    assert (filter (same_room_member (room_pk r) m) (presences s) = []) as ->;
      [|reflexivity].
    apply filter_none. intros p Hp.
    destruct (same_room_member (room_pk r) m p) eqn:Q; [|reflexivity].
    apply same_room_member_true in Q. destruct Q as [Q1 Q2].
    exfalso. exact (Hnone p Hp Q1 Q2).
Qed.

Lemma leave_twice_idempotent_witness :
  wf lobby_store /\ wf nameless_store
  /\ (let s1 := snd (run_sync (RoomManager_remove "lobby" "c1") lobby_store) in
      presences s1 = []
      /\ run_sync (RoomManager_remove "lobby" "c1") s1 = (Ok tt, s1))
  /\ (let s1 := log (GroupDiscard "" "c1") nameless_store in
      run_sync (RoomManager_remove "" "c1") nameless_store = (Raise TypeError, s1)
      /\ run_sync (RoomManager_remove "" "c1") s1
         = (Raise TypeError, log (GroupDiscard "" "c1") s1))
  /\ run_sync (RoomManager_remove "attic" "c1") lobby_store = (Ok tt, lobby_store)
  /\ run_sync (RoomManager_remove "lobby" "c9") lobby_store = (Ok tt, lobby_store).
Proof.
  split; [exact wf_lobby_store|]. split; [exact wf_nameless_store|].
  split; [|split; [|split]].
  - split; [reflexivity|].
    apply (proj1 (leave_twice_idempotent lobby_store "lobby" "c1" wf_lobby_store)
                 eq_refl (Ok tt)).
    reflexivity.
  - apply (proj1 (proj2 (leave_twice_idempotent nameless_store "" "c1"
                                                wf_nameless_store))
                 TypeError (mkRoom 1 "") (mkPresence 1 1 "c1" None noon));
      vm_compute; auto.
  - apply (proj1 (proj2 (proj2 (leave_twice_idempotent lobby_store "attic" "c1"
                                                       wf_lobby_store)))).
    intros r [<-|[]]. vm_compute. discriminate.
  - apply (proj2 (proj2 (proj2 (leave_twice_idempotent lobby_store "lobby" "c9"
                                                       wf_lobby_store))) lobby).
    + left. reflexivity.
    + reflexivity.
    + intros p [<-|[]] _. vm_compute. discriminate.
Defined.

(** The empty room name: the discard comes first and raises, the row
    stays, and the second Leave calls the layer again. *)
Lemma leave_twice_not_as_stated : ~ leave_twice_as_stated.
Proof.
  intros H.
  specialize (H nameless_store ""%string "c1"%string (Raise TypeError)
                (log (GroupDiscard "" "c1") nameless_store)
                wf_nameless_store eq_refl).
  vm_compute in H. discriminate H.
Qed.
(** ** Touch *)

Lemma Forall2_map_r {A B} (R : A -> B -> Prop) (f : A -> B) (l : list A) :
  (forall x, R x (f x)) -> Forall2 R l (map f l).
Proof. intros H. induction l; simpl; constructor; auto. Qed.

Lemma map_id_on {A} (f : A -> A) (l : list A) :
  (forall x, In x l -> f x = x) -> map f l = l.
Proof.
  induction l as [|a l IH]; simpl; intros H; [reflexivity|].
  rewrite (H a) by auto. f_equal. apply IH. intros x Hx. apply H. auto.
Qed.

(** C3.  [PresenceManager.touch] returns normally in every store; the
    store after differs from the store before in the presences only
    (rooms, transport calls and events are untouched); the presences after
    are the presences before, row by row and in the same order, with
    [last_seen] set to now on the rows of the member and no other change;
    for a member without rows the store is unchanged.  The decorator
    [touch_presence] does this and then runs the wrapped handler. *)
Theorem touch_updates_last_seen_only s m :
  exists s',
    run_sync (PresenceManager_touch m) s = (Ok tt, s')
    /\ s' = set_presences (fun _ => presences s') s
    /\ Forall2 (touched m (clock s)) (presences s) (presences s')
    /\ ((forall p, In p (presences s) -> presence_channel_name p <> m) -> s' = s)
    /\ (forall A (func : Consumer -> M A),
           run_sync (touch_presence func (mkConsumer m)) s
           = run_sync (func (mkConsumer m)) s').
Proof.
  exists (set_presences (map (touch_row (by_channel_name m) (clock s))) s).
  split; [reflexivity|]. split; [reflexivity|]. split; [|split].
  - simpl. apply Forall2_map_r. intros p.
    unfold touched, touch_row, by_channel_name.
    destruct (String.eqb (presence_channel_name p) m); simpl; auto.
  - intros Hnone.
    assert (map (touch_row (by_channel_name m) (clock s)) (presences s)
            = presences s) as E; [|unfold set_presences; rewrite E; destruct s; reflexivity].
    apply map_id_on. intros p Hp.
    unfold touch_row, by_channel_name.
    destruct (String.eqb_spec (presence_channel_name p) m) as [E|E];
      [|reflexivity].
    exfalso. exact (Hnone p Hp E).
  - reflexivity.
Qed.

Lemma touch_updates_last_seen_only_witness :
  run_sync (PresenceManager_touch "c9") lobby_store = (Ok tt, lobby_store).
Proof.
  destruct (touch_updates_last_seen_only lobby_store "c9")
    as [s' [Hrun [_ [_ [Hnone _]]]]].
  rewrite Hrun, Hnone; [reflexivity|].
  intros p [<-|[]]. vm_compute. discriminate.
Defined.

(** ** PruneStale *)

(** ** PruneStale *)


Lemma stale_in_true r cutoff p : stale_in r cutoff p = true <-> stale r cutoff p.
Proof.
  unfold stale_in, stale. rewrite andb_true_iff, Nat.eqb_eq, Z.ltb_lt. reflexivity.
Qed.

(** The two range checks of [timedelta] and of the subtraction, together. *)
Lemma timedelta_in_range a :
  Z.leb (Z.abs (a / 86400)) 999999999 = true
  <-> (- 999999999 * 86400 <= a < 1000000000 * 86400)%Z.
Proof.
  rewrite Z.leb_le.
  assert (86400 <> 0)%Z as Hnz by lia.
  assert (0 < 86400)%Z as Hpos by lia.
  pose proof (Z.div_mod a 86400 Hnz).
  pose proof (Z.mod_pos_bound a 86400 Hpos).
  generalize dependent (a / 86400)%Z. generalize dependent (a mod 86400)%Z.
  intros r q. intros. lia.
Qed.

Lemma cutoff_in_range_dec now age :
  {cutoff_in_range now age} + {~ cutoff_in_range now age}.
Proof.
  unfold cutoff_in_range.
  destruct (Z_le_dec (- 999999999 * 86400) age); [|right; lia].
  destruct (Z_lt_dec age (1000000000 * 86400)); [|right; lia].
  destruct (Z_le_dec 0 (now - 1000000 * age)); [|right; lia].
  destruct (Z_le_dec (now - 1000000 * age) 315537897599999999); [|right; lia].
  left. lia.
Qed.

(** The cutoff [Room.prune_presences] computes. *)
Lemma cutoff_run a c s :
  (cutoff_in_range (clock s) a ->
   (t <- now ;; d <- timedelta a ;; datetime_sub t d) c s
   = (Ok (clock s - 1000000 * a)%Z, s))
  /\ (~ cutoff_in_range (clock s) a ->
      (t <- now ;; d <- timedelta a ;; datetime_sub t d) c s
      = (Raise OverflowError, s)).
Proof.
  unfold cutoff_in_range, timedelta, datetime_sub, timedelta_seconds, DATETIME_MAX.
  unfold_monad. cbv zeta.
  destruct (Z.leb (Z.abs (a / 86400)) 999999999) eqn:E1.
  - apply timedelta_in_range in E1. unfold gets. cbv beta iota.
    replace (a * 1000000)%Z with (1000000 * a)%Z by lia.
    destruct (Z.leb 0 (clock s - 1000000 * a)) eqn:E2;
      destruct (Z.leb (clock s - 1000000 * a) 315537897599999999) eqn:E3;
      cbn [andb];
      rewrite ?Z.leb_le, ?Z.leb_gt in E2, E3;
      split; intros H; cbn; try reflexivity; exfalso; lia.
  - assert (~ (- 999999999 * 86400 <= a < 1000000000 * 86400)%Z) as N.
    { intros H. apply timedelta_in_range in H. congruence. }
    unfold gets. split; intros H; [exfalso; tauto|reflexivity].
Qed.

(** [Room.prune_presences], unfolded once. *)
Lemma Room_prune_presences_run self age s :
  let a := effective_max_age s age in
  let cutoff := (clock s - 1000000 * a)%Z in
  let ev := mkEvent self None None true in
  let s1 := set_presences (filter (fun p => negb (stale_in self cutoff p))) s in
  (cutoff_in_range (clock s) a ->
   Room_prune_presences self age Blocking s =
   match filter (stale_in self cutoff) (presences s) with
   | [] => (Ok tt, s1)
   | _ :: _ =>
       (match call_receivers (receivers s) ev with
        | Some e => Raise e
        | None => Ok tt
        end, log (Signal ev) s1)
   end)
  /\ (~ cutoff_in_range (clock s) a ->
      Room_prune_presences self age Blocking s = (Raise OverflowError, s)).
Proof.
  cbv zeta.
  assert (forall a,
             Room_prune_presences self (Some a) Blocking s =
             match (t <- now ;; d <- timedelta a ;; datetime_sub t d) Blocking s with
             | (Ok cutoff, s0) =>
                 (num_deleted <- Presence_objects_delete (stale_in self cutoff) ;;
                  if Nat.ltb 0 num_deleted
                  then Room_broadcast_changed self None None true
                  else ret tt) Blocking s0
             | (Raise e, s0) => (Raise e, s0)
             end) as Shape.
  { intros a. unfold Room_prune_presences, bind, ret, now, gets.
    destruct (timedelta a Blocking s) as [[d|e] s0]; [|reflexivity].
    destruct (datetime_sub (clock s) d Blocking s0) as [[c|e] s1]; reflexivity. }
  assert (Room_prune_presences self age Blocking s
          = Room_prune_presences self (Some (effective_max_age s age)) Blocking s)
    as ->.
  { destruct age; [reflexivity|].
    unfold Room_prune_presences, max_age_setting, effective_max_age, bind, ret, gets.
    reflexivity. }
  rewrite Shape. clear Shape.
  destruct (cutoff_run (effective_max_age s age) Blocking s) as [Hin Hout].
  split; intros H.
  - rewrite (Hin H).
    unfold Presence_objects_delete, Room_broadcast_changed. unfold_monad. cbn.
    destruct (filter _ (presences s)); cbn; [reflexivity|].
    destruct (call_receivers _ _); reflexivity.
  - rewrite (Hout H). reflexivity.
Qed.


Lemma cutoff_in_range_noon_60 : cutoff_in_range noon 60.
Proof. unfold cutoff_in_range, noon. lia. Qed.



(** ** PruneEmptyRooms *)

Lemma has_presence_true ps r :
  has_presence ps r = true <-> exists p, In p ps /\ presence_room p = room_pk r.
Proof.
  unfold has_presence. rewrite existsb_exists.
  split; intros [p [Hp E]]; exists p; split; auto; apply Nat.eqb_eq; exact E.
Qed.

(** C5.  [RoomManager.prune_rooms] (PruneEmptyRooms) returns normally; the
    rooms after are the rooms before that have at least one presence, so a
    room survives exactly when some presence points to it; presences,
    transport calls and events are untouched. *)
Theorem prune_rooms_exact s :
  exists s',
    run_sync RoomManager_prune_rooms s = (Ok tt, s')
    /\ rooms s' = filter (has_presence (presences s)) (rooms s)
    /\ (forall r, In r (rooms s') <->
                  In r (rooms s)
                  /\ exists p, In p (presences s) /\ presence_room p = room_pk r)
    /\ presences s' = presences s
    /\ trace s' = trace s.
Proof.
  set (doomed := filter (presence_isnull s) (rooms s)).
  set (gone := fun pk => existsb (fun r => Nat.eqb (room_pk r) pk) doomed).
  assert (forall pk, gone pk = true ->
                     forall p, In p (presences s) -> presence_room p <> pk) as Hgone.
  { intros pk Hg p Hp E. unfold gone in Hg. apply existsb_exists in Hg.
    destruct Hg as [r [Hr Hpk]]. apply Nat.eqb_eq in Hpk.
    apply filter_In in Hr. destruct Hr as [_ Hr].
    unfold presence_isnull in Hr. apply negb_true_iff in Hr.
    assert (has_presence (presences s) r = true) as Hh
        by (apply has_presence_true; exists p; split; congruence).
    congruence. }
  assert (forall r, In r (rooms s) ->
                    negb (gone (room_pk r)) = has_presence (presences s) r) as Hroom.
  { intros r Hr. destruct (has_presence (presences s) r) eqn:Hh.
    - apply negb_true_iff. destruct (gone (room_pk r)) eqn:Hg; [|reflexivity].
      apply has_presence_true in Hh. destruct Hh as [p [Hp E]].
      exfalso. exact (Hgone _ Hg p Hp E).
    - apply negb_false_iff. unfold gone. apply existsb_exists. exists r.
      split; [|apply Nat.eqb_refl].
      apply filter_In. split; [exact Hr|].
      unfold presence_isnull. rewrite Hh. reflexivity. }
  assert (filter (fun p => negb (gone (presence_room p))) (presences s)
          = presences s) as Hps.
  { apply filter_all. intros p Hp. apply negb_true_iff.
    destruct (gone (presence_room p)) eqn:Hg; [|reflexivity].
    exfalso. exact (Hgone _ Hg p Hp eq_refl). }
  exists (set_rooms (filter (fun r => negb (gone (room_pk r))))
                    (set_presences (filter (fun p => negb (gone (presence_room p))))
                                   s)).
  split; [reflexivity|].
  unfold set_rooms, set_presences. cbn [rooms presences trace].
  rewrite Hps.
  assert (filter (fun r => negb (gone (room_pk r))) (rooms s)
          = filter (has_presence (presences s)) (rooms s)) as Hrs
      by (apply filter_ext_in'; exact Hroom).
  rewrite Hrs. split; [reflexivity|]. split; [|split; reflexivity].
  intros r. rewrite filter_In, has_presence_true. reflexivity.
Qed.

(** ** The uniqueness invariant *)

Lemma at_most_one_row_iff s : at_most_one_row s <-> unique_together s.
Proof.
  unfold at_most_one_row, unique_together. split.
  - induction (presences s) as [|a l IH]; simpl; intros H; constructor.
    + intros Hin. apply in_map_iff in Hin. destruct Hin as [b [E Hb]].
      specialize (H (presence_room a) (presence_channel_name a)).
      assert (same_room_member (presence_room a) (presence_channel_name a) a = true)
        as Qa by (apply same_room_member_true; auto).
      rewrite Qa in H. simpl in H.
      assert (In b (filter (same_room_member (presence_room a)
                                             (presence_channel_name a)) l)) as Hf.
      { apply filter_In. split; [exact Hb|]. apply same_room_member_true.
        unfold room_member in E. inversion E. auto. }
      destruct (filter _ l); [contradiction|simpl in H; lia].
    + apply IH. intros room member. specialize (H room member).
      destruct (same_room_member room member a); simpl in H; lia.
  - intros ND room member.
    destruct (filter (same_room_member room member) (presences s))
      as [|p [|p' l]] eqn:E; simpl; try lia.
    exfalso. exact (at_most_one_presence s _ _ _ _ _ ND E).
Qed.

(** C6.  In every store reachable from an empty database no pair
    (room, member) has more than one presence row, whatever the identities;
    and each public operation, in its blocking and in its non-blocking
    variant, run in any store with that property leaves a store with that
    property, whether it returns or raises. *)
Theorem at_most_one_row_invariant :
  (forall s, reachable s -> at_most_one_row s)
  /\ (forall c s,
         at_most_one_row s ->
         at_most_one_row (snd (run_sync (call_sync c) s))
         /\ at_most_one_row (snd (run_async (call_async c) s))).
Proof.
  split.
  - intros s H. apply at_most_one_row_iff.
    apply (wf_unique_together (reachable_wf s H)).
  - intros c s H. rewrite !at_most_one_row_iff in *. split.
    + exact (unique_together_steps _ _ (steps_call_sync c s) H).
    + exact (unique_together_steps _ _ (steps_call_async c s) H).
Qed.

Lemma reachable_lobby_store : reachable lobby_store.
Proof.
  exact (@reach_sync (Join "lobby" "c1" (Some alice)) fresh_store
                     (@reach_empty [7; 8] noon None [] strict_layer
                                   (wf_users wf_fresh_store))).
Qed.

Lemma at_most_one_row_invariant_witness :
  reachable lobby_store
  /\ at_most_one_row lobby_store
  /\ at_most_one_row
       (snd (run_sync (call_sync (Join "lobby" "c1" (Some bob))) lobby_store))
  /\ at_most_one_row
       (snd (run_async (call_async (LeaveAll "c1")) lobby_store)).
Proof.
  pose proof (proj1 at_most_one_row_invariant lobby_store reachable_lobby_store)
    as H.
  split; [exact reachable_lobby_store|]. split; [exact H|]. split.
  - exact (proj1 (proj2 at_most_one_row_invariant (Join "lobby" "c1" (Some bob))
                        lobby_store H)).
  - exact (proj2 (proj2 at_most_one_row_invariant (LeaveAll "c1") lobby_store H)).
Defined.

(** ** Blocking and non-blocking variants *)

Lemma agree_bind {A B} (m m' : M A) (k k' : A -> M B) :
  agree m m' -> (forall a, agree (k a) (k' a)) -> agree (bind m k) (bind m' k').
Proof.
  intros Hm Hk s. unfold run_sync, run_async, bind.
  rewrite (Hm s : m Blocking s = m' EventLoop s).
  destruct (m' EventLoop s) as [[a|e] s1]; [apply Hk|reflexivity].
Qed.

Lemma agree_try_except {A} (m m' h h' : M A) handles :
  agree m m' -> agree h h' ->
  agree (try_except m handles h) (try_except m' handles h').
Proof.
  intros Hm Hh s. unfold run_sync, run_async, try_except.
  rewrite (Hm s : m Blocking s = m' EventLoop s).
  destruct (m' EventLoop s) as [[a|e] s1]; [reflexivity|].
  destruct (handles e); [apply Hh|reflexivity].
Qed.

Lemma agree_for_each {A} (xs : list A) (body body' : A -> M unit) :
  (forall x, agree (body x) (body' x)) ->
  agree (for_each xs body) (for_each xs body').
Proof.
  intros H. induction xs as [|x xs IH]; simpl.
  - intros s. reflexivity.
  - apply agree_bind; [apply H|intros _; exact IH].
Qed.

Lemma agree_sync_to_async {A} (m : M A) : agree m (sync_to_async m).
Proof. intros s. reflexivity. Qed.

Lemma agree_async_to_sync {A} (m : M A) : agree (async_to_sync m) m.
Proof. intros s. reflexivity. Qed.

Lemma agree_ret {A} (a : A) : agree (ret a) (ret a).
Proof. intros s. reflexivity. Qed.

Lemma agree_gets {A} (f : Store -> A) : agree (gets f) (gets f).
Proof. intros s. reflexivity. Qed.

Lemma agree_Room_broadcast_changed self added removed bulk :
  agree (Room_broadcast_changed self added removed bulk)
        (Room_broadcast_changed self added removed bulk).
Proof.
  intros s. unfold run_sync, run_async, Room_broadcast_changed.
  rewrite !presence_changed_send_run. reflexivity.
Qed.

Lemma agree_timedelta seconds : agree (timedelta seconds) (timedelta seconds).
Proof. intros s. unfold timedelta. destruct (Z.leb _ _); reflexivity. Qed.

Lemma agree_datetime_sub t d : agree (datetime_sub t d) (datetime_sub t d).
Proof.
  intros s. unfold datetime_sub. cbv zeta. destruct (_ && _); reflexivity.
Qed.

Create HintDb agree.
#[local] Hint Resolve agree_ret agree_gets agree_sync_to_async agree_async_to_sync
  agree_Room_broadcast_changed agree_timedelta agree_datetime_sub : agree.

Ltac agreement :=
  repeat first
    [ solve [auto with agree]
    | apply agree_try_except
    | apply agree_for_each; intros ?
    | match goal with
      | |- agree (match ?x with _ => _ end) _ => destruct x
      end
    | apply agree_bind; [|intros ?] ].

Lemma agree_Room_add_presence self m u :
  agree (Room_add_presence self m u) (Room_add_presence_async self m u).
Proof.
  unfold Room_add_presence, Room_add_presence_async,
    Presence_objects_aget_or_create.
  agreement.
Qed.

Lemma agree_Room_remove_presence self m p :
  agree (Room_remove_presence self m p) (Room_remove_presence_async self m p).
Proof.
  unfold Room_remove_presence, Room_remove_presence_async, Presence_objects_aget,
    Presence_adelete.
  agreement.
Qed.

Lemma agree_Room_prune_presences self age :
  agree (Room_prune_presences self age) (Room_prune_presences_async self age).
Proof.
  unfold Room_prune_presences, Room_prune_presences_async, Presence_objects_adelete,
    max_age_setting, now.
  agreement.
Qed.

#[local] Hint Resolve agree_Room_add_presence agree_Room_remove_presence
  agree_Room_prune_presences : agree.

Lemma agree_RoomManager_add rn m u :
  agree (RoomManager_add rn m u) (RoomManager_add_async rn m u).
Proof.
  unfold RoomManager_add, RoomManager_add_async, Room_objects_aget_or_create.
  agreement.
Qed.

Lemma agree_RoomManager_prune_presences age :
  agree (RoomManager_prune_presences age) (RoomManager_prune_presences_async age).
Proof.
  unfold RoomManager_prune_presences, RoomManager_prune_presences_async,
    Room_objects_all, Room_objects_aiter.
  agreement.
Qed.

Lemma agree_call c : agree (call_sync c) (call_async c).
Proof.
  destruct c; simpl.
  - apply agree_bind; [apply agree_RoomManager_add|intros ?; apply agree_ret].
  - unfold PresenceManager_touch, PresenceManager_touch_async,
      Presence_objects_aupdate, now.
    agreement.
  - unfold RoomManager_remove, RoomManager_remove_async, Room_objects_aget.
    agreement.
  - unfold PresenceManager_leave_all, PresenceManager_leave_all_async,
      Presence_objects_select_related_aiter.
    agreement.
  - apply agree_Room_prune_presences.
  - unfold RoomManager_prune_rooms, RoomManager_prune_rooms_async,
      Room_objects_adelete.
    agreement.
Qed.

(** C7.  The six mutating operations agree in their two variants, result,
    store, transport calls and events alike; so do [RoomManager.add] and
    [RoomManager.add_async] on the room they return, and the sweep over all
    rooms, [RoomManager.prune_presences].  The count of
    anonymous presences does not: [get_anonymous_count] returns the number
    of rows of the room with a null user, while
    [get_anonymous_count_async], whose body runs the synchronous
    [.count()] inside the event loop, raises [SynchronousOnlyOperation]. *)
Theorem variants_agree_but_anonymous_count :
  (forall c, agree (call_sync c) (call_async c))
  /\ (forall rn m u, agree (RoomManager_add rn m u) (RoomManager_add_async rn m u))
  /\ (forall age, agree (RoomManager_prune_presences age)
                        (RoomManager_prune_presences_async age))
  /\ (forall r s,
         run_sync (Room_get_anonymous_count r) s
         = (Ok (List.length (filter (anonymous_in r) (presences s))), s)
         /\ run_async (Room_get_anonymous_count_async r) s
            = (Raise SynchronousOnlyOperation, s))
  /\ (forall r, ~ agree (Room_get_anonymous_count r)
                        (Room_get_anonymous_count_async r)).
Proof.
  split; [exact agree_call|]. split; [exact agree_RoomManager_add|].
  split; [exact agree_RoomManager_prune_presences|].
  split.
  - intros r s. split; reflexivity.
  - intros r H. specialize (H fresh_store).
    unfold run_sync, run_async, Room_get_anonymous_count,
      Room_get_anonymous_count_async, Presence_objects_count in H.
    unfold_monad. simpl in H. discriminate.
Qed.

(** The failing input of C7, evaluated: the lobby with alice in it. *)
Example anonymous_count_of_lobby :
  run_sync (Room_get_anonymous_count lobby) lobby_store = (Ok 0, lobby_store)
  /\ run_async (Room_get_anonymous_count_async lobby) lobby_store
     = (Raise SynchronousOnlyOperation, lobby_store).
Proof. split; reflexivity. Qed.

(** ** Receivers that raise *)





















(** [LeaveAll] stops at the first send on which a receiver raises: the
    member stays in the rooms not yet visited. *)
Example leave_all_stops_at_first_failure :
  run_sync (PresenceManager_leave_all "c1") two_rooms_store
  = (Raise (ReceiverError "boom"),
     mkStore [lobby; attic] [c1_in_attic] [7; 8] 3 3 noon None [failing_receiver]
             strict_layer
             [GroupDiscard "lobby" "c1";
              Signal (mkEvent lobby None (Some (deleted c1_in_lobby)) false)]).
Proof. reflexivity. Qed.

(** ** Members and anonymous presences *)

Lemma insertable_intro room m user s :
  (forall p, In p (presences s) -> same_room_member room m p = false) ->
  In room (map room_pk (rooms s)) ->
  (forall uid, user = Some uid -> In uid (auth_users s)) ->
  insertable room m user s = true.
Proof.
  intros Hfree Hroom Huser. unfold insertable.
  rewrite (proj2 (existsb_false _ _) Hfree). simpl.
  assert (existsb (fun r => Nat.eqb (room_pk r) room) (rooms s) = true) as ->.
  { apply in_map_iff in Hroom. destruct Hroom as [r [E Hr]].
    apply existsb_exists. exists r. split; [exact Hr|]. apply Nat.eqb_eq. exact E. }
  simpl. destruct user as [uid|]; [|reflexivity].
  apply existsb_exists. exists uid. split; [auto|apply Nat.eqb_refl].
Qed.

Lemma Room_add_presence_joins self m u s :
  (forall p, In p (presences s) -> same_room_member (room_pk self) m p = false) ->
  In (room_pk self) (map room_pk (rooms s)) ->
  known_identity s u ->
  let s' := snd (Room_add_presence self m u Blocking s) in
  presences s'
  = presences s ++ [mkPresence (next_presence_pk s) (room_pk self) m
                               (option_map user_pk (authed_user u)) (clock s)]
  /\ rooms s' = rooms s.
Proof.
  intros Hfree Hroom Huser. cbv zeta. rewrite Room_add_presence_run. cbv zeta.
  assert (filter (same_key (room_pk self) m (option_map user_pk (authed_user u)))
                 (presences s) = []) as ->.
  { apply filter_none. intros p Hp. unfold same_key.
    rewrite (Hfree p Hp). reflexivity. }
  rewrite (insertable_intro _ _ _ _ Hfree Hroom Huser).
  destruct (channel_layer s (room_channel_name self) m); split; reflexivity.
Qed.

(** A Join of a member that is not in the room appends the member's row,
    in the room of that name, which is new or was there. *)
Lemma RoomManager_add_joins s rn m u :
  wf s -> not_in_room s rn m -> known_identity s u ->
  let s' := snd (run_sync (RoomManager_add rn m u) s) in
  exists r,
    In r (rooms s') /\ room_channel_name r = rn
    /\ (forall r0, In r0 (rooms s) -> In r0 (rooms s'))
    /\ presences s'
       = presences s ++ [mkPresence (next_presence_pk s) (room_pk r) m
                                    (option_map user_pk (authed_user u)) (clock s)]
    /\ (forall p, In p (presences s) -> presence_room p = room_pk r ->
                  In r (rooms s)).
Proof.
  intros W Hnot Huser s'. subst s'. unfold run_sync.
  rewrite RoomManager_add_run.
  destruct (filter (by_room_channel_name rn) (rooms s)) as [|r [|r' l]] eqn:E.
  - cbv zeta. set (r := mkRoom (next_room_pk s) rn).
    assert (forall p, In p (presences s) -> presence_room p <> next_room_pk s)
      as Hnew.
    { intros p Hp. pose proof (wf_fk_room W p Hp) as Hfk.
      apply in_map_iff in Hfk. destruct Hfk as [r0 [E0 Hr0]].
      pose proof (wf_room_next W r0 Hr0). lia. }
    destruct (Room_add_presence_joins r m u (insert_room r s)) as [Hp Hr].
    + intros p Hp. apply not_true_iff_false. intros Q.
      apply same_room_member_true in Q. exact (Hnew p Hp (proj1 Q)).
    + cbn. rewrite map_app, in_app_iff. right. left. reflexivity.
    + exact Huser.
    + destruct (Room_add_presence r m u Blocking (insert_room r s)) as [[[]|e] s1];
        cbn [snd presences rooms insert_room next_presence_pk clock] in *;
        (exists r; rewrite Hr, Hp; repeat split;
         [ apply in_app_iff; right; left; reflexivity
         | intros r0 Hr0; apply in_app_iff; left; exact Hr0
         | intros p Hp0 Ep; exfalso; exact (Hnew p Hp0 Ep) ]).
  - destruct (room_found s rn r E) as [Hr En].
    destruct (Room_add_presence_joins r m u s) as [Hp Hrs].
    + intros p Hp. apply not_true_iff_false. intros Q.
      apply same_room_member_true in Q. destruct Q as [Q1 Q2].
      exact (Hnot r p Hr En Hp Q1 Q2).
    + apply in_map. exact Hr.
    + exact Huser.
    + destruct (Room_add_presence r m u Blocking s) as [[[]|e] s1];
        cbn [snd] in *;
        (exists r; rewrite Hrs, Hp; repeat split; auto).
  - exfalso. exact (at_most_one_room _ _ _ _ _ (wf_room_name W) E).
Qed.

Lemma step_auth_users s s' : step s s' -> auth_users s' = auth_users s.
Proof. destruct 1; reflexivity. Qed.

Lemma steps_auth_users s s' : steps s s' -> auth_users s' = auth_users s.
Proof.
  induction 1; [reflexivity|].
  rewrite (step_auth_users _ _ H0). assumption.
Qed.

Lemma room_name_inj s r r' :
  wf s -> In r (rooms s) -> In r' (rooms s) ->
  room_channel_name r = room_channel_name r' -> r = r'.
Proof.
  intros W Hr Hr' E.
  assert (In r' (filter (by_room_channel_name (room_channel_name r)) (rooms s)))
    as Hf.
  { apply filter_In. split; [exact Hr'|].
    apply by_room_channel_name_true. auto. }
  rewrite (room_lookup _ _ (wf_room_name W) Hr) in Hf.
  destruct Hf as [H|[]]. exact H.
Qed.

(** The rows a Join adds carry the member and the stored identity. *)
Lemma RoomManager_add_new_row s rn m u p :
  In p (presences (snd (run_sync (RoomManager_add rn m u) s))) ->
  ~ In p (presences s) ->
  presence_channel_name p = m
  /\ presence_user p = option_map user_pk (authed_user u).
Proof.
  unfold run_sync. rewrite RoomManager_add_run.
  destruct (filter (by_room_channel_name rn) (rooms s)) as [|r [|r' l]];
    cbv zeta; rewrite ?Room_add_presence_run;
    cbn [presences insert_room];
    repeat match goal with
           | |- context [match filter ?q ?l with _ => _ end] =>
               destruct (filter q l) as [|? [|? ?]]
           | |- context [if insertable ?a ?b ?c ?d then _ else _] =>
               destruct (insertable a b c d)
           | |- context [match channel_layer ?a ?b ?c with _ => _ end] =>
               destruct (channel_layer a b c)
           | |- context [match call_receivers ?a ?b with _ => _ end] =>
               destruct (call_receivers a b)
           end;
    cbn; intros Hin Hnot; try contradiction;
    apply in_app_iff in Hin; destruct Hin as [Hin|[<-|[]]];
    try contradiction; split; reflexivity.
Qed.

(** C9.  [Room.get_users] returns, without repetition, the users that
    some presence of the room points to (a presence with a null user
    contributes nobody); [Room.get_anonymous_count] returns the number of
    presences of the room whose user is null; after a Join with a null
    identity and a Join with an authenticated identity on another member
    address, into a room that was new or empty, the count of the room is 1;
    and a row created by a Join whose identity is not authenticated has a
    null user. *)
Theorem members_and_anonymous_count :
  (forall s r,
      wf s ->
      exists us,
        run_sync (Room_get_users r) s = (Ok us, s)
        /\ NoDup us
        /\ forall u, In u us <->
                     exists p, In p (presences s)
                               /\ presence_room p = room_pk r
                               /\ presence_user p = Some u)
  /\ (forall s r,
         run_sync (Room_get_anonymous_count r) s
         = (Ok (List.length (filter (anonymous_in r) (presences s))), s)
         /\ forall p, anonymous_in r p = true <->
                      presence_room p = room_pk r /\ presence_user p = None)
  /\ (forall s rn m1 m2 u0 u,
         wf s -> room_is_empty s rn -> m1 <> m2 ->
         authed_user u0 = None ->
         is_authenticated u = true -> In (user_pk u) (auth_users s) ->
         let s1 := snd (run_sync (RoomManager_add rn m1 u0) s) in
         let s2 := snd (run_sync (RoomManager_add rn m2 (Some u)) s1) in
         exists r,
           In r (rooms s2) /\ room_channel_name r = rn
           /\ run_sync (Room_get_anonymous_count r) s2 = (Ok 1, s2))
  /\ (forall s rn m u p,
         is_authenticated u = false ->
         In p (presences (snd (run_sync (RoomManager_add rn m (Some u)) s))) ->
         ~ In p (presences s) ->
         presence_channel_name p = m /\ presence_user p = None).
Proof.
  split; [|split; [|split]].
  - intros s r W. eexists. split; [reflexivity|]. split.
    + apply NoDup_filter. exact (wf_users W).
    + intros u. rewrite filter_In, existsb_exists. split.
      * intros [_ [p [Hp Q]]]. apply andb_true_iff in Q. destruct Q as [Q1 Q2].
        apply Nat.eqb_eq in Q1. apply option_nat_eqb_eq in Q2. eauto.
      * intros [p [Hp [Q1 Q2]]]. split; [exact (@wf_fk_user s W p u Hp Q2)|].
        exists p. split; [exact Hp|]. apply andb_true_iff. split.
        -- apply Nat.eqb_eq. exact Q1.
        -- apply option_nat_eqb_eq. exact Q2.
  - intros s r. split; [reflexivity|]. intros p. unfold anonymous_in.
    rewrite andb_true_iff, Nat.eqb_eq, option_nat_eqb_eq. reflexivity.
  - intros s rn m1 m2 u0 u W Hempty Hm Hu0 Hu Hknown s1 s2.
    destruct (RoomManager_add_joins s rn m1 u0 W) as [r1 [Hr1 [En1 [_ [Hp1 Hold1]]]]].
    { intros r p Hr En Hp Ep. exfalso. exact (Hempty r p Hr En Hp Ep). }
    { intros uid. rewrite Hu0. discriminate. }
    fold s1 in Hr1, Hp1.
    assert (forall p, In p (presences s) -> presence_room p <> room_pk r1) as Hfree.
    { intros p Hp Ep. exact (Hempty r1 p (Hold1 p Hp Ep) En1 Hp Ep). }
    assert (wf s1) as W1
        by (eapply wf_steps; [apply steps_RoomManager_add|exact W]).
    destruct (RoomManager_add_joins s1 rn m2 (Some u) W1)
      as [r2 [Hr2 [En2 [Hgrow [Hp2 _]]]]].
    { intros r p Hr En Hp Ep.
      assert (r = r1) as -> by (apply (room_name_inj s1); congruence).
      rewrite Hp1 in Hp. apply in_app_iff in Hp. destruct Hp as [Hp|[<-|[]]].
      - exfalso. exact (Hfree p Hp Ep).
      - simpl. exact Hm. }
    { intros uid. simpl. rewrite Hu. simpl. intros E. inversion E. subst uid.
      unfold s1. rewrite (steps_auth_users _ _ (steps_RoomManager_add rn m1 u0 s)).
      exact Hknown. }
    fold s2 in Hr2, Hgrow, Hp2.
    assert (wf s2) as W2
        by (eapply wf_steps; [apply steps_RoomManager_add|exact W1]).
    assert (r2 = r1) as ->
        by (apply (room_name_inj s2); auto; congruence).
    exists r1. split; [exact Hr2|]. split; [exact En1|].
    unfold run_sync, Room_get_anonymous_count, Presence_objects_count.
    unfold_monad. simpl. rewrite Hp2, Hp1, !filter_app.
    assert (filter (anonymous_in r1) (presences s) = []) as ->.
    { apply filter_none. intros p Hp. unfold anonymous_in.
      destruct (Nat.eqb_spec (presence_room p) (room_pk r1)) as [E|E];
        [exfalso; exact (Hfree p Hp E)|reflexivity]. }
    simpl. unfold anonymous_in. simpl. rewrite Hu0, Hu, Nat.eqb_refl. reflexivity.
  - intros s rn m u p Hu Hin Hnot.
    destruct (RoomManager_add_new_row s rn m (Some u) p Hin Hnot) as [E1 E2].
    split; [exact E1|]. rewrite E2. simpl. rewrite Hu. reflexivity.
Qed.

Lemma members_and_anonymous_count_witness :
  (exists us,
      run_sync (Room_get_users lobby) lobby_store = (Ok us, lobby_store)
      /\ NoDup us
      /\ forall u, In u us <->
                   exists p, In p (presences lobby_store)
                             /\ presence_room p = room_pk lobby
                             /\ presence_user p = Some u)
  /\ (let s1 := snd (run_sync (RoomManager_add "lobby" "c1" None) fresh_store) in
      let s2 := snd (run_sync (RoomManager_add "lobby" "c2" (Some alice)) s1) in
      exists r,
        In r (rooms s2) /\ room_channel_name r = "lobby"%string
        /\ run_sync (Room_get_anonymous_count r) s2 = (Ok 1, s2))
  /\ presence_channel_name (mkPresence 1 1 "c1" None noon) = "c1"%string
     /\ presence_user (mkPresence 1 1 "c1" None noon) = None.
Proof.
  split; [|split].
  - exact (proj1 members_and_anonymous_count lobby_store lobby wf_lobby_store).
  - apply (proj1 (proj2 (proj2 members_and_anonymous_count))
                 fresh_store "lobby"%string "c1"%string "c2"%string None alice
                 wf_fresh_store).
    + intros r p [].
    + discriminate.
    + reflexivity.
    + reflexivity.
    + left. reflexivity.
  - apply (proj2 (proj2 (proj2 members_and_anonymous_count))
                 fresh_store "lobby"%string "c1"%string anonymous_user
                 (mkPresence 1 1 "c1" None noon) eq_refl).
    + left. reflexivity.
    + intros [].
Defined.

(** * Further properties *)

(** ** Leave, when the member is in the room *)

Lemma presence_pk_inj s p q :
  wf s -> In p (presences s) -> In q (presences s) ->
  presence_pk p = presence_pk q -> p = q.
Proof.
  intros W Hp Hq E.
  assert (filter (fun x => Nat.eqb (presence_pk x) (presence_pk p)) (presences s)
          = [p]) as Hf.
  { apply filter_unique with (key := presence_pk).
    - exact (wf_presence_pk W).
    - exact Hp.
    - apply Nat.eqb_refl.
    - intros y _ Hy. apply Nat.eqb_eq. exact Hy. }
  assert (In q (filter (fun x => Nat.eqb (presence_pk x) (presence_pk p))
                       (presences s))) as Hin.
  { apply filter_In. split; [exact Hq|]. apply Nat.eqb_eq. auto. }
  rewrite Hf in Hin. destruct Hin as [H|[]]. exact H.
Qed.

(** [RoomManager.remove] of a member that is in the room.  When the layer
    accepts the discard: the row of (room, member) is the one row that
    goes, the rooms stay, the trace grows by
    [group_discard(room.name, member)] and then the event with [removed]
    set to the instance after its [delete()], its primary key gone, and the
    call returns normally unless a receiver raises on that event.  When the
    layer raises on the discard, the call raises the layer's exception and
    the discard is all that happened: the row stays and no event is
    sent. *)
Theorem leave_removes_the_row s rn m r p :
  wf s ->
  In r (rooms s) -> room_channel_name r = rn ->
  In p (presences s) -> presence_room p = room_pk r ->
  presence_channel_name p = m ->
  let ev := mkEvent r None (Some (deleted p)) false in
  match channel_layer s rn m with
  | None =>
      exists s',
        run_sync (RoomManager_remove rn m) s
        = (match call_receivers (receivers s) ev with
           | Some e => Raise e
           | None => Ok tt
           end, s')
        /\ (forall q, In q (presences s') <-> In q (presences s) /\ q <> p)
        /\ rooms s' = rooms s
        /\ trace s' = trace s ++ [GroupDiscard rn m; Signal ev]
  | Some e =>
      run_sync (RoomManager_remove rn m) s = (Raise e, log (GroupDiscard rn m) s)
  end.
Proof.
  intros W Hr En Hp Ep Em ev. subst rn m. unfold run_sync.
  rewrite RoomManager_remove_run, (room_lookup _ _ (wf_room_name W) Hr).
  rewrite Room_remove_presence_run, <- Ep.
  rewrite (presence_lookup _ _ (wf_unique_together W) Hp).
  rewrite Room_remove_presence_given_run. cbv zeta.
  destruct (channel_layer s (room_channel_name r) (presence_channel_name p));
    [reflexivity|].
  eexists. split; [reflexivity|]. cbn. split; [|split].
  - intros q. rewrite filter_In, negb_true_iff, Nat.eqb_neq. split.
    + intros [Hq Hne]. split; [exact Hq|]. intros ->. apply Hne. reflexivity.
    + intros [Hq Hne]. split; [exact Hq|]. intros E. apply Hne.
      symmetry. exact (presence_pk_inj s p q W Hp Hq (eq_sym E)).
  - reflexivity.
  - rewrite <- app_assoc. reflexivity.
Qed.

Lemma leave_removes_the_row_witness :
  (exists s',
      run_sync (RoomManager_remove "lobby" "c1") lobby_store = (Ok tt, s')
      /\ (forall q, In q (presences s') <-> In q (presences lobby_store)
                                            /\ q <> lobby_alice)
      /\ rooms s' = rooms lobby_store
      /\ trace s' = trace lobby_store
                    ++ [GroupDiscard "lobby" "c1";
                        Signal (mkEvent lobby None (Some (deleted lobby_alice))
                                        false)])
  /\ run_sync (RoomManager_remove "" "c1") nameless_store
     = (Raise TypeError, log (GroupDiscard "" "c1") nameless_store).
Proof.
  split.
  - exact (leave_removes_the_row lobby_store "lobby" "c1" lobby lobby_alice
                                 wf_lobby_store (or_introl eq_refl) eq_refl
                                 (or_introl eq_refl) eq_refl eq_refl).
  - exact (leave_removes_the_row nameless_store "" "c1" (mkRoom 1 "")
                                 (mkPresence 1 1 "c1" None noon)
                                 wf_nameless_store (or_introl eq_refl) eq_refl
                                 (or_introl eq_refl) eq_refl eq_refl).
Defined.

(** ** LeaveAll *)

Lemma filter_twice {A} (f g : A -> bool) (l : list A) :
  filter f (filter g l) = filter (fun x => g x && f x) l.
Proof.
  induction l as [|a l IH]; simpl; [reflexivity|].
  destruct (g a); simpl; [destruct (f a)|]; rewrite IH; reflexivity.
Qed.


(** The store a loop of removals ends in when nothing raises. *)
Lemma leave_loop rows s :
  quiet s ->
  Forall (fun pr => channel_layer s (room_channel_name (snd pr))
                                  (presence_channel_name (fst pr)) = None) rows ->
  for_each rows (fun pr => let '(presence, room) := pr in
                           Room_remove_presence room None (Some presence))
           Blocking s
  = (Ok tt,
     mkStore (rooms s)
             (filter (fun p' => negb (existsb (fun pr => Nat.eqb (presence_pk p')
                                                          (presence_pk (fst pr)))
                                              rows))
                     (presences s))
             (auth_users s) (next_room_pk s) (next_presence_pk s) (clock s)
             (CHANNELS_PRESENCE_MAX_AGE s) (receivers s) (channel_layer s)
             (trace s ++ flat_map removal_effects rows)).
Proof.
  revert s. induction rows as [|[p r] rows IH]; intros s Q A.
  - simpl. unfold ret. rewrite app_nil_r.
    rewrite filter_all by reflexivity. destruct s; reflexivity.
  - inversion A as [|? ? A1 A2]; subst. cbn [fst snd] in A1.
    cbn [for_each]. unfold bind at 1.
    rewrite Room_remove_presence_given_run. cbv zeta. rewrite A1, Q.
    rewrite IH by assumption. cbn. rewrite filter_twice, <- !app_assoc. cbn.
    f_equal. f_equal. apply filter_ext. intros q.
    rewrite negb_orb. reflexivity.
Qed.

Lemma room_of_presence s p :
  wf s -> In p (presences s) ->
  exists r, In r (rooms s) /\ room_pk r = presence_room p
            /\ filter (fun r => Nat.eqb (room_pk r) (presence_room p)) (rooms s)
               = [r].
Proof.
  intros W Hp. pose proof (wf_fk_room W p Hp) as Hfk.
  apply in_map_iff in Hfk. destruct Hfk as [r [E Hr]].
  exists r. split; [exact Hr|]. split; [exact E|].
  apply filter_unique with (key := room_pk).
  - exact (wf_room_pk W).
  - exact Hr.
  - apply Nat.eqb_eq. exact E.
  - intros y _ Hy. apply Nat.eqb_eq in Hy. congruence.
Qed.

(** In a well-formed store the joined query returns each matching
    presence once, with its room. *)
Lemma select_related_rows s q :
  wf s ->
  exists rows,
    Presence_objects_select_related q Blocking s = (Ok rows, s)
    /\ map fst rows = filter q (presences s)
    /\ Forall (fun pr => In (snd pr) (rooms s)
                         /\ room_pk (snd pr) = presence_room (fst pr)) rows.
Proof.
  intros W. eexists. split; [reflexivity|].
  assert (forall p, In p (filter q (presences s)) -> In p (presences s)) as Hsub
      by (intros p Hp; apply filter_In in Hp; tauto).
  induction (filter q (presences s)) as [|p l IH]; simpl.
  - split; constructor.
  - destruct (room_of_presence s p W (Hsub p (or_introl eq_refl)))
      as [r [Hr [E ->]]].
    destruct IH as [IH1 IH2]; [intros x Hx; apply Hsub; right; exact Hx|].
    simpl. split; [f_equal; exact IH1|].
    constructor; [split; assumption|exact IH2].
Qed.

Lemma leave_all_no_rows s m :
  (forall p, In p (presences s) -> presence_channel_name p <> m) ->
  run_sync (PresenceManager_leave_all m) s = (Ok tt, s).
Proof.
  intros Hnone. unfold run_sync, PresenceManager_leave_all,
                  Presence_objects_select_related.
  unfold_monad. simpl.
  assert (filter (by_channel_name m) (presences s) = []) as ->; [|reflexivity].
  apply filter_none. intros p Hp. unfold by_channel_name.
  apply String.eqb_neq. exact (Hnone p Hp).
Qed.

(** [PresenceManager.leave_all] for a member without rows returns normally
    and leaves the store as it is, in both variants, whatever the store and
    its receivers. *)
Theorem leave_all_unknown_member s m :
  (forall p, In p (presences s) -> presence_channel_name p <> m) ->
  run_sync (PresenceManager_leave_all m) s = (Ok tt, s)
  /\ run_async (PresenceManager_leave_all_async m) s = (Ok tt, s).
Proof.
  intros Hnone. pose proof (leave_all_no_rows s m Hnone) as H.
  split; [exact H|]. rewrite <- H. symmetry. exact (agree_call (LeaveAll m) s).
Qed.

Lemma leave_all_unknown_member_witness :
  run_sync (PresenceManager_leave_all "c9") two_rooms_store = (Ok tt, two_rooms_store)
  /\ run_async (PresenceManager_leave_all_async "c9") two_rooms_store
     = (Ok tt, two_rooms_store).
Proof.
  apply (leave_all_unknown_member two_rooms_store "c9").
  intros p [<-|[<-|[]]]; vm_compute; discriminate.
Defined.


(** The store [leave_all] ends in when nothing raises. *)
Lemma leave_all_quiet_run s m :
  wf s -> quiet s -> accepts_member s m ->
  exists rows,
    rows_of_member s m rows
    /\ run_sync (PresenceManager_leave_all m) s
       = (Ok tt,
          mkStore (rooms s)
                  (filter (fun p => negb (String.eqb (presence_channel_name p) m))
                          (presences s))
                  (auth_users s) (next_room_pk s) (next_presence_pk s) (clock s)
                  (CHANNELS_PRESENCE_MAX_AGE s) (receivers s) (channel_layer s)
                  (trace s ++ flat_map removal_effects rows)).
Proof.
  intros W Q A.
  destruct (select_related_rows s (by_channel_name m) W) as [rows [Hsel [Hfst Hrooms]]].
  exists rows. split; [split; assumption|].
  assert (Forall (fun pr => channel_layer s (room_channel_name (snd pr))
                                          (presence_channel_name (fst pr)) = None)
                 rows) as Hacc.
  { apply Forall_forall. intros pr Hpr.
    assert (In (fst pr) (filter (by_channel_name m) (presences s))) as Hin
        by (rewrite <- Hfst; apply in_map; exact Hpr).
    apply filter_In in Hin. destruct Hin as [_ Hm].
    apply String.eqb_eq in Hm. rewrite Hm.
    rewrite Forall_forall in Hrooms. exact (A _ (proj1 (Hrooms pr Hpr))). }
  unfold run_sync, PresenceManager_leave_all, bind. rewrite Hsel.
  rewrite (leave_loop rows s Q Hacc). f_equal. f_equal.
  apply filter_ext_in'. intros p Hp. f_equal.
  change (String.eqb (presence_channel_name p) m) with (by_channel_name m p).
  destruct (by_channel_name m p) eqn:Hm.
  - apply existsb_exists.
    assert (In p (map fst rows)) as Hin
        by (rewrite Hfst; apply filter_In; auto).
    apply in_map_iff in Hin. destruct Hin as [pr [E Hpr]].
    exists pr. split; [exact Hpr|]. rewrite E. apply Nat.eqb_refl.
  - apply existsb_false. intros pr Hpr. apply Nat.eqb_neq. intros E.
    assert (In (fst pr) (filter (by_channel_name m) (presences s))) as Hin
        by (rewrite <- Hfst; apply in_map; exact Hpr).
    apply filter_In in Hin. destruct Hin as [Hin Hq].
    rewrite (presence_pk_inj s p (fst pr) W Hp Hin E) in Hm. congruence.
Qed.

(** [PresenceManager.leave_all] in a store that meets the constraints,
    when no receiver raises and the layer accepts the discard of the member
    on every room: it returns
    normally, in both variants; the presences after are the presences
    before without the rows whose channel name is the member, in every
    room; the rooms stay; the trace grows, row by row in query order, by
    the discard on the row's room followed by the event with [removed] set
    to the instance after its [delete()]; and a second call finds nothing
    to do. *)
Theorem leave_all_removes_the_member s m :
  wf s -> quiet s -> accepts_member s m ->
  exists rows s',
    rows_of_member s m rows
    /\ run_sync (PresenceManager_leave_all m) s = (Ok tt, s')
    /\ run_async (PresenceManager_leave_all_async m) s = (Ok tt, s')
    /\ presences s'
       = filter (fun p => negb (String.eqb (presence_channel_name p) m))
                (presences s)
    /\ (forall p, In p (presences s') <->
                  In p (presences s) /\ presence_channel_name p <> m)
    /\ rooms s' = rooms s
    /\ trace s' = trace s ++ flat_map removal_effects rows
    /\ run_sync (PresenceManager_leave_all m) s' = (Ok tt, s').
Proof.
  intros W Q A. destruct (leave_all_quiet_run s m W Q A) as [rows [Hrows Hrun]].
  eexists rows, _. split; [exact Hrows|]. split; [exact Hrun|].
  split; [rewrite <- Hrun; symmetry; exact (agree_call (LeaveAll m) s)|].
  split; [reflexivity|]. split.
  { intros p. cbn [presences]. rewrite filter_In, negb_true_iff, String.eqb_neq.
    reflexivity. }
  split; [reflexivity|]. split; [reflexivity|].
  apply leave_all_no_rows. cbn. intros p Hp. apply filter_In in Hp.
  destruct Hp as [_ Hp]. apply negb_true_iff in Hp.
  apply String.eqb_neq. exact Hp.
Qed.

Lemma wf_c1_everywhere_store : wf c1_everywhere_store.
Proof.
  eapply wf_steps; [apply steps_RoomManager_add|].
  eapply wf_steps; [apply steps_RoomManager_add|apply wf_fresh_store].
Qed.

Lemma leave_all_removes_the_member_witness :
  wf c1_everywhere_store /\ quiet c1_everywhere_store
  /\ accepts_member c1_everywhere_store "c1"
  /\ exists rows s',
      rows_of_member c1_everywhere_store "c1" rows
      /\ run_sync (PresenceManager_leave_all "c1") c1_everywhere_store = (Ok tt, s')
      /\ run_async (PresenceManager_leave_all_async "c1") c1_everywhere_store
         = (Ok tt, s')
      /\ presences s'
         = filter (fun p => negb (String.eqb (presence_channel_name p) "c1"))
                  (presences c1_everywhere_store)
      /\ (forall p, In p (presences s') <->
                    In p (presences c1_everywhere_store)
                    /\ presence_channel_name p <> "c1"%string)
      /\ rooms s' = rooms c1_everywhere_store
      /\ trace s' = trace c1_everywhere_store ++ flat_map removal_effects rows
      /\ run_sync (PresenceManager_leave_all "c1") s' = (Ok tt, s').
Proof.
  assert (accepts_member c1_everywhere_store "c1") as A
      by (intros r [<-|[<-|[]]]; reflexivity).
  split; [exact wf_c1_everywhere_store|].
  split; [intros ev; reflexivity|]. split; [exact A|].
  apply (leave_all_removes_the_member c1_everywhere_store "c1"
                                      wf_c1_everywhere_store);
    [intros ev; reflexivity|exact A].
Defined.

(** ** Join, repeated *)

Lemma Room_add_presence_twice self m u s :
  let first := Room_add_presence self m u Blocking s in
  let second := Room_add_presence self m u Blocking (snd first) in
  snd second = snd first
  /\ rooms (snd first) = rooms s
  /\ (fst first = Ok tt -> fst second = Ok tt).
Proof.
  cbv zeta. rewrite (Room_add_presence_run self m u s). cbv zeta.
  destruct (filter _ (presences s)) as [|q [|q' l]] eqn:E.
  - destruct (insertable _ _ _ s) eqn:I.
    + assert (option_nat_eqb (option_map user_pk (authed_user u))
                             (option_map user_pk (authed_user u)) = true) as Hid
          by (apply option_nat_eqb_eq; reflexivity).
      destruct (channel_layer s (room_channel_name self) m);
        cbn [fst snd]; rewrite Room_add_presence_run; cbn;
        rewrite filter_app, E; cbn;
        unfold same_key, same_room_member; cbn;
        rewrite Nat.eqb_refl, String.eqb_refl, Hid; cbn; auto.
    + cbn [fst snd]. rewrite Room_add_presence_run, E, I. cbn. auto.
  - cbn [fst snd]. rewrite Room_add_presence_run, E. cbn. auto.
  - cbn [fst snd]. rewrite Room_add_presence_run, E. cbn. auto.
Qed.

(** [RoomManager.add] repeated with the same arguments, in any store: the
    second call leaves the store exactly as the first left it (no second
    room, row, transport call or event), and when the first returned the
    room the second returns it too. *)
Theorem join_twice_adds_nothing s rn m u :
  let first := run_sync (RoomManager_add rn m u) s in
  let second := run_sync (RoomManager_add rn m u) (snd first) in
  snd second = snd first
  /\ (forall r, fst first = Ok r -> fst second = Ok r).
Proof.
  cbv zeta. unfold run_sync. rewrite (RoomManager_add_run rn m u s).
  destruct (filter (by_room_channel_name rn) (rooms s)) as [|r [|r' l]] eqn:E.
  - cbv zeta. set (r := mkRoom (next_room_pk s) rn).
    destruct (Room_add_presence_twice r m u (insert_room r s)) as [Hst [Hrooms Hok]].
    cbv zeta in Hst, Hrooms, Hok.
    destruct (Room_add_presence r m u Blocking (insert_room r s)) as [[[]|e] s1];
      cbn [fst snd] in *;
      rewrite RoomManager_add_run, Hrooms; cbn [rooms insert_room];
      rewrite filter_app, E; cbn;
      rewrite String.eqb_refl; cbv beta iota;
      destruct (Room_add_presence r m u Blocking s1) as [[[]|e'] s2];
      cbn [fst snd] in *; subst; split; try reflexivity; intros r0 H;
      try discriminate H; try exact H.
    specialize (Hok eq_refl). discriminate Hok.
  - destruct (Room_add_presence_twice r m u s) as [Hst [Hrooms Hok]].
    cbv zeta in Hst, Hrooms, Hok.
    destruct (Room_add_presence r m u Blocking s) as [[[]|e] s1];
      cbn [fst snd] in *;
      rewrite RoomManager_add_run, Hrooms, E;
      destruct (Room_add_presence r m u Blocking s1) as [[[]|e'] s2];
      cbn [fst snd] in *; subst; split; try reflexivity; intros r0 H;
      try discriminate H; try exact H.
    specialize (Hok eq_refl). discriminate Hok.
  - cbn [fst snd]. rewrite RoomManager_add_run, E. cbn. split; [reflexivity|].
    intros r0 H. discriminate H.
Qed.

Lemma join_twice_adds_nothing_witness :
  let first := run_sync (RoomManager_add "lobby" "c1" (Some alice)) fresh_store in
  fst first = Ok lobby
  /\ run_sync (RoomManager_add "lobby" "c1" (Some alice)) (snd first)
     = (Ok lobby, snd first).
Proof.
  destruct (join_twice_adds_nothing fresh_store "lobby" "c1" (Some alice))
    as [Hstore Hroom].
  split; [reflexivity|].
  specialize (Hroom lobby eq_refl).
  destruct (run_sync (RoomManager_add "lobby" "c1" (Some alice))
                     (snd (run_sync (RoomManager_add "lobby" "c1" (Some alice))
                                    fresh_store))) as [o s2].
  cbn [fst snd] in *. subst. reflexivity.
Defined.

(** ** Join, in full *)

(** The whole outcome of a Join of a member that is not in the room, with
    an identity the user table knows: on top of [base], the store itself
    or the store with the new room. *)
Lemma RoomManager_add_joins_run s rn m u :
  wf s -> accepts s rn m -> not_in_room s rn m -> known_identity s u ->
  exists r base,
    room_channel_name r = rn
    /\ ((In r (rooms s) /\ base = s)
        \/ (r = mkRoom (next_room_pk s) rn /\ base = insert_room r s
            /\ forall r0, In r0 (rooms s) -> room_channel_name r0 <> rn))
    /\ (forall p, In p (presences s) -> presence_room p = room_pk r ->
                  In r (rooms s))
    /\ let p := mkPresence (next_presence_pk s) (room_pk r) m
                           (option_map user_pk (authed_user u)) (clock s) in
       let ev := mkEvent r (Some (loaded p)) None false in
       run_sync (RoomManager_add rn m u) s
       = (match call_receivers (receivers s) ev with
          | Some e => Raise e
          | None => Ok r
          end,
          log (Signal ev) (log (GroupAdd rn m) (insert_presence p base))).
Proof.
  intros W A Hnot Huser. unfold accepts in A. unfold run_sync.
  rewrite RoomManager_add_run.
  destruct (filter (by_room_channel_name rn) (rooms s)) as [|r [|r' l]] eqn:E.
  - cbv zeta. set (r := mkRoom (next_room_pk s) rn).
    assert (forall p, In p (presences s) -> presence_room p <> next_room_pk s)
      as Hnew.
    { intros p Hp. pose proof (wf_fk_room W p Hp) as Hfk.
      apply in_map_iff in Hfk. destruct Hfk as [r0 [E0 Hr0]].
      pose proof (wf_room_next W r0 Hr0). lia. }
    assert (forall p, In p (presences (insert_room r s)) ->
                      same_room_member (room_pk r) m p = false) as Hfree.
    { intros p Hp. apply not_true_iff_false. intros Q.
      apply same_room_member_true in Q. exact (Hnew p Hp (proj1 Q)). }
    exists r, (insert_room r s). split; [reflexivity|]. split; [|split].
    + right. split; [reflexivity|]. split; [reflexivity|].
      intros r0 Hr0 En. rewrite filter_none in E. specialize (E r0 Hr0).
      apply by_room_channel_name_true in En. congruence.
    + intros p Hp Ep. exfalso. exact (Hnew p Hp Ep).
    + cbv zeta. rewrite Room_add_presence_created.
      * change (channel_layer (insert_room r s) (room_channel_name r) m)
          with (channel_layer s rn m).
        rewrite A. cbn. destruct (call_receivers _ _); reflexivity.
      * apply filter_none. intros p Hp. unfold same_key.
        rewrite (Hfree p Hp). reflexivity.
      * apply insertable_intro; [exact Hfree| |exact Huser].
        cbn. rewrite map_app, in_app_iff. right. left. reflexivity.
  - assert (In r (rooms s) /\ room_channel_name r = rn) as [Hr En].
    { assert (In r (filter (by_room_channel_name rn) (rooms s))) as Hf
          by (rewrite E; left; reflexivity).
      apply filter_In in Hf. destruct Hf as [Hf Hq].
      apply by_room_channel_name_true in Hq. auto. }
    assert (forall p, In p (presences s) ->
                      same_room_member (room_pk r) m p = false) as Hfree.
    { intros p Hp. apply not_true_iff_false. intros Q.
      apply same_room_member_true in Q. destruct Q as [Q1 Q2].
      exact (Hnot r p Hr En Hp Q1 Q2). }
    exists r, s. split; [exact En|]. split; [left; auto|]. split; [auto|].
    cbv zeta. rewrite Room_add_presence_created.
    + rewrite En, A. destruct (call_receivers _ _); reflexivity.
    + apply filter_none. intros p Hp. unfold same_key.
      rewrite (Hfree p Hp). reflexivity.
    + apply insertable_intro; [exact Hfree|apply in_map; exact Hr|exact Huser].
  - exfalso. exact (at_most_one_room _ _ _ _ _ (wf_room_name W) E).
Qed.

Lemma RoomManager_remove_present_run s r p :
  wf s -> In r (rooms s) -> In p (presences s) ->
  presence_room p = room_pk r ->
  accepts s (room_channel_name r) (presence_channel_name p) ->
  RoomManager_remove (room_channel_name r) (presence_channel_name p) Blocking s
  = let ev := mkEvent r None (Some (deleted p)) false in
    (match call_receivers (receivers s) ev with
     | Some e => Raise e
     | None => Ok tt
     end,
     log (Signal ev)
         (set_presences
            (filter (fun p' => negb (Nat.eqb (presence_pk p') (presence_pk p))))
            (log (GroupDiscard (room_channel_name r) (presence_channel_name p))
                 s))).
Proof.
  intros W Hr Hp Ep A. unfold accepts in A.
  rewrite RoomManager_remove_run, (room_lookup _ _ (wf_room_name W) Hr).
  rewrite Room_remove_presence_run, <- Ep.
  rewrite (presence_lookup _ _ (wf_unique_together W) Hp).
  rewrite Room_remove_presence_given_run. cbv zeta. rewrite A. reflexivity.
Qed.

Lemma filter_fresh_pk s :
  wf s ->
  filter (fun p' => negb (Nat.eqb (presence_pk p') (next_presence_pk s)))
         (presences s) = presences s.
Proof.
  intros W. apply filter_all. intros p Hp. apply negb_true_iff, Nat.eqb_neq.
  pose proof (wf_presence_next W p Hp). lia.
Qed.

(** The stores Join and then Leave go through when nothing raises. *)
Lemma join_then_leave_run s rn m u :
  wf s -> quiet s -> accepts s rn m -> not_in_room s rn m -> known_identity s u ->
  exists r base,
    room_channel_name r = rn
    /\ ((In r (rooms s) /\ base = s)
        \/ (r = mkRoom (next_room_pk s) rn /\ base = insert_room r s
            /\ forall r0, In r0 (rooms s) -> room_channel_name r0 <> rn))
    /\ (forall p, In p (presences s) -> presence_room p = room_pk r ->
                  In r (rooms s))
    /\ let p := mkPresence (next_presence_pk s) (room_pk r) m
                           (option_map user_pk (authed_user u)) (clock s) in
       let s1 := log (Signal (mkEvent r (Some (loaded p)) None false))
                     (log (GroupAdd rn m) (insert_presence p base)) in
       let s2 := log (Signal (mkEvent r None (Some (deleted p)) false))
                     (set_presences (fun _ => presences s)
                                    (log (GroupDiscard rn m) s1)) in
       run_sync (RoomManager_add rn m u) s = (Ok r, s1)
       /\ run_sync (RoomManager_remove rn m) s1 = (Ok tt, s2).
Proof.
  intros W Q A Hnot Huser.
  destruct (RoomManager_add_joins_run s rn m u W A Hnot Huser)
    as [r [base [En [Hbase [Hold Hrun]]]]].
  cbv zeta in Hrun. rewrite Q in Hrun.
  exists r, base. split; [exact En|]. split; [exact Hbase|]. split; [exact Hold|].
  cbv zeta.
  set (p := mkPresence (next_presence_pk s) (room_pk r) m
                       (option_map user_pk (authed_user u)) (clock s)) in *.
  set (s1 := log (Signal (mkEvent r (Some (loaded p)) None false))
                 (log (GroupAdd rn m) (insert_presence p base))) in *.
  split; [exact Hrun|].
  assert (wf s1) as W1.
  { replace s1 with (snd (run_sync (RoomManager_add rn m u) s))
      by (rewrite Hrun; reflexivity).
    eapply wf_steps; [apply steps_RoomManager_add|exact W]. }
  assert (presences base = presences s /\ receivers base = receivers s
          /\ channel_layer base = channel_layer s
          /\ In r (rooms base)) as [Eps [Erc [Ely Hr]]].
  { destruct Hbase as [[Hr ->]|[-> [-> _]]]; cbn; repeat split; auto.
    apply in_app_iff. right. left. reflexivity. }
  assert (accepts s1 (room_channel_name r) (presence_channel_name p)) as A1.
  { unfold accepts. change (channel_layer s1) with (channel_layer base).
    rewrite Ely, En. exact A. }
  assert (In r (rooms s1)) as Hr1 by exact Hr.
  assert (In p (presences s1)) as Hp1
      by (cbn; apply in_app_iff; right; left; reflexivity).
  pose proof (RoomManager_remove_present_run s1 r p W1 Hr1 Hp1 eq_refl A1)
    as Hleave.
  cbv zeta in Hleave. rewrite En in Hleave.
  change (presence_channel_name p) with m in Hleave.
  change (receivers s1) with (receivers base) in Hleave.
  rewrite Erc, Q in Hleave. unfold run_sync. rewrite Hleave.
  f_equal. f_equal. unfold set_presences. cbn. rewrite Eps.
  rewrite filter_app. cbn. rewrite Nat.eqb_refl. cbn.
  rewrite (filter_fresh_pk s W), app_nil_r. reflexivity.
Qed.

(** Join then Leave, for a member that was not in the room, with a known
    identity, no receiver that raises and a layer that accepts the room
    name and the member: both calls return normally, the presences are back
    to what they were, the room is still there (a room is not deleted when
    its last member leaves), and the trace has grown by the add, its event
    with [added] set to the new row, the discard and its event with
    [removed] set to the instance after its [delete()], in that order. *)
Theorem join_then_leave_restores_presences s rn m u :
  wf s -> quiet s -> accepts s rn m -> not_in_room s rn m ->
  known_identity s u ->
  exists r p s1 s2,
    run_sync (RoomManager_add rn m u) s = (Ok r, s1)
    /\ run_sync (RoomManager_remove rn m) s1 = (Ok tt, s2)
    /\ presences s1 = presences s ++ [p]
    /\ presences s2 = presences s
    /\ rooms s2 = rooms s1 /\ In r (rooms s2) /\ room_channel_name r = rn
    /\ trace s2 = trace s ++ [GroupAdd rn m;
                              Signal (mkEvent r (Some (loaded p)) None false);
                              GroupDiscard rn m;
                              Signal (mkEvent r None (Some (deleted p)) false)].
Proof.
  intros W Q A Hnot Huser.
  destruct (join_then_leave_run s rn m u W Q A Hnot Huser)
    as [r [base [En [Hbase [_ [Hjoin Hleave]]]]]].
  cbv zeta in Hjoin, Hleave.
  eexists r, _, _, _. split; [exact Hjoin|]. split; [exact Hleave|].
  destruct Hbase as [[Hr ->]|[-> [-> _]]]; cbn;
    rewrite <- !app_assoc; repeat split; auto.
  apply in_app_iff. right. left. reflexivity.
Qed.

Lemma join_then_leave_restores_presences_witness :
  wf lobby_store /\ quiet lobby_store /\ accepts lobby_store "lobby" "c2"
  /\ exists r p s1 s2,
      run_sync (RoomManager_add "lobby" "c2" None) lobby_store = (Ok r, s1)
      /\ run_sync (RoomManager_remove "lobby" "c2") s1 = (Ok tt, s2)
      /\ presences s1 = presences lobby_store ++ [p]
      /\ presences s2 = presences lobby_store
      /\ rooms s2 = rooms s1 /\ In r (rooms s2)
      /\ room_channel_name r = "lobby"%string
      /\ trace s2 = trace lobby_store
                    ++ [GroupAdd "lobby" "c2";
                        Signal (mkEvent r (Some (loaded p)) None false);
                        GroupDiscard "lobby" "c2";
                        Signal (mkEvent r None (Some (deleted p)) false)].
Proof.
  split; [exact wf_lobby_store|]. split; [intros ev; reflexivity|].
  split; [reflexivity|].
  apply (join_then_leave_restores_presences lobby_store "lobby" "c2" None
                                            wf_lobby_store).
  - intros ev. reflexivity.
  - reflexivity.
  - intros r p Hr _ [<-|[]] _. vm_compute. discriminate.
  - intros uid. discriminate.
Defined.

(** ** Join, seen by the queries *)

(** After a Join of a member that was not in the room, with a known
    identity: [get_users] of the room has gained exactly the identity when
    there is one, and [get_anonymous_count] has grown by one exactly when
    there is none. *)
Theorem join_updates_members_and_count s rn m u :
  wf s -> not_in_room s rn m -> known_identity s u ->
  let s1 := snd (run_sync (RoomManager_add rn m u) s) in
  let uid := option_map user_pk (authed_user u) in
  exists r us us1 n n1,
    In r (rooms s1) /\ room_channel_name r = rn
    /\ run_sync (Room_get_users r) s = (Ok us, s)
    /\ run_sync (Room_get_users r) s1 = (Ok us1, s1)
    /\ (forall x, In x us1 <-> In x us \/ uid = Some x)
    /\ run_sync (Room_get_anonymous_count r) s = (Ok n, s)
    /\ run_sync (Room_get_anonymous_count r) s1 = (Ok n1, s1)
    /\ n1 = n + match uid with None => 1 | Some _ => 0 end.
Proof.
  intros W Hnot Huser s1 uid.
  destruct (RoomManager_add_joins s rn m u W Hnot Huser)
    as [r [Hr [En [_ [Hp _]]]]].
  fold s1 in Hr, Hp. fold uid in Hp.
  assert (auth_users s1 = auth_users s) as Hau
      by (apply steps_auth_users, steps_RoomManager_add).
  eexists r, _, _, _, _. split; [exact Hr|]. split; [exact En|].
  split; [reflexivity|]. split; [reflexivity|]. split; [|split; [|split]].
  - intros x. rewrite !filter_In, Hau, Hp, existsb_app. cbn.
    rewrite Nat.eqb_refl, orb_false_r, orb_true_iff. cbn.
    rewrite option_nat_eqb_eq. split.
    + intros [Hx [H|H]]; auto.
    + intros [[Hx H]|H]; [auto|]. split; [|right; exact H].
      apply Huser. exact H.
  - reflexivity.
  - reflexivity.
  - rewrite Hp, filter_app, length_app. f_equal.
    unfold anonymous_in. cbn. rewrite Nat.eqb_refl. cbn.
    destruct uid; reflexivity.
Qed.

Lemma join_updates_members_and_count_witness :
  wf lobby_store
  /\ let s1 := snd (run_sync (RoomManager_add "lobby" "c2" (Some bob)) lobby_store) in
     exists r us us1 n n1,
       In r (rooms s1) /\ room_channel_name r = "lobby"%string
       /\ run_sync (Room_get_users r) lobby_store = (Ok us, lobby_store)
       /\ run_sync (Room_get_users r) s1 = (Ok us1, s1)
       /\ (forall x, In x us1 <-> In x us \/ Some 8 = Some x)
       /\ run_sync (Room_get_anonymous_count r) lobby_store = (Ok n, lobby_store)
       /\ run_sync (Room_get_anonymous_count r) s1 = (Ok n1, s1)
       /\ n1 = n + 0.
Proof.
  split; [exact wf_lobby_store|].
  apply (join_updates_members_and_count lobby_store "lobby" "c2" (Some bob)
                                        wf_lobby_store).
  - intros r p Hr _ [<-|[]] _. vm_compute. discriminate.
  - intros uid E. vm_compute in E. inversion E. subst uid.
    right. left. reflexivity.
Defined.

(** ** PruneStale, repeated and after Touch *)

Lemma set_presences_id f s :
  f (presences s) = presences s -> set_presences f s = s.
Proof. intros E. unfold set_presences. rewrite E. destruct s; reflexivity. Qed.

Lemma Room_prune_presences_presences r age s :
  cutoff_in_range (clock s) (effective_max_age s age) ->
  presences (snd (Room_prune_presences r age Blocking s))
  = filter (fun p => negb (stale_in r (clock s - 1000000 * effective_max_age s age) p))
           (presences s).
Proof.
  intros R. rewrite (proj1 (Room_prune_presences_run r age s) R).
  destruct (filter (stale_in r _) (presences s)); reflexivity.
Qed.

Lemma Room_prune_presences_frame r age s :
  let s' := snd (Room_prune_presences r age Blocking s) in
  clock s' = clock s
  /\ CHANNELS_PRESENCE_MAX_AGE s' = CHANNELS_PRESENCE_MAX_AGE s
  /\ rooms s' = rooms s /\ receivers s' = receivers s.
Proof.
  cbv zeta.
  destruct (cutoff_in_range_dec (clock s) (effective_max_age s age)) as [R|R].
  - rewrite (proj1 (Room_prune_presences_run r age s) R).
    destruct (filter (stale_in r _) (presences s)); cbn; auto.
  - rewrite (proj2 (Room_prune_presences_run r age s) R). cbn. auto.
Qed.

(** A row that is not stale stays, whether the call returns or raises. *)
Lemma Room_prune_presences_keeps r age s p :
  In p (presences s) ->
  stale_in r (clock s - 1000000 * effective_max_age s age) p = false ->
  In p (presences (snd (Room_prune_presences r age Blocking s))).
Proof.
  intros Hp Hs.
  destruct (cutoff_in_range_dec (clock s) (effective_max_age s age)) as [R|R].
  - rewrite (Room_prune_presences_presences r age s R). apply filter_In.
    rewrite Hs. auto.
  - rewrite (proj2 (Room_prune_presences_run r age s) R). exact Hp.
Qed.

(** [Room.prune_presences] run again at the same time with the same age,
    in any store and whatever the first run did.  When [now - age] is a
    datetime nothing is stale any more: the second run returns normally,
    deletes nothing and sends no event.  When it is not, both runs raise
    [OverflowError] and the store stays as it was. *)
Theorem prune_stale_twice s r age :
  let first := run_sync (Room_prune_presences r age) s in
  (cutoff_in_range (clock s) (effective_max_age s age) ->
   run_sync (Room_prune_presences r age) (snd first) = (Ok tt, snd first))
  /\ (~ cutoff_in_range (clock s) (effective_max_age s age) ->
      first = (Raise OverflowError, s)
      /\ run_sync (Room_prune_presences r age) (snd first)
         = (Raise OverflowError, s)).
Proof.
  cbv zeta. unfold run_sync. split.
  - intros R.
    pose proof (Room_prune_presences_presences r age s R) as Hp.
    destruct (Room_prune_presences_frame r age s) as [Hc [Ha _]].
    cbv zeta in Hc, Ha.
    set (s1 := snd (Room_prune_presences r age Blocking s)) in *.
    assert (effective_max_age s1 age = effective_max_age s age) as Hage
        by (unfold effective_max_age; rewrite Ha; reflexivity).
    destruct (Room_prune_presences_run r age s1) as [Hrun _].
    cbv zeta in Hrun. rewrite Hage, Hc in Hrun. rewrite (Hrun R).
    set (cutoff := (clock s - 1000000 * effective_max_age s age)%Z) in *.
    assert (filter (stale_in r cutoff) (presences s1) = []) as ->.
    { rewrite Hp. apply filter_none. intros p Hq. apply filter_In in Hq.
      destruct Hq as [_ Hq]. apply negb_true_iff in Hq. exact Hq. }
    f_equal. apply set_presences_id. rewrite Hp, filter_twice.
    apply filter_ext. intros p. apply andb_diag.
  - intros R. pose proof (proj2 (Room_prune_presences_run r age s) R) as Hrun.
    rewrite Hrun. cbn [snd]. rewrite Hrun. split; reflexivity.
Qed.

Lemma prune_stale_twice_witness :
  (let first := run_sync (Room_prune_presences lobby (Some 60%Z)) aged_store in
   presences (snd first) = [seen_59s_ago]
   /\ run_sync (Room_prune_presences lobby (Some 60%Z)) (snd first)
      = (Ok tt, snd first))
  /\ (let first := run_sync (Room_prune_presences lobby (Some 100000000000%Z))
                            aged_store in
      first = (Raise OverflowError, aged_store)
      /\ run_sync (Room_prune_presences lobby (Some 100000000000%Z)) (snd first)
         = (Raise OverflowError, aged_store)).
Proof.
  split.
  - split; [reflexivity|].
    apply (proj1 (prune_stale_twice aged_store lobby (Some 60%Z))).
    exact cutoff_in_range_noon_60.
  - apply (proj2 (prune_stale_twice aged_store lobby (Some 100000000000%Z))).
    unfold cutoff_in_range. cbn. lia.
Defined.

(** A Touch protects the member from the sweep for the length of the age:
    after [touch] at time [now], a [prune_presences] with age [a] run at any
    time [t] with [t - a <= now] keeps every row of the member, in every
    room. *)
Theorem touch_keeps_member_alive s m r a t :
  (t - timedelta_seconds a <= clock s)%Z ->
  let s1 := snd (run_sync (PresenceManager_touch m) s) in
  let s2 := snd (run_sync (Room_prune_presences r (Some a)) (set_clock t s1)) in
  forall p, In p (presences s1) -> presence_channel_name p = m ->
            In p (presences s2).
Proof.
  intros Ht s1 s2 p Hp Hm. subst s2. unfold run_sync.
  apply Room_prune_presences_keeps; [exact Hp|].
  apply not_true_iff_false.
  intros Hs. apply stale_in_true in Hs. destruct Hs as [_ Hs].
  unfold timedelta_seconds in Ht.
  change (effective_max_age (set_clock t s1) (Some a)) with a in Hs.
  change (clock (set_clock t s1)) with t in Hs.
  replace (1000000 * a)%Z with (a * 1000000)%Z in Hs by lia.
  set (d := (a * 1000000)%Z) in *.
  cbn in Hs, Hp. apply in_map_iff in Hp. destruct Hp as [p0 [E Hp0]].
  subst p. unfold touch_row, by_channel_name in *.
  destruct (String.eqb_spec (presence_channel_name p0) m) as [E|E];
    cbn in *; [lia|contradiction].
Qed.

Lemma touch_keeps_member_alive_witness :
  let s1 := snd (run_sync (PresenceManager_touch "c1") aged_store) in
  let s2 := snd (run_sync (Room_prune_presences lobby (Some 60%Z))
                          (set_clock (noon + 60000000) s1)) in
  In (mkPresence 1 1 "c1" None noon) (presences s2).
Proof.
  apply (touch_keeps_member_alive aged_store "c1" lobby 60 (noon + 60000000)).
  - vm_compute. discriminate.
  - left. reflexivity.
  - reflexivity.
Defined.

(** ** The sweep over all rooms *)

Lemma stale_in_other_room r r' cutoff p :
  room_pk r <> room_pk r' -> stale_in r' cutoff p = true ->
  stale_in r cutoff p = false.
Proof.
  unfold stale_in. intros Hne H. apply andb_true_iff in H. destruct H as [H _].
  apply Nat.eqb_eq in H. apply andb_false_iff. left.
  apply Nat.eqb_neq. congruence.
Qed.

(** The store a quiet sweep over the rooms [rs] ends in. *)
Lemma prune_loop rs age s :
  quiet s -> NoDup (map room_pk rs) ->
  cutoff_in_range (clock s) (effective_max_age s age) ->
  let cutoff := (clock s - 1000000 * effective_max_age s age)%Z in
  for_each rs (fun room => Room_prune_presences room age) Blocking s
  = (Ok tt,
     mkStore (rooms s)
             (filter (fun p => negb (existsb (fun r => stale_in r cutoff p) rs))
                     (presences s))
             (auth_users s) (next_room_pk s) (next_presence_pk s) (clock s)
             (CHANNELS_PRESENCE_MAX_AGE s) (receivers s) (channel_layer s)
             (trace s ++ map bulk_event
                             (filter (fun r => existsb (stale_in r cutoff)
                                                       (presences s)) rs))).
Proof.
  revert s. induction rs as [|r rs IH]; intros s Q ND R cutoff.
  - cbn. unfold ret. rewrite app_nil_r, filter_all by reflexivity.
    destruct s; reflexivity.
  - inversion ND as [|? ? Hnot ND']; subst.
    cbn [for_each]. unfold bind at 1.
    rewrite (proj1 (Room_prune_presences_run r age s) R).
    fold cutoff. cbv zeta.
    assert (forall r', In r' rs ->
               existsb (stale_in r' cutoff)
                       (filter (fun p => negb (stale_in r cutoff p)) (presences s))
               = existsb (stale_in r' cutoff) (presences s)) as Hsame.
    { intros r' Hr'.
      assert (room_pk r <> room_pk r') as Hne
          by (intros E; apply Hnot; rewrite E; apply in_map; exact Hr').
      destruct (existsb (stale_in r' cutoff) (presences s)) eqn:Ex.
      - apply existsb_exists in Ex. destruct Ex as [p [Hp Hs]].
        apply existsb_exists. exists p. split; [|exact Hs].
        apply filter_In. split; [exact Hp|].
        rewrite (stale_in_other_room r r' cutoff p Hne Hs). reflexivity.
      - rewrite existsb_false in Ex. apply existsb_false.
        intros p Hp. apply filter_In in Hp. apply Ex. tauto. }
    cbn [filter map].
    destruct (filter (stale_in r cutoff) (presences s)) as [|q l] eqn:E.
    + assert (existsb (stale_in r cutoff) (presences s) = false) as ->
          by (apply existsb_filter_nil; exact E).
      rewrite IH; [|exact Q|exact ND'|exact R]. cbn.
      rewrite filter_twice. f_equal. f_equal.
      * apply filter_ext. intros p. rewrite negb_orb. reflexivity.
      * f_equal. f_equal. apply filter_ext_in'. exact Hsame.
    + assert (existsb (stale_in r cutoff) (presences s) = true) as ->.
      { apply existsb_exists. exists q.
        assert (In q (filter (stale_in r cutoff) (presences s))) as Hq
            by (rewrite E; left; reflexivity).
        apply filter_In in Hq. exact Hq. }
      rewrite Q. rewrite IH; [|exact Q|exact ND'|exact R]. cbn.
      rewrite filter_twice, <- app_assoc. f_equal. f_equal.
      * apply filter_ext. intros p. rewrite negb_orb. reflexivity.
      * f_equal. cbn. f_equal. f_equal. apply filter_ext_in'. exact Hsame.
Qed.

(** [RoomManager.prune_presences] in a store that meets the constraints
    and whose receivers do not raise, with the age given or else the
    setting or else 60 seconds.  When [now - age] is a datetime: it returns
    normally, in both variants; the presences that go are exactly those
    last seen before [now - age], in whatever room; the rooms stay; and the
    trace grows by one [bulk_change] event for each room that had a row
    last seen before [now - age], in the order of the rooms, and by nothing
    else.  When it is not, the first room makes the sweep raise
    [OverflowError] and the store stays as it was; without rooms the sweep
    returns normally. *)
Theorem sweep_prunes_every_room s age :
  wf s -> quiet s ->
  let cutoff := (clock s - 1000000 * effective_max_age s age)%Z in
  (cutoff_in_range (clock s) (effective_max_age s age) ->
   exists s',
     run_sync (RoomManager_prune_presences age) s = (Ok tt, s')
     /\ run_async (RoomManager_prune_presences_async age) s = (Ok tt, s')
     /\ presences s'
        = filter (fun p => negb (Z.ltb (presence_last_seen p) cutoff)) (presences s)
     /\ (forall p, In p (presences s') <->
                   In p (presences s) /\ (cutoff <= presence_last_seen p)%Z)
     /\ rooms s' = rooms s
     /\ trace s'
        = trace s
          ++ map bulk_event
                 (filter (fun r =>
                            existsb (fun p =>
                                       Nat.eqb (presence_room p) (room_pk r)
                                       && Z.ltb (presence_last_seen p) cutoff)
                                    (presences s))
                         (rooms s)))
  /\ (~ cutoff_in_range (clock s) (effective_max_age s age) ->
      let out := match rooms s with
                 | [] => Ok tt
                 | _ :: _ => Raise OverflowError
                 end in
      run_sync (RoomManager_prune_presences age) s = (out, s)
      /\ run_async (RoomManager_prune_presences_async age) s = (out, s)).
Proof.
  intros W Q cutoff.
  assert (run_sync (RoomManager_prune_presences age) s
          = for_each (rooms s) (fun room => Room_prune_presences room age)
                     Blocking s) as Hrun.
  { unfold run_sync, RoomManager_prune_presences, Room_objects_all,
      Room_objects_filter.
    unfold_monad. rewrite filter_all by reflexivity. reflexivity. }
  split.
  - intros R.
    rewrite (prune_loop (rooms s) age s Q (wf_room_pk W) R) in Hrun.
    fold cutoff in Hrun.
    assert (filter (fun p => negb (existsb (fun r => stale_in r cutoff p) (rooms s)))
                   (presences s)
            = filter (fun p => negb (Z.ltb (presence_last_seen p) cutoff))
                     (presences s)) as Hfilter.
    { apply filter_ext_in'. intros p Hp. f_equal.
      destruct (Z.ltb_spec (presence_last_seen p) cutoff) as [Hlt|Hge].
      - destruct (room_of_presence s p W Hp) as [r [Hr [E _]]].
        apply existsb_exists. exists r. split; [exact Hr|].
        unfold stale_in. apply andb_true_iff. split.
        + apply Nat.eqb_eq. auto.
        + apply Z.ltb_lt. exact Hlt.
      - apply existsb_false. intros r _. unfold stale_in.
        apply andb_false_iff. right. apply Z.ltb_ge. exact Hge. }
    eexists. split; [exact Hrun|].
    split; [rewrite <- Hrun; symmetry;
            exact (agree_RoomManager_prune_presences age s)|].
    cbn [presences rooms trace]. split; [exact Hfilter|].
    split; [|split; reflexivity].
    intros p. rewrite Hfilter, filter_In, negb_true_iff, Z.ltb_ge. reflexivity.
  - intros R. cbv zeta.
    assert (run_sync (RoomManager_prune_presences age) s
            = (match rooms s with
               | [] => Ok tt
               | _ :: _ => Raise OverflowError
               end, s)) as Hout.
    { rewrite Hrun. destruct (rooms s) as [|r rs]; [reflexivity|].
      cbn [for_each]. unfold bind.
      rewrite (proj2 (Room_prune_presences_run r age s) R). reflexivity. }
    split; [exact Hout|].
    rewrite <- Hout. symmetry. exact (agree_RoomManager_prune_presences age s).
Qed.

Lemma wf_aged_store : wf aged_store.
Proof.
  constructor; unfold unique_together; cbn;
    try (repeat constructor; cbn; intuition (try discriminate; try lia); fail).
  - intros r [<-|[]]. cbn. lia.
  - intros p [<-|[<-|[]]]; cbn; lia.
  - intros p [<-|[<-|[]]]; cbn; auto.
  - intros p u [<-|[<-|[]]]; cbn; discriminate.
Qed.

Lemma sweep_prunes_every_room_witness :
  wf aged_store /\ quiet aged_store
  /\ (exists s',
         run_sync (RoomManager_prune_presences (Some 60%Z)) aged_store = (Ok tt, s')
         /\ run_async (RoomManager_prune_presences_async (Some 60%Z)) aged_store
            = (Ok tt, s')
         /\ presences s' = [seen_59s_ago]
         /\ rooms s' = [lobby]
         /\ trace s' = [bulk_event lobby])
  /\ run_sync (RoomManager_prune_presences (Some 100000000000%Z)) aged_store
     = (Raise OverflowError, aged_store).
Proof.
  split; [exact wf_aged_store|]. split; [intros ev; reflexivity|].
  destruct (sweep_prunes_every_room aged_store (Some 60%Z) wf_aged_store)
    as [Hin _]; [intros ev; reflexivity|].
  destruct (Hin cutoff_in_range_noon_60) as [s' [H1 [H2 [H3 [_ [H5 H6]]]]]].
  destruct (sweep_prunes_every_room aged_store (Some 100000000000%Z)
                                    wf_aged_store) as [_ Hout];
    [intros ev; reflexivity|].
  split.
  - exists s'. split; [exact H1|]. split; [exact H2|].
    split; [rewrite H3; reflexivity|]. split; [exact H5|].
    rewrite H6. reflexivity.
  - apply Hout. unfold cutoff_in_range. cbn. lia.
Defined.

(** ** PruneEmptyRooms, repeated and after the last Leave *)

(** [RoomManager.prune_rooms], as a store. *)
Lemma RoomManager_prune_rooms_run s :
  RoomManager_prune_rooms Blocking s
  = (Ok tt, set_rooms (filter (has_presence (presences s))) s).
Proof.
  set (doomed := filter (presence_isnull s) (rooms s)).
  set (gone := fun pk => existsb (fun r => Nat.eqb (room_pk r) pk) doomed).
  assert (forall pk, gone pk = true ->
                     forall p, In p (presences s) -> presence_room p <> pk) as Hgone.
  { intros pk Hg p Hp E. unfold gone in Hg. apply existsb_exists in Hg.
    destruct Hg as [r [Hr Hpk]]. apply Nat.eqb_eq in Hpk.
    apply filter_In in Hr. destruct Hr as [_ Hr].
    unfold presence_isnull in Hr. apply negb_true_iff in Hr.
    assert (has_presence (presences s) r = true) as Hh
        by (apply has_presence_true; exists p; split; congruence).
    congruence. }
  assert (filter (fun r => negb (gone (room_pk r))) (rooms s)
          = filter (has_presence (presences s)) (rooms s)) as Hrs.
  { apply filter_ext_in'. intros r Hr.
    destruct (has_presence (presences s) r) eqn:Hh.
    - apply negb_true_iff. destruct (gone (room_pk r)) eqn:Hg; [|reflexivity].
      apply has_presence_true in Hh. destruct Hh as [p [Hp E]].
      exfalso. exact (Hgone _ Hg p Hp E).
    - apply negb_false_iff. unfold gone. apply existsb_exists. exists r.
      split; [|apply Nat.eqb_refl].
      apply filter_In. split; [exact Hr|].
      unfold presence_isnull. rewrite Hh. reflexivity. }
  assert (filter (fun p => negb (gone (presence_room p))) (presences s)
          = presences s) as Hps.
  { apply filter_all. intros p Hp. apply negb_true_iff.
    destruct (gone (presence_room p)) eqn:Hg; [|reflexivity].
    exfalso. exact (Hgone _ Hg p Hp eq_refl). }
  transitivity
    (Ok tt,
     set_rooms (filter (fun r => negb (gone (room_pk r))))
               (set_presences (filter (fun p => negb (gone (presence_room p)))) s));
    [reflexivity|].
  unfold set_rooms, set_presences. cbn [rooms presences auth_users next_room_pk
    next_presence_pk clock CHANNELS_PRESENCE_MAX_AGE receivers
      channel_layer trace].
  rewrite Hps, Hrs. reflexivity.
Qed.

(** [RoomManager.prune_rooms] run again, in any store: no room is left
    without a presence, so the second run deletes nothing; and in both runs
    every presence keeps the room it points to. *)
Theorem prune_rooms_twice s :
  let s1 := snd (run_sync RoomManager_prune_rooms s) in
  run_sync RoomManager_prune_rooms s1 = (Ok tt, s1)
  /\ no_empty_room s1
  /\ (forall p r, In p (presences s) -> In r (rooms s) ->
                  presence_room p = room_pk r -> In r (rooms s1)).
Proof.
  cbv zeta. unfold run_sync. rewrite (RoomManager_prune_rooms_run s). cbn [snd].
  assert (no_empty_room (set_rooms (filter (has_presence (presences s))) s)) as Hne.
  { intros r Hr. cbn in Hr. apply filter_In in Hr. exact (proj2 Hr). }
  split; [|split].
  - rewrite RoomManager_prune_rooms_run. f_equal.
    unfold set_rooms. cbn [snd rooms presences auth_users next_room_pk
      next_presence_pk clock CHANNELS_PRESENCE_MAX_AGE receivers
      channel_layer trace].
    rewrite filter_twice.
    assert (filter (fun x => has_presence (presences s) x
                             && has_presence (presences s) x) (rooms s)
            = filter (has_presence (presences s)) (rooms s)) as ->
        by (apply filter_ext; intros r; apply andb_diag).
    reflexivity.
  - exact Hne.
  - intros p r Hp Hr E. cbn. apply filter_In. split; [exact Hr|].
    apply has_presence_true. exists p. auto.
Qed.

(** A room that comes with a Join goes with the sweep after the Leave:
    from a store that meets the constraints, with no empty room and no
    room of that name, Join, Leave and [prune_rooms] in a row, no receiver
    raising and the layer accepting the room name and the member, bring
    rooms and presences back to what they were. *)
Theorem join_leave_prune_rooms_cycle s rn m u :
  wf s -> quiet s -> accepts s rn m -> no_empty_room s -> known_identity s u ->
  (forall r, In r (rooms s) -> room_channel_name r <> rn) ->
  exists r s1 s2 s3,
    run_sync (RoomManager_add rn m u) s = (Ok r, s1)
    /\ run_sync (RoomManager_remove rn m) s1 = (Ok tt, s2)
    /\ run_sync RoomManager_prune_rooms s2 = (Ok tt, s3)
    /\ rooms s1 = rooms s ++ [r] /\ rooms s2 = rooms s ++ [r]
    /\ rooms s3 = rooms s /\ presences s3 = presences s.
Proof.
  intros W Q A Hfull Huser Hfresh.
  destruct (join_then_leave_run s rn m u W Q A)
    as [r [base [En [Hbase [Hold [Hjoin Hleave]]]]]].
  { intros r p Hr E. exfalso. exact (Hfresh r Hr E). }
  { exact Huser. }
  cbv zeta in Hjoin, Hleave.
  destruct Hbase as [[Hr _]|[Er [-> _]]]; [exfalso; exact (Hfresh r Hr En)|].
  eexists r, _, _, _. split; [exact Hjoin|]. split; [exact Hleave|].
  unfold run_sync. rewrite RoomManager_prune_rooms_run.
  split; [reflexivity|]. cbn. split; [reflexivity|]. split; [reflexivity|].
  split; [|reflexivity].
  rewrite filter_app. cbn.
  assert (has_presence (presences s) r = false) as ->.
  { apply not_true_iff_false. intros H. apply has_presence_true in H.
    destruct H as [p [Hp Ep]]. apply (Hfresh r (Hold p Hp Ep) En). }
  rewrite app_nil_r. apply filter_all. exact Hfull.
Qed.

Lemma join_leave_prune_rooms_cycle_witness :
  wf lobby_store /\ quiet lobby_store /\ accepts lobby_store "attic" "c1"
  /\ no_empty_room lobby_store
  /\ exists r s1 s2 s3,
      run_sync (RoomManager_add "attic" "c1" None) lobby_store = (Ok r, s1)
      /\ run_sync (RoomManager_remove "attic" "c1") s1 = (Ok tt, s2)
      /\ run_sync RoomManager_prune_rooms s2 = (Ok tt, s3)
      /\ rooms s1 = rooms lobby_store ++ [r]
      /\ rooms s2 = rooms lobby_store ++ [r]
      /\ rooms s3 = rooms lobby_store /\ presences s3 = presences lobby_store.
Proof.
  split; [exact wf_lobby_store|]. split; [intros ev; reflexivity|].
  split; [reflexivity|].
  split; [intros r [<-|[]]; reflexivity|].
  apply (join_leave_prune_rooms_cycle lobby_store "attic" "c1" None wf_lobby_store).
  - intros ev. reflexivity.
  - reflexivity.
  - intros r [<-|[]]. reflexivity.
  - intros uid. discriminate.
  - intros r [<-|[]]. vm_compute. discriminate.
Defined.

Lemma prune_rooms_twice_witness :
  let s1 := snd (run_sync RoomManager_prune_rooms lobby_store) in
  run_sync RoomManager_prune_rooms s1 = (Ok tt, s1) /\ In lobby (rooms s1).
Proof.
  destruct (prune_rooms_twice lobby_store) as [Hrun [_ Hkeep]].
  split; [exact Hrun|].
  apply (Hkeep lobby_alice lobby); [left; reflexivity|left; reflexivity|reflexivity].
Defined.

(** ** The shape of the trace *)

Lemma effect_blocks_app layer l1 l2 :
  effect_blocks layer l1 -> effect_blocks layer l2 -> effect_blocks layer (l1 ++ l2).
Proof.
  induction 1; intros H2; cbn; [exact H2|..]; econstructor; eauto.
Qed.

Lemma appends_blocks_refl s s' : trace s' = trace s -> appends_blocks s s'.
Proof.
  intros E. exists []. rewrite app_nil_r. split; [exact E|constructor].
Qed.

Lemma appends_blocks_trans s1 s2 s3 :
  channel_layer s2 = channel_layer s1 ->
  appends_blocks s1 s2 -> appends_blocks s2 s3 -> appends_blocks s1 s3.
Proof.
  intros Ely [l1 [E1 B1]] [l2 [E2 B2]]. exists (l1 ++ l2). split.
  - rewrite E2, E1, app_assoc. reflexivity.
  - rewrite Ely in B2. apply effect_blocks_app; assumption.
Qed.

Lemma step_channel_layer s s' : step s s' -> channel_layer s' = channel_layer s.
Proof. destruct 1; reflexivity. Qed.

Lemma steps_channel_layer s s' : steps s s' -> channel_layer s' = channel_layer s.
Proof.
  induction 1; [reflexivity|].
  rewrite (step_channel_layer _ _ H0). assumption.
Qed.

Lemma appends_Room_add_presence r m u s :
  appends_blocks s (snd (Room_add_presence r m u Blocking s)).
Proof.
  rewrite Room_add_presence_run. cbv zeta.
  destruct (filter _ (presences s)) as [|q [|q' l]];
    [destruct (insertable _ _ _ s);
     [destruct (channel_layer s (room_channel_name r) m) as [e|] eqn:Ely|]|..];
    try (apply appends_blocks_refl; reflexivity).
  - eexists. cbn. split; [reflexivity|].
    apply (@blocks_add_refused (channel_layer s) _ _ e []);
      [exact Ely|constructor].
  - eexists. cbn. rewrite <- app_assoc. split; [reflexivity|].
    cbn.
    apply (@blocks_added (channel_layer s) r
             (mkPresence (next_presence_pk s) (room_pk r) m
                         (option_map user_pk (authed_user u)) (clock s)) []);
      [exact Ely|reflexivity|constructor].
Qed.

Lemma appends_RoomManager_add rn m u s :
  appends_blocks s (snd (RoomManager_add rn m u Blocking s)).
Proof.
  rewrite RoomManager_add_run.
  destruct (filter (by_room_channel_name rn) (rooms s)) as [|r [|r' l]].
  - cbv zeta.
    pose proof (appends_Room_add_presence (mkRoom (next_room_pk s) rn) m u
                  (insert_room (mkRoom (next_room_pk s) rn) s)) as H.
    destruct (Room_add_presence _ m u Blocking (insert_room _ s)) as [[[]|e] s1];
      exact H.
  - pose proof (appends_Room_add_presence r m u s) as H.
    destruct (Room_add_presence r m u Blocking s) as [[[]|e] s1]; exact H.
  - apply appends_blocks_refl. reflexivity.
Qed.

Lemma appends_Room_remove_presence_given r cn p s :
  presence_room p = room_pk r ->
  appends_blocks s (snd (Room_remove_presence r cn (Some p) Blocking s)).
Proof.
  intros Hroom. rewrite Room_remove_presence_given_run. cbv zeta.
  destruct (channel_layer s (room_channel_name r) (presence_channel_name p))
    as [e|] eqn:Ely.
  - eexists. cbn. split; [reflexivity|].
    apply (@blocks_discard_refused (channel_layer s) _ _ e []);
      [exact Ely|constructor].
  - eexists. cbn. rewrite <- app_assoc. split; [reflexivity|].
    cbn. apply (@blocks_removed (channel_layer s) r p []);
           [exact Ely|exact Hroom|constructor].
Qed.

Lemma appends_RoomManager_remove rn m s :
  appends_blocks s (snd (RoomManager_remove rn m Blocking s)).
Proof.
  rewrite RoomManager_remove_run.
  destruct (filter (by_room_channel_name rn) (rooms s)) as [|r [|r' l]];
    try (apply appends_blocks_refl; reflexivity).
  rewrite Room_remove_presence_run.
  destruct (filter (same_room_member (room_pk r) m) (presences s))
    as [|p [|p' l]] eqn:E;
    try (apply appends_blocks_refl; reflexivity).
  assert (In p (filter (same_room_member (room_pk r) m) (presences s))) as Hp
      by (rewrite E; left; reflexivity).
  apply filter_In in Hp. destruct Hp as [_ Hp].
  apply same_room_member_true in Hp. destruct Hp as [Hroom _].
  apply appends_Room_remove_presence_given. exact Hroom.
Qed.

Lemma appends_Room_prune_presences r age s :
  appends_blocks s (snd (Room_prune_presences r age Blocking s)).
Proof.
  destruct (cutoff_in_range_dec (clock s) (effective_max_age s age)) as [R|R].
  - rewrite (proj1 (Room_prune_presences_run r age s) R).
    destruct (filter (stale_in r _) (presences s)).
    + apply appends_blocks_refl. reflexivity.
    + eexists. cbn. split; [reflexivity|]. apply blocks_bulk. constructor.
  - rewrite (proj2 (Room_prune_presences_run r age s) R).
    apply appends_blocks_refl. reflexivity.
Qed.

Lemma appends_leave_loop rows s :
  Forall (fun pr => presence_room (fst pr) = room_pk (snd pr)) rows ->
  appends_blocks s
    (snd (for_each rows (fun pr => let '(presence, room) := pr in
                                   Room_remove_presence room None (Some presence))
                   Blocking s)).
Proof.
  intros H. revert s. induction H as [|[p r] rows Hpr _ IH]; intros s.
  - apply appends_blocks_refl. reflexivity.
  - cbn [for_each]. unfold bind.
    pose proof (appends_Room_remove_presence_given r None p s Hpr) as H1.
    pose proof (steps_channel_layer _ _
                  (evolves_Room_remove_presence r None (Some p) Blocking s)) as Ely.
    destruct (Room_remove_presence r None (Some p) Blocking s) as [[[]|e] s1];
      cbn [snd] in *; [|exact H1].
    eapply appends_blocks_trans; [exact Ely|exact H1|apply IH].
Qed.

Lemma select_related_pairs (q : Presence -> bool) (ps : list Presence)
      (rs : list Room) :
  Forall (fun pr => presence_room (fst pr) = room_pk (snd pr))
         (flat_map (fun p => map (fun r => (p, r))
                                 (filter (fun r => Nat.eqb (room_pk r)
                                                           (presence_room p)) rs))
                   (filter q ps)).
Proof.
  apply Forall_forall. intros [p r] Hin. apply in_flat_map in Hin.
  destruct Hin as [p0 [_ Hin]]. apply in_map_iff in Hin.
  destruct Hin as [r0 [E Hr0]]. inversion E; subst.
  apply filter_In in Hr0. destruct Hr0 as [_ Hr0].
  apply Nat.eqb_eq in Hr0. cbn. auto.
Qed.

Lemma appends_call_sync c s :
  appends_blocks s (snd (run_sync (call_sync c) s)).
Proof.
  unfold run_sync. destruct c as [rn m u|m|rn m|m|r age|]; cbn [call_sync].
  - unfold bind, ret. pose proof (appends_RoomManager_add rn m u s) as H.
    destruct (RoomManager_add rn m u Blocking s) as [[r|e] s1]; exact H.
  - apply appends_blocks_refl. reflexivity.
  - apply appends_RoomManager_remove.
  - unfold PresenceManager_leave_all, Presence_objects_select_related.
    unfold_monad. cbn. apply appends_leave_loop, select_related_pairs.
  - apply appends_Room_prune_presences.
  - rewrite RoomManager_prune_rooms_run. apply appends_blocks_refl. reflexivity.
Qed.

(** Every public operation, in either variant and whether it returns or
    raises, only appends to the trace, and what it appends is made of whole
    blocks: an add the layer accepted followed by the event of the new row,
    a discard the layer accepted followed by the event of the removed row,
    a [bulk_change] event alone, or a transport call the layer refused,
    alone.  So in every store reachable from an empty database each event
    has exactly one of [added], [removed] and [bulk_change], each transport
    call the layer accepted is followed at once by its event, and the row
    of an event points to the event's room. *)
Theorem trace_is_made_of_blocks :
  (forall c s,
      appends_blocks s (snd (run_sync (call_sync c) s))
      /\ appends_blocks s (snd (run_async (call_async c) s)))
  /\ (forall s, reachable s -> effect_blocks (channel_layer s) (trace s)).
Proof.
  assert (forall c s, appends_blocks s (snd (run_async (call_async c) s))) as Ha.
  { intros c s. rewrite <- (agree_call c s). apply appends_call_sync. }
  split.
  - intros c s. split; [apply appends_call_sync|apply Ha].
  - induction 1 as [users t age rs layer _|c s _ IH|c s _ IH|t s _ IH _].
    + constructor.
    + rewrite (steps_channel_layer _ _ (steps_call_sync c s)).
      destruct (appends_call_sync c s) as [l [-> B]].
      apply effect_blocks_app; assumption.
    + rewrite (steps_channel_layer _ _ (steps_call_async c s)).
      destruct (Ha c s) as [l [-> B]]. apply effect_blocks_app; assumption.
    + exact IH.
Qed.

Lemma trace_is_made_of_blocks_witness :
  reachable lobby_store /\ reachable nameless_store
  /\ effect_blocks strict_layer
       [GroupAdd "lobby" "c1";
        Signal (mkEvent lobby (Some (loaded lobby_alice)) None false)]
  /\ effect_blocks strict_layer [GroupAdd "" "c1"].
Proof.
  assert (reachable nameless_store) as Hn.
  { exact (@reach_sync (Join "" "c1" None) fresh_store
                       (@reach_empty [7; 8] noon None [] strict_layer
                                     (wf_users wf_fresh_store))). }
  split; [exact reachable_lobby_store|]. split; [exact Hn|]. split.
  - exact (proj2 trace_is_made_of_blocks lobby_store reachable_lobby_store).
  - exact (proj2 trace_is_made_of_blocks nameless_store Hn).
Defined.

(** ** The constraints of the store *)

(** The constraints declared on the models hold along every operation:
    each public call, in either variant and whether it returns or raises,
    takes a store that satisfies them (primary keys distinct and below the
    next one, room names distinct, (room, member) distinct, every presence
    pointing to an existing room and to a known user or none) to a store
    that satisfies them; every store reachable from an empty database does;
    and so there every presence has its room and a name identifies one
    room. *)
Theorem store_constraints_invariant :
  (forall c s,
      wf s ->
      wf (snd (run_sync (call_sync c) s))
      /\ wf (snd (run_async (call_async c) s)))
  /\ (forall s, reachable s -> wf s)
  /\ (forall s,
         reachable s ->
         (forall p, In p (presences s) ->
                    exists r, In r (rooms s) /\ room_pk r = presence_room p)
         /\ (forall r r', In r (rooms s) -> In r' (rooms s) ->
                          room_channel_name r = room_channel_name r' -> r = r')).
Proof.
  split; [|split].
  - intros c s W. split.
    + exact (wf_steps _ _ (steps_call_sync c s) W).
    + exact (wf_steps _ _ (steps_call_async c s) W).
  - exact reachable_wf.
  - intros s H. pose proof (reachable_wf s H) as W. split.
    + intros p Hp. destruct (room_of_presence s p W Hp) as [r [Hr [E _]]].
      exists r. auto.
    + intros r r'. apply room_name_inj. exact W.
Qed.

Lemma store_constraints_invariant_witness :
  wf lobby_store
  /\ wf (snd (run_sync (call_sync (LeaveAll "c1")) lobby_store))
  /\ wf (snd (run_async (call_async PruneEmptyRooms) lobby_store))
  /\ exists r, In r (rooms lobby_store) /\ room_pk r = presence_room lobby_alice.
Proof.
  split; [exact (proj1 (proj2 store_constraints_invariant) lobby_store
                       reachable_lobby_store)|].
  split; [exact (proj1 (proj1 store_constraints_invariant (LeaveAll "c1")
                              lobby_store wf_lobby_store))|].
  split; [exact (proj2 (proj1 store_constraints_invariant PruneEmptyRooms
                              lobby_store wf_lobby_store))|].
  apply (proj1 (proj2 (proj2 store_constraints_invariant) lobby_store
                      reachable_lobby_store)).
  left. reflexivity.
Defined.

(** ** A room instance whose row is gone *)

(** The methods of a [Room] instance whose row is no longer in the table
    (deleted by the sweep of empty rooms, say), in a store that meets the
    constraints: [add_presence] raises [IntegrityError], the foreign key
    refusing the row; [remove_presence] returns normally;
    [prune_presences] returns normally when [now - age] is a datetime and
    raises [OverflowError] when it is not; [get_anonymous_count] is 0 and
    [get_users] is empty; and none of them changes the store. *)
Theorem methods_of_a_deleted_room s r m u age :
  wf s -> ~ In (room_pk r) (map room_pk (rooms s)) ->
  run_sync (Room_add_presence r m u) s = (Raise IntegrityError, s)
  /\ run_sync (Room_remove_presence r (Some m) None) s = (Ok tt, s)
  /\ (cutoff_in_range (clock s) (effective_max_age s age) ->
      run_sync (Room_prune_presences r age) s = (Ok tt, s))
  /\ (~ cutoff_in_range (clock s) (effective_max_age s age) ->
      run_sync (Room_prune_presences r age) s = (Raise OverflowError, s))
  /\ run_sync (Room_get_anonymous_count r) s = (Ok 0, s)
  /\ run_sync (Room_get_users r) s = (Ok [], s).
Proof.
  intros W Hgone.
  assert (forall p, In p (presences s) -> Nat.eqb (presence_room p) (room_pk r) = false)
    as Hnone.
  { intros p Hp. apply Nat.eqb_neq. intros E. apply Hgone. rewrite <- E.
    exact (wf_fk_room W p Hp). }
  unfold run_sync. split; [|split; [|split; [|split; [|split]]]].
  - apply Room_add_presence_refused.
    + apply filter_none. intros p Hp. unfold same_key, same_room_member.
      rewrite (Hnone p Hp). reflexivity.
    + unfold insertable.
      assert (existsb (fun r0 => Nat.eqb (room_pk r0) (room_pk r)) (rooms s) = false)
        as ->; [|apply andb_false_iff; left; apply andb_false_r].
      apply existsb_false. intros r0 Hr0. apply Nat.eqb_neq. intros E.
      apply Hgone. rewrite <- E. apply in_map. exact Hr0.
  - rewrite Room_remove_presence_run.
    assert (filter (same_room_member (room_pk r) m) (presences s) = []) as ->;
      [|reflexivity].
    apply filter_none. intros p Hp. unfold same_room_member.
    rewrite (Hnone p Hp). reflexivity.
  - intros R. rewrite (proj1 (Room_prune_presences_run r age s) R).
    assert (forall c p, In p (presences s) -> stale_in r c p = false) as Hs
        by (intros c p Hp; unfold stale_in; rewrite (Hnone p Hp); reflexivity).
    rewrite (proj2 (filter_none _ _) (Hs _)). f_equal.
    apply set_presences_id. apply filter_all. intros p Hp.
    rewrite (Hs _ p Hp). reflexivity.
  - intros R. exact (proj2 (Room_prune_presences_run r age s) R).
  - unfold Room_get_anonymous_count, Presence_objects_count. unfold_monad. cbn.
    assert (filter (anonymous_in r) (presences s) = []) as ->; [|reflexivity].
    apply filter_none. intros p Hp. unfold anonymous_in.
    rewrite (Hnone p Hp). reflexivity.
  - unfold Room_get_users. unfold_monad. cbn. f_equal. f_equal.
    apply filter_none. intros x _. apply existsb_false. intros p Hp.
    rewrite (Hnone p Hp). reflexivity.
Qed.

Lemma methods_of_a_deleted_room_witness :
  run_sync (Room_add_presence attic "c1" None) lobby_store
  = (Raise IntegrityError, lobby_store)
  /\ run_sync (Room_remove_presence attic (Some "c1"%string) None) lobby_store
     = (Ok tt, lobby_store)
  /\ run_sync (Room_prune_presences attic None) lobby_store = (Ok tt, lobby_store)
  /\ run_sync (Room_prune_presences attic (Some 100000000000%Z)) lobby_store
     = (Raise OverflowError, lobby_store)
  /\ run_sync (Room_get_anonymous_count attic) lobby_store = (Ok 0, lobby_store)
  /\ run_sync (Room_get_users attic) lobby_store = (Ok [], lobby_store).
Proof.
  assert (~ In (room_pk attic) (map room_pk (rooms lobby_store))) as Hgone
      by (intros [H|[]]; discriminate H).
  destruct (methods_of_a_deleted_room lobby_store attic "c1" None None
                                      wf_lobby_store Hgone)
    as [H1 [H2 [H3 [_ [H5 H6]]]]].
  destruct (methods_of_a_deleted_room lobby_store attic "c1" None
                                      (Some 100000000000%Z) wf_lobby_store Hgone)
    as [_ [_ [_ [H4 _]]]].
  split; [exact H1|]. split; [exact H2|].
  split; [exact (H3 cutoff_in_range_noon_60)|].
  split; [apply H4; unfold cutoff_in_range; cbn; lia|].
  split; [exact H5|exact H6].
Defined.

(** ** The decorators *)

(** [remove_presence] and [touch_presence], and their coroutine
    counterparts: when the wrapped handlers agree, so do the decorated
    ones; in a store that meets the constraints, when no receiver raises
    and the layer accepts the discard of the consumer's channel on every
    room, the handler wrapped by [remove_presence] runs in the store where
    the rows of the consumer's channel are gone from every room; and when
    [leave_all] raises, the handler is not run and the exception is the
    caller's. *)
Theorem decorators_run_before_the_handler {A} (func func' : Consumer -> M A)
        (consumer : Consumer) :
  (forall c, agree (func c) (func' c)) ->
  agree (touch_presence func consumer) (touch_presence_async func' consumer)
  /\ agree (remove_presence func consumer) (remove_presence_async func' consumer)
  /\ (forall s,
         wf s -> quiet s -> accepts_member s (consumer_channel_name consumer) ->
         exists s',
           presences s'
           = filter (fun p => negb (String.eqb (presence_channel_name p)
                                               (consumer_channel_name consumer)))
                    (presences s)
           /\ (forall p, In p (presences s') <->
                         In p (presences s)
                         /\ presence_channel_name p <> consumer_channel_name consumer)
           /\ rooms s' = rooms s
           /\ run_sync (remove_presence func consumer) s
              = run_sync (func consumer) s')
  /\ (forall s e s',
         run_sync (PresenceManager_leave_all (consumer_channel_name consumer)) s
         = (Raise e, s') ->
         run_sync (remove_presence func consumer) s = (Raise e, s')).
Proof.
  intros Hf. split; [|split; [|split]].
  - unfold touch_presence, touch_presence_async.
    apply agree_bind; [|intros _; apply Hf].
    exact (agree_call (Touch (consumer_channel_name consumer))).
  - unfold remove_presence, remove_presence_async.
    apply agree_bind; [|intros _; apply Hf].
    exact (agree_call (LeaveAll (consumer_channel_name consumer))).
  - intros s W Q Acc.
    destruct (leave_all_quiet_run s (consumer_channel_name consumer) W Q Acc)
      as [rows [_ Hrun]].
    eexists. split; [|split; [|split]];
      [| | |unfold run_sync, remove_presence, bind in *;
            rewrite Hrun; reflexivity];
      [reflexivity| |reflexivity].
    intros p. cbn [presences]. rewrite filter_In, negb_true_iff, String.eqb_neq.
    reflexivity.
  - intros s e s' Hrun. unfold run_sync, remove_presence, bind in *.
    rewrite Hrun. reflexivity.
Qed.

Lemma decorators_run_before_the_handler_witness :
  run_sync (remove_presence (fun _ => ret tt) (mkConsumer "c1")) two_rooms_store
  = (Raise (ReceiverError "boom"),
     snd (run_sync (PresenceManager_leave_all "c1") two_rooms_store))
  /\ exists s',
      presences s' = []
      /\ run_sync (remove_presence (fun _ => ret tt) (mkConsumer "c1"))
                  c1_everywhere_store
         = (Ok tt, s').
Proof.
  pose proof (decorators_run_before_the_handler
                (fun _ => ret tt) (fun _ => ret tt) (mkConsumer "c1")
                (fun c s => eq_refl)) as [_ [_ [Hgone Hraise]]].
  split.
  - apply Hraise. reflexivity.
  - destruct (Hgone c1_everywhere_store wf_c1_everywhere_store)
      as [s' [Hp [_ [_ Hrun]]]].
    + intros ev. reflexivity.
    + intros r [<-|[<-|[]]]; reflexivity.
    + exists s'. split; [rewrite Hp; reflexivity|exact Hrun].
Defined.

(** ** Blocking methods inside an event loop *)

Lemma Room_prune_presences_shape self age c s :
  Room_prune_presences self age c s =
  match (t <- now ;; d <- timedelta (effective_max_age s age) ;; datetime_sub t d)
          c s with
  | (Ok cutoff, s0) =>
      (num_deleted <- Presence_objects_delete (stale_in self cutoff) ;;
       if Nat.ltb 0 num_deleted
       then Room_broadcast_changed self None None true
       else ret tt) c s0
  | (Raise e, s0) => (Raise e, s0)
  end.
Proof.
  unfold Room_prune_presences, max_age_setting, effective_max_age,
    bind, ret, now, gets.
  destruct age as [a|].
  - destruct (timedelta a c s) as [[d|e] s0]; [|reflexivity].
    destruct (datetime_sub (clock s) d c s0) as [[x|e] s1]; reflexivity.
  - destruct (timedelta _ c s) as [[d|e] s0]; [|reflexivity].
    destruct (datetime_sub (clock s) d c s0) as [[x|e] s1]; reflexivity.
Qed.

(** Each blocking operation, called where an event loop is running, raises
    before any row, transport call or event: the store is unchanged.  The
    exception is [SynchronousOnlyOperation], raised at the first query;
    for PruneStale with an age for which [now - age] is not a datetime it
    is [OverflowError], the cutoff being computed before the query.  The
    blocking decorators fail as the other operations do and do not run the
    handler. *)
Theorem blocking_call_in_event_loop c s :
  ((forall r age, c = PruneStale r age ->
                  cutoff_in_range (clock s) (effective_max_age s age)) ->
   run_async (call_sync c) s = (Raise SynchronousOnlyOperation, s))
  /\ (forall r age, c = PruneStale r age ->
                    ~ cutoff_in_range (clock s) (effective_max_age s age) ->
                    run_async (call_sync c) s = (Raise OverflowError, s))
  /\ (forall A (func : Consumer -> M A) consumer,
         run_async (touch_presence func consumer) s
         = (Raise SynchronousOnlyOperation, s)
         /\ run_async (remove_presence func consumer) s
            = (Raise SynchronousOnlyOperation, s)).
Proof.
  split; [|split].
  - intros Hrange.
    destruct c as [rn m u|m|rn m|m|r age|]; try reflexivity.
    unfold run_async. cbn [call_sync]. rewrite Room_prune_presences_shape.
    rewrite (proj1 (cutoff_run _ EventLoop s) (Hrange r age eq_refl)).
    reflexivity.
  - intros r age -> R.
    unfold run_async. cbn [call_sync]. rewrite Room_prune_presences_shape.
    rewrite (proj2 (cutoff_run _ EventLoop s) R). reflexivity.
  - intros A func consumer. split; reflexivity.
Qed.

Lemma blocking_call_in_event_loop_witness :
  run_async (call_sync (Join "lobby" "c2" None)) lobby_store
  = (Raise SynchronousOnlyOperation, lobby_store)
  /\ run_async (call_sync (PruneStale lobby (Some 60%Z))) aged_store
     = (Raise SynchronousOnlyOperation, aged_store)
  /\ run_async (call_sync (PruneStale lobby (Some 100000000000%Z))) aged_store
     = (Raise OverflowError, aged_store).
Proof.
  split; [|split].
  - apply (proj1 (blocking_call_in_event_loop (Join "lobby" "c2" None) lobby_store)).
    intros r age H. discriminate H.
  - apply (proj1 (blocking_call_in_event_loop (PruneStale lobby (Some 60%Z))
                                              aged_store)).
    intros r age H. inversion H; subst. exact cutoff_in_range_noon_60.
  - apply (proj1 (proj2 (blocking_call_in_event_loop
                           (PruneStale lobby (Some 100000000000%Z)) aged_store))
                 lobby (Some 100000000000%Z) eq_refl).
    unfold cutoff_in_range. cbn. lia.
Defined.

(** ** Touch and the queries *)

Lemma existsb_map_touch_row (f : Presence -> bool) q t l :
  (forall p, f (touch_row q t p) = f p) ->
  existsb f (map (touch_row q t) l) = existsb f l.
Proof.
  intros H. induction l as [|a l IH]; cbn; [reflexivity|].
  rewrite H, IH. reflexivity.
Qed.

Lemma filter_map_touch_row_length (f : Presence -> bool) q t l :
  (forall p, f (touch_row q t p) = f p) ->
  List.length (filter f (map (touch_row q t) l)) = List.length (filter f l).
Proof.
  intros H. induction l as [|a l IH]; cbn; [reflexivity|].
  rewrite H. destruct (f a); cbn; rewrite IH; reflexivity.
Qed.

Lemma filter_map_touch_row_pks (f : Presence -> bool) q t l :
  (forall p, f (touch_row q t p) = f p) ->
  map presence_pk (filter f (map (touch_row q t) l))
  = map presence_pk (filter f l).
Proof.
  intros H. induction l as [|a l IH]; cbn; [reflexivity|].
  rewrite H. destruct (f a); cbn; rewrite IH; [|reflexivity].
  destruct (touch_row_fields q t a) as [-> _]. reflexivity.
Qed.

(** A Touch changes no answer about who is present: [get_users] and
    [get_anonymous_count] of every room return after [touch] what they
    returned before, and a Leave finds the rows a Leave found before. *)
Theorem touch_changes_no_membership s m r :
  let s1 := snd (run_sync (PresenceManager_touch m) s) in
  fst (run_sync (Room_get_users r) s1) = fst (run_sync (Room_get_users r) s)
  /\ fst (run_sync (Room_get_anonymous_count r) s1)
     = fst (run_sync (Room_get_anonymous_count r) s)
  /\ (forall m', map presence_pk (filter (same_room_member (room_pk r) m')
                                         (presences s1))
                 = map presence_pk (filter (same_room_member (room_pk r) m')
                                           (presences s))).
Proof.
  cbv zeta. cbn. split; [|split].
  - f_equal. apply filter_ext. intros x.
    apply existsb_map_touch_row. intros p.
    destruct (touch_row_fields (by_channel_name m) (clock s) p)
      as [_ [-> [_ ->]]]. reflexivity.
  - f_equal. apply filter_map_touch_row_length. intros p. unfold anonymous_in.
    destruct (touch_row_fields (by_channel_name m) (clock s) p)
      as [_ [-> [_ ->]]]. reflexivity.
  - intros m'. apply filter_map_touch_row_pks. intros p. unfold same_room_member.
    destruct (touch_row_fields (by_channel_name m) (clock s) p)
      as [_ [-> [-> _]]]. reflexivity.
Qed.
